(** * Live production dashboard: machines, work-order assignment,
      meter counter and production alerts

    A shallow embedding of [src/main.py] and [src/erpnext_sync.py].

    Conventions of the embedding:
    - rows of the [Machine], [ERPNextMetadata] and [ProductionLog] tables are
      records; a table is the list of its rows in the store's enumeration
      order, and a mutated ORM object is the row with that primary key;
    - timestamps and durations are integer seconds ([Z]); [datetime.now()]
      is the parameter [now] of the operation that reads the clock;
    - quantities are integers, as in the seeding code of [startup_event];
      the percentage of the alert loop is an exact rational ([Q]);
    - the HTTP requests to ERPNext ([update_work_order_status]) and the
      websocket broadcasts leave the store untouched and are not part of
      the state, except for the alerts, which are collected in a list. *)

From Stdlib Require Import ZArith QArith List String Bool Lia Lqa Sorted.
From stdpp Require Import gmap.
Import ListNotations.

Local Open Scope string_scope.
Local Open Scope list_scope.
Local Open Scope Z_scope.

(** ** Data model *)

(** The five values written to [Machine.status]. *)
Inductive Status : Set := free | paused | stopped | running | completed.

Definition Status_eqb (a b : Status) : bool :=
  match a, b with
  | free, free | paused, paused | stopped, stopped
  | running, running | completed, completed => true
  | _, _ => false
  end.

(** Python equality on optional strings ([None == None] holds). *)
Definition opt_eqb (a b : option string) : bool :=
  match a, b with
  | Some x, Some y => String.eqb x y
  | None, None => true
  | _, _ => false
  end.

(** Truthiness of an optional string: [None] and the empty string are falsy. *)
Definition truthy (a : option string) : bool :=
  match a with
  | Some s => negb (String.eqb s "")
  | None => false
  end.

(** Truthiness of an optional number: [None] and [0] are falsy. *)
Definition truthyZ (a : option Z) : bool :=
  match a with
  | Some z => negb (z =? 0)
  | None => false
  end.

(** Modelled from the spec: the columns of [models.Machine] (the class is
    imported by both source files; its declaration is not among them). The
    fields are the ones the two files read and write. *)
Module Machine.
Record t : Set := mk {
  id : Z;
  location : string;
  name : string;
  status : Status;
  is_locked : bool;
  work_order : option string;
  erpnext_work_order_id : option string;
  pipe_size : option string;
  target_qty : Z;
  produced_qty : Z;
  seconds_per_meter : option Z;
  last_tick_time : option Z
}.

Definition set_status (v : Status) (m : t) : t :=
  mk (id m) (location m) (name m) v (is_locked m) (work_order m)
     (erpnext_work_order_id m) (pipe_size m) (target_qty m) (produced_qty m)
     (seconds_per_meter m) (last_tick_time m).

Definition set_is_locked (v : bool) (m : t) : t :=
  mk (id m) (location m) (name m) (status m) v (work_order m)
     (erpnext_work_order_id m) (pipe_size m) (target_qty m) (produced_qty m)
     (seconds_per_meter m) (last_tick_time m).

Definition set_produced_qty (v : Z) (m : t) : t :=
  mk (id m) (location m) (name m) (status m) (is_locked m) (work_order m)
     (erpnext_work_order_id m) (pipe_size m) (target_qty m) v
     (seconds_per_meter m) (last_tick_time m).

Definition set_last_tick_time (v : option Z) (m : t) : t :=
  mk (id m) (location m) (name m) (status m) (is_locked m) (work_order m)
     (erpnext_work_order_id m) (pipe_size m) (target_qty m) (produced_qty m)
     (seconds_per_meter m) v.
End Machine.

(** Modelled from the spec: the columns of [models.ERPNextMetadata], the
    local assignment record of a work order. *)
Module ERPNextMetadata.
Record t : Set := mk {
  machine_id : Z;
  work_order : string;
  erp_status : string;
  erp_comments : option string;
  last_synced : Z
}.

Definition set_erp_status (v : string) (r : t) : t :=
  mk (machine_id r) (work_order r) v (erp_comments r) (last_synced r).

Definition set_last_synced (v : Z) (r : t) : t :=
  mk (machine_id r) (work_order r) (erp_status r) (erp_comments r) v.

Definition set_machine_id (v : Z) (r : t) : t :=
  mk v (work_order r) (erp_status r) (erp_comments r) (last_synced r).
End ERPNextMetadata.

(** Modelled from the spec: the columns of [models.ProductionLog]. *)
Module ProductionLog.
Record t : Set := mk {
  machine_id : Z;
  work_order : option string;
  pipe_size : option string;
  produced_qty : Z;
  timestamp : Z
}.
End ProductionLog.

(** A work order as returned by [get_work_orders]: the dictionary with the
    keys requested from ERPNext. [qty] and [produced_qty] are the values of
    [wo.get("qty", 0)] and [wo.get("produced_qty", 0)]. *)
Module WorkOrder.
Record t : Set := mk {
  name : string;
  status : string;
  custom_machine_id : option string;
  custom_pipe_size : option string;
  custom_location : option string;
  qty : Z;
  produced_qty : Z
}.
End WorkOrder.

(** The persistent store: the three tables. *)
Record Store : Set := mkStore {
  machines : list Machine.t;
  metadata : list ERPNextMetadata.t;
  production_logs : list ProductionLog.t
}.

(** Mutating the ORM object with primary key [i]. *)
Definition update_machine (i : Z) (f : Machine.t -> Machine.t)
    (ms : list Machine.t) : list Machine.t :=
  List.map (fun m => if Machine.id m =? i then f m else m) ms.

(** Mutating the first row that satisfies [p] (the object a [.first()]
    query returned). *)
Fixpoint update_first {A : Type} (p : A -> bool) (f : A -> A) (l : list A)
    : list A :=
  match l with
  | [] => []
  | x :: r => if p x then f x :: r else x :: update_first p f r
  end.

(** ** [erpnext_sync.py]: the assignment pass *)

(** [db.query(Machine).filter(erpnext_work_order_id == wo_name).first()] *)
Definition existing (st : Store) (wo_name : string) : option Machine.t :=
  List.find (fun m => opt_eqb (Machine.erpnext_work_order_id m) (Some wo_name))
            (machines st).

(** The filter of the query for free machines. *)
Definition is_free_at (location : option string) (m : Machine.t) : bool :=
  opt_eqb (Some (Machine.location m)) location
  && negb (Machine.is_locked m)
  && List.existsb (Status_eqb (Machine.status m)) [free; paused; stopped].

Definition free_machines (st : Store) (location : option string)
    : list Machine.t :=
  List.filter (is_free_at location) (machines st).

(** The selection loop: the first machine of [free_machines] with the work
    order's pipe size, otherwise [free_machines[0]]. *)
Definition selected_machine (free_machines : list Machine.t)
    (pipe_size : option string) : option Machine.t :=
  match List.find (fun m => opt_eqb (Machine.pipe_size m) pipe_size)
                  free_machines with
  | Some m => Some m
  | None => List.hd_error free_machines
  end.

(** The seven assignments to the selected machine. *)
Definition assign_fields (wo : WorkOrder.t) (m : Machine.t) : Machine.t :=
  Machine.mk (Machine.id m) (Machine.location m) (Machine.name m)
    paused true
    (Some (WorkOrder.name wo)) (Some (WorkOrder.name wo))
    (WorkOrder.custom_pipe_size wo)
    (WorkOrder.qty wo) (WorkOrder.produced_qty wo)
    (Machine.seconds_per_meter m) (Machine.last_tick_time m).

Definition meta_for (wo_name : string) (r : ERPNextMetadata.t) : bool :=
  String.eqb (ERPNextMetadata.work_order r) wo_name.

(** The metadata update: insert a record, or overwrite the first one of
    this work order. *)
Definition upsert_meta (now : Z) (wo_name : string) (machine_id : Z)
    (metas : list ERPNextMetadata.t) : list ERPNextMetadata.t :=
  match List.find (meta_for wo_name) metas with
  | None => metas ++ [ERPNextMetadata.mk machine_id wo_name "Assigned" None now]
  | Some _ =>
      update_first (meta_for wo_name)
        (fun r => ERPNextMetadata.set_last_synced now
                    (ERPNextMetadata.set_erp_status "Assigned"
                       (ERPNextMetadata.set_machine_id machine_id r)))
        metas
  end.

(** The store operations of one loop iteration, in program order; a fault
    names the one at which the store raises. *)
Inductive Fault : Set :=
  | FailQueryExisting | FailQueryFree | FailQueryMeta | FailCommit.

Definition Fault_eqb (a b : Fault) : bool :=
  match a, b with
  | FailQueryExisting, FailQueryExisting | FailQueryFree, FailQueryFree
  | FailQueryMeta, FailQueryMeta | FailCommit, FailCommit => true
  | _, _ => false
  end.

Definition fails (fault : option Fault) (at_op : Fault) : bool :=
  match fault with
  | Some f => Fault_eqb f at_op
  | None => false
  end.

(** What one iteration of the [for wo in work_orders] loop does to the
    session: [Continue] leaves it as it was, [Commit s] makes [s] durable,
    [Raise s] leaves the loop with the uncommitted session state [s]. *)
Inductive Outcome : Set :=
  | Continue
  | Commit (s : Store)
  | Raise (s : Store).

Definition assign_body (now : Z) (fault : option Fault) (st : Store)
    (wo : WorkOrder.t) : Outcome :=
  let wo_name := WorkOrder.name wo in
  if String.eqb (WorkOrder.status wo) "In Process" then Continue
  else if truthy (WorkOrder.custom_machine_id wo) then Continue
  else if fails fault FailQueryExisting then Raise st
  else match existing st wo_name with
  | Some _ => Continue
  | None =>
    if fails fault FailQueryFree then Raise st
    else match selected_machine
                 (free_machines st (WorkOrder.custom_location wo))
                 (WorkOrder.custom_pipe_size wo) with
    | None => Continue
    | Some sel =>
      let st1 := mkStore (update_machine (Machine.id sel) (assign_fields wo)
                            (machines st))
                         (metadata st) (production_logs st) in
      if fails fault FailQueryMeta then Raise st1
      else
        let st2 := mkStore (machines st1)
                     (upsert_meta now wo_name (Machine.id sel) (metadata st1))
                     (production_logs st1) in
        if fails fault FailCommit then Raise st2 else Commit st2
    end
  end.

(** [auto_assign_work_orders]: the loop over the work orders inside
    [try ... except: db.rollback() ... finally: db.close()]. The argument
    [st] is the committed store; [faults] gives, per work order, the store
    operation that raises, if any. The result is the committed store when
    the function returns. *)
Fixpoint auto_assign_work_orders (now : Z) (faults : list (option Fault))
    (st : Store) (work_orders : list WorkOrder.t) : Store :=
  match work_orders with
  | [] => st
  | wo :: rest =>
      match assign_body now (List.hd None faults) st wo with
      | Continue => auto_assign_work_orders now (List.tl faults) st rest
      | Commit st' => auto_assign_work_orders now (List.tl faults) st' rest
      | Raise _ => st
      end
  end.

(** The pass when the store never raises. *)
Definition auto_assign (now : Z) (st : Store) (work_orders : list WorkOrder.t)
    : Store :=
  auto_assign_work_orders now [] st work_orders.

(** One round of [erpnext_sync_loop]: the work orders fetched, the clock
    and the faults of that round. The loop catches whatever the pass lets
    through and sleeps until the next round. *)
Record Round : Set := mkRound {
  round_now : Z;
  round_faults : list (option Fault);
  round_work_orders : list WorkOrder.t
}.

Definition erpnext_sync_loop (rounds : list Round) (st : Store) : Store :=
  List.fold_left
    (fun s r => auto_assign_work_orders (round_now r) (round_faults r) s
                  (round_work_orders r))
    rounds st.

(** ** [main.py]: machine controls *)

(** [get_machine]: the first machine with this id at this location. *)
Definition get_machine (st : Store) (location : string) (machine_id : Z)
    : option Machine.t :=
  List.find (fun m => (Machine.id m =? machine_id)
                      && String.eqb (Machine.location m) location)
            (machines st).

(** [update_machine_status], on the machine object: [now] is the clock
    reading taken for [last_tick_time]. *)
Definition update_machine_status (now : Z) (new_status : Status)
    (m : Machine.t) : Machine.t :=
  let m := Machine.set_status new_status m in
  match new_status with
  | running => Machine.set_last_tick_time (Some now) (Machine.set_is_locked true m)
  | completed => Machine.set_is_locked false m
  | _ => m
  end.

Definition with_machines (ms : list Machine.t) (st : Store) : Store :=
  mkStore ms (metadata st) (production_logs st).

(** The three endpoints return the new store and the [ok] flag. *)
Definition start_machine (now : Z) (location : string) (machine_id : Z)
    (st : Store) : Store * bool :=
  match get_machine st location machine_id with
  | None => (st, false)
  | Some m =>
      if negb (truthy (Machine.work_order m)) then (st, false)
      else (with_machines
              (update_machine (Machine.id m) (update_machine_status now running)
                 (machines st)) st, true)
  end.

Definition pause_machine (location : string) (machine_id : Z) (st : Store)
    : Store * bool :=
  match get_machine st location machine_id with
  | None => (st, false)
  | Some m =>
      (with_machines
         (update_machine (Machine.id m) (Machine.set_status paused)
            (machines st)) st, true)
  end.

Definition stop_machine (now : Z) (location : string) (machine_id : Z)
    (st : Store) : Store * bool :=
  match get_machine st location machine_id with
  | None => (st, false)
  | Some m =>
      (with_machines
         (update_machine (Machine.id m) (update_machine_status now stopped)
            (machines st)) st, true)
  end.

(** ** [main.py]: the automatic meter counter *)

(** The metadata query of the meter counter: the first record whose work
    order is the machine's. *)
Definition meta_of (work_order : option string) (r : ERPNextMetadata.t)
    : bool :=
  opt_eqb (Some (ERPNextMetadata.work_order r)) work_order.

(** The body of [for m in machines]: the machine, the metadata table and
    the log table after the iteration, and whether [updated] was set. *)
Definition meter_body (now : Z) (m : Machine.t)
    (metas : list ERPNextMetadata.t) (logs : list ProductionLog.t)
    : Machine.t * list ERPNextMetadata.t * list ProductionLog.t * bool :=
  if negb (truthyZ (Machine.seconds_per_meter m))
     || negb (truthy (Machine.work_order m))
  then (m, metas, logs, false)
  else match Machine.last_tick_time m, Machine.seconds_per_meter m with
  | None, _ => (Machine.set_last_tick_time (Some now) m, metas, logs, false)
  | Some _, None => (m, metas, logs, false)
  | Some last, Some spm =>
    let diff := now - last in
    if (spm <=? diff) && (Machine.produced_qty m <? Machine.target_qty m) then
      let m1 := Machine.set_last_tick_time (Some now)
                  (Machine.set_produced_qty (Machine.produced_qty m + 1) m) in
      let logs1 := logs ++ [ProductionLog.mk (Machine.id m1)
                              (Machine.work_order m1) (Machine.pipe_size m1)
                              1 now] in
      let metas1 := update_first (meta_of (Machine.work_order m1))
                      (fun r => ERPNextMetadata.set_last_synced now
                                  (ERPNextMetadata.set_erp_status "In Progress" r))
                      metas in
      if Machine.target_qty m1 <=? Machine.produced_qty m1 then
        let m2 := update_machine_status now completed
                    (Machine.set_produced_qty (Machine.target_qty m1) m1) in
        let metas2 := update_first (meta_of (Machine.work_order m1))
                        (ERPNextMetadata.set_erp_status "Completed") metas1 in
        (m2, metas2, logs1, true)
      else (m1, metas1, logs1, true)
    else (m, metas, logs, false)
  end.

(** The loop over the running machines, in table order; machines that
    the query does not return are left as they are. *)
Fixpoint meter_loop (now : Z) (ms : list Machine.t)
    (metas : list ERPNextMetadata.t) (logs : list ProductionLog.t)
    (updated : bool)
    : list Machine.t * list ERPNextMetadata.t * list ProductionLog.t * bool :=
  match ms with
  | [] => ([], metas, logs, updated)
  | m :: rest =>
      if Status_eqb (Machine.status m) running then
        let '(m', metas', logs', adv) := meter_body now m metas logs in
        let '(rest', metas'', logs'', upd) :=
          meter_loop now rest metas' logs' (updated || adv) in
        (m' :: rest', metas'', logs'', upd)
      else
        let '(rest', metas'', logs'', upd) :=
          meter_loop now rest metas logs updated in
        (m :: rest', metas'', logs'', upd)
  end.

(** One tick of [automatic_meter_counter]: the session is committed only
    [if updated]; otherwise it is closed and its changes are dropped. *)
Definition automatic_meter_counter (now : Z) (st : Store) : Store :=
  let '(ms, metas, logs, updated) :=
    meter_loop now (machines st) (metadata st) (production_logs st) false in
  if updated then mkStore ms metas logs else st.

(** ** [main.py]: production alerts *)

(** An alert as broadcast: the machine and the level (the message text is
    fixed by the level, the machine name and the percentage). *)
Record Alert : Set := mkAlert {
  alert_machine_id : Z;
  alert_level_of : Z
}.

Definition percent (m : Machine.t) : Q :=
  (inject_Z (Machine.produced_qty m) / inject_Z (Machine.target_qty m)
   * inject_Z 100)%Q.

Definition Qlt_bool (x y : Q) : bool := negb (Qle_bool y x).

(** The [if / elif / elif] chain that sets [alert_level]. *)
Definition alert_level (percent : Q) : Z :=
  if Qle_bool (inject_Z 100) percent then 3
  else if Qle_bool (inject_Z 90) percent then 2
  else if Qle_bool (inject_Z 75) percent then 1
  else 0.

(** [alert_history.get(m.id, 0)] *)
Definition last_level (alert_history : gmap Z Z) (i : Z) : Z :=
  default 0 (alert_history !! i).

(** The body of [for m in machines] in [production_alerts]. *)
Definition alerts_body (m : Machine.t) (st : gmap Z Z * list Alert)
    : gmap Z Z * list Alert :=
  let '(alert_history, sent) := st in
  if negb (truthy (Machine.work_order m))
     || negb (Status_eqb (Machine.status m) running)
  then st
  else
    let level := alert_level (percent m) in
    if (0 <? level) && negb (level =? last_level alert_history (Machine.id m))
    then (<[Machine.id m := level]> alert_history,
          sent ++ [mkAlert (Machine.id m) level])
    else if Qlt_bool (percent m) (inject_Z 75)
    then (<[Machine.id m := 0]> alert_history, sent)
    else st.

(** One pass of [production_alerts] over the machines with
    [target_qty > 0]: the new history and the alerts broadcast. *)
Definition production_alerts (ms : list Machine.t) (alert_history : gmap Z Z)
    : gmap Z Z * list Alert :=
  List.fold_left (fun st m => alerts_body m st)
    (List.filter (fun m => 0 <? Machine.target_qty m) ms)
    (alert_history, []).

(** Successive passes of the [while True] loop, each over the machine
    table as it is at that time; the alerts of all passes, in order. *)
Fixpoint alerts_loop (snapshots : list (list Machine.t))
    (alert_history : gmap Z Z) : gmap Z Z * list Alert :=
  match snapshots with
  | [] => (alert_history, [])
  | ms :: later =>
      let '(h, sent) := production_alerts ms alert_history in
      let '(h', sent') := alerts_loop later h in
      (h', sent ++ sent')
  end.

(** ** Predicates and projections used in the statements *)

Definition candidate (location : option string) (m : Machine.t) : Prop :=
  Some (Machine.location m) = location
  /\ Machine.is_locked m = false
  /\ (Machine.status m = free \/ Machine.status m = paused
      \/ Machine.status m = stopped).

(** Two machine rows that agree on every field except, possibly, [status]. *)
Definition same_but_status (x y : Machine.t) : Prop :=
  Machine.id y = Machine.id x
  /\ Machine.location y = Machine.location x
  /\ Machine.name y = Machine.name x
  /\ Machine.is_locked y = Machine.is_locked x
  /\ Machine.work_order y = Machine.work_order x
  /\ Machine.erpnext_work_order_id y = Machine.erpnext_work_order_id x
  /\ Machine.pipe_size y = Machine.pipe_size x
  /\ Machine.target_qty y = Machine.target_qty x
  /\ Machine.produced_qty y = Machine.produced_qty x
  /\ Machine.seconds_per_meter y = Machine.seconds_per_meter x
  /\ Machine.last_tick_time y = Machine.last_tick_time x.

(** What the loop body does to the machine and to [updated] does not
    depend on the metadata and log tables. *)
Definition meter_machine (now : Z) (m : Machine.t) : Machine.t :=
  fst (fst (fst (meter_body now m [] []))).

Definition meter_advances (now : Z) (m : Machine.t) : bool :=
  snd (meter_body now m [] []).

(** The row of a machine at the end of the loop. *)
Definition meter_step (now : Z) (m : Machine.t) : Machine.t :=
  if Status_eqb (Machine.status m) running then meter_machine now m else m.

(** The guard of the advance: a rate and a work order are set, the last
    tick is [last], a full interval has elapsed and the target is not
    reached. *)
Definition due (now : Z) (m : Machine.t) : Prop :=
  exists last spm,
    Machine.seconds_per_meter m = Some spm /\ spm <> 0
    /\ truthy (Machine.work_order m) = true
    /\ Machine.last_tick_time m = Some last
    /\ spm <= now - last
    /\ Machine.produced_qty m < Machine.target_qty m.

Definition st_five_intervals : Store :=
  mkStore
    [Machine.mk 1 "Modan" "Machine 1" running true (Some "WO1") (Some "WO1")
       (Some "20") 100 0 (Some 20) (Some 10)]
    [ERPNextMetadata.mk 1 "WO1" "Assigned" None 5] [].

Definition loop_metas {X Y Z' : Type} (r : X * list ERPNextMetadata.t * Y * Z')
    : list ERPNextMetadata.t :=
  snd (fst (fst r)).

(** The three writes to the record of a machine that completes. *)
Definition closed_out (now : Z) (r : ERPNextMetadata.t) : ERPNextMetadata.t :=
  ERPNextMetadata.set_erp_status "Completed"
    (ERPNextMetadata.set_last_synced now
       (ERPNextMetadata.set_erp_status "In Progress" r)).

(** A machine one unit short of its target, with its assignment record. *)
Definition m_last_unit : Machine.t :=
  Machine.mk 1 "Modan" "Machine 1" running true (Some "WO1") (Some "WO1")
    (Some "20") 100 99 (Some 20) (Some 10).

Definition st_last_unit : Store :=
  mkStore [m_last_unit] [ERPNextMetadata.mk 1 "WO1" "In Progress" None 9] [].

(** The quantity bound and the lock invariant of a machine row, and of
    every row of the store. *)
Definition qty_bound (m : Machine.t) : Prop :=
  Machine.produced_qty m <= Machine.target_qty m.

Definition lock_inv (m : Machine.t) : Prop :=
  (Machine.status m = running -> Machine.is_locked m = true)
  /\ (Machine.status m = completed -> Machine.is_locked m = false).

Definition all_machines (P : Machine.t -> Prop) (st : Store) : Prop :=
  List.Forall P (machines st).

(** A work order whose source reports more produced than ordered, and a
    store with one free machine at its location. *)
Definition wo_overproduced : WorkOrder.t :=
  WorkOrder.mk "WO7" "Not Started" None (Some "20") (Some "Modan") 10 12.

Definition st_one_free : Store :=
  mkStore
    [Machine.mk 1 "Modan" "Machine 1" free false None None (Some "20")
       100 0 (Some 20) None]
    [] [].

Definition wo_fresh : WorkOrder.t :=
  WorkOrder.mk "WO1" "Not Started" None (Some "20") (Some "Modan") 100 0.

(** The machines the alert loop looks at, the level it computes for one,
    the alert it broadcasts, and the test that decides the broadcast. *)
Definition watched (m : Machine.t) : bool :=
  (0 <? Machine.target_qty m)
  && truthy (Machine.work_order m)
  && Status_eqb (Machine.status m) running.

Definition level_of (m : Machine.t) : Z := alert_level (percent m).

Definition alert_of (m : Machine.t) : Alert :=
  mkAlert (Machine.id m) (level_of m).

Definition emits (alert_history : gmap Z Z) (m : Machine.t) : bool :=
  watched m
  && (0 <? level_of m)
  && negb (level_of m =? last_level alert_history (Machine.id m)).

(** Machine 1, running work order [WO1] of 100 units, at a given count. *)
Definition m_at (produced : Z) : Machine.t :=
  Machine.mk 1 "Modan" "Machine 1" running true (Some "WO1") (Some "WO1")
    (Some "20") 100 produced (Some 20) (Some 10).

(** Alerts go upward only, for one pass over one machine (a property the
    loop does not have). *)
Definition alerts_only_upward : Prop :=
  forall (m : Machine.t) (alert_history : gmap Z Z) (a : Alert),
    In a (snd (production_alerts [m] alert_history)) ->
    last_level alert_history (Machine.id m) < alert_level_of a.

(** Two free machines at one location and two work orders for it. *)
Definition st_two_free : Store :=
  mkStore
    [Machine.mk 1 "Modan" "Machine 1" free false None None (Some "20")
       100 0 (Some 20) None;
     Machine.mk 2 "Modan" "Machine 2" free false None None (Some "20")
       100 0 (Some 20) None]
    [] [].

Definition wo_second : WorkOrder.t :=
  WorkOrder.mk "WO2" "Not Started" None (Some "20") (Some "Modan") 50 0.

(** A machine that the query for free machines can return at its
    location: not locked, and free, paused or stopped. *)
Definition eligible (m : Machine.t) : bool :=
  negb (Machine.is_locked m)
  && List.existsb (Status_eqb (Machine.status m)) [free; paused; stopped].

(** No machine that can still be selected carries one of the work orders. *)
Definition no_eligible_carrier (wos : list WorkOrder.t) (st : Store) : Prop :=
  forall m wo, In m (machines st) -> In wo wos -> eligible m = true ->
    Machine.erpnext_work_order_id m <> Some (WorkOrder.name wo).

(** [Machine.id] is the primary key. *)
Definition unique_ids (st : Store) : Prop :=
  List.NoDup (List.map Machine.id (machines st)).

(** The four reasons for which an iteration leaves a work order alone. *)
Definition settled (st : Store) (wo : WorkOrder.t) : Prop :=
  String.eqb (WorkOrder.status wo) "In Process" = true
  \/ truthy (WorkOrder.custom_machine_id wo) = true
  \/ (exists m, In m (machines st)
        /\ Machine.erpnext_work_order_id m = Some (WorkOrder.name wo))
  \/ free_machines st (WorkOrder.custom_location wo) = [].

(** Machine 1 finished [WO1] and was paused afterwards, so it is unlocked
    and still carries [WO1]; the source still lists [WO1] as not started. *)
Definition st_stale_carrier : Store :=
  mkStore
    [Machine.mk 1 "Modan" "Machine 1" paused false (Some "WO1") (Some "WO1")
       (Some "20") 100 100 (Some 20) (Some 10);
     Machine.mk 2 "Modan" "Machine 2" free false None None (Some "20")
       100 0 (Some 20) None]
    [ERPNextMetadata.mk 1 "WO1" "Completed" None 10] [].

(** The invariant of a pass over the work orders [wos0]. *)
Definition pass_inv (wos0 : list WorkOrder.t) (st : Store) : Prop :=
  unique_ids st /\ no_eligible_carrier wos0 st.

(** ** [main.py]: renaming, and the operations as one step function *)

Definition set_name (v : string) (m : Machine.t) : Machine.t :=
  Machine.mk (Machine.id m) (Machine.location m) v (Machine.status m)
    (Machine.is_locked m) (Machine.work_order m)
    (Machine.erpnext_work_order_id m) (Machine.pipe_size m)
    (Machine.target_qty m) (Machine.produced_qty m)
    (Machine.seconds_per_meter m) (Machine.last_tick_time m).

(** [rename_machine] *)
Definition rename_machine (location : string) (machine_id : Z)
    (new_name : string) (st : Store) : Store * bool :=
  match get_machine st location machine_id with
  | None => (st, false)
  | Some m =>
      (with_machines
         (update_machine (Machine.id m) (set_name new_name) (machines st)) st,
       true)
  end.

(** The operations that write to the store: the three endpoints, the
    rename, one assignment pass and one tick of the meter counter. *)
Inductive Op : Set :=
  | OpAssign (now : Z) (faults : list (option Fault))
             (work_orders : list WorkOrder.t)
  | OpStart (now : Z) (location : string) (machine_id : Z)
  | OpPause (location : string) (machine_id : Z)
  | OpStop (now : Z) (location : string) (machine_id : Z)
  | OpRename (location : string) (machine_id : Z) (new_name : string)
  | OpTick (now : Z).

Definition apply_op (o : Op) (st : Store) : Store :=
  match o with
  | OpAssign now faults wos => auto_assign_work_orders now faults st wos
  | OpStart now location machine_id =>
      fst (start_machine now location machine_id st)
  | OpPause location machine_id => fst (pause_machine location machine_id st)
  | OpStop now location machine_id =>
      fst (stop_machine now location machine_id st)
  | OpRename location machine_id new_name =>
      fst (rename_machine location machine_id new_name st)
  | OpTick now => automatic_meter_counter now st
  end.

Definition run_ops (ops : list Op) (st : Store) : Store :=
  List.fold_left (fun s o => apply_op o s) ops st.

(** Successive ticks of the [while True] loop of the meter counter. *)
Definition meter_ticks (nows : list Z) (st : Store) : Store :=
  List.fold_left (fun s now => automatic_meter_counter now s) nows st.

(** The columns of a machine row that no operation but the rename writes,
    and the ones only the assignment writes. *)
Definition same_identity (x y : Machine.t) : Prop :=
  Machine.id y = Machine.id x
  /\ Machine.location y = Machine.location x
  /\ Machine.seconds_per_meter y = Machine.seconds_per_meter x.

Definition same_job (x y : Machine.t) : Prop :=
  Machine.work_order y = Machine.work_order x
  /\ Machine.erpnext_work_order_id y = Machine.erpnext_work_order_id x
  /\ Machine.pipe_size y = Machine.pipe_size x
  /\ Machine.target_qty y = Machine.target_qty x.

(** Both work-order columns of a row hold the same value. *)
Definition wo_synced (m : Machine.t) : Prop :=
  Machine.work_order m = Machine.erpnext_work_order_id m.

(** No two rows carry the same work order. *)
Definition distinct_carriers (st : Store) : Prop :=
  forall i j mi mj,
    nth_error (machines st) i = Some mi ->
    nth_error (machines st) j = Some mj ->
    Machine.erpnext_work_order_id mi <> None ->
    Machine.erpnext_work_order_id mi = Machine.erpnext_work_order_id mj ->
    i = j.

Definition well_formed (st : Store) : Prop :=
  unique_ids st /\ all_machines wo_synced st /\ distinct_carriers st.

(** Row [m'] is row [m] after it was selected for one of the work orders. *)
Definition assigned_from (wos : list WorkOrder.t) (m m' : Machine.t) : Prop :=
  exists wo,
    In wo wos
    /\ eligible m = true
    /\ Some (Machine.location m) = WorkOrder.custom_location wo
    /\ String.eqb (WorkOrder.status wo) "In Process" = false
    /\ truthy (WorkOrder.custom_machine_id wo) = false
    /\ m' = assign_fields wo m.

Definition m_running_locked : Machine.t :=
  Machine.mk 3 "Modan" "Machine 3" running true (Some "WO9") (Some "WO9")
    (Some "20") 100 40 (Some 20) (Some 10).

Definition st_mixed : Store :=
  mkStore
    [Machine.mk 1 "Modan" "Machine 1" free false None None (Some "25")
       100 0 (Some 20) None;
     Machine.mk 2 "Modan" "Machine 2" free false None None (Some "20")
       100 0 (Some 20) None;
     m_running_locked]
    [ERPNextMetadata.mk 3 "WO9" "In Progress" None 10] [].

(** The work orders of the metadata records, in table order. *)
Definition meta_keys (st : Store) : list string :=
  List.map ERPNextMetadata.work_order (metadata st).

(** ** Views of a tick *)

(** The log entry written for a machine that advances at [now]. *)
Definition log_of (now : Z) (m : Machine.t) : ProductionLog.t :=
  ProductionLog.mk (Machine.id m) (Machine.work_order m) (Machine.pipe_size m)
    1 now.

(** The machines that a tick at [now] advances, in table order. *)
Definition advanced (now : Z) (st : Store) : list Machine.t :=
  List.filter (fun m => Status_eqb (Machine.status m) running
                        && meter_advances now m) (machines st).

Definition total_produced (st : Store) : Z :=
  List.fold_right Z.add 0 (List.map Machine.produced_qty (machines st)).

(** Tick times that are each at least [spm] after the one before; [last]
    is the time before the first. *)
Fixpoint spaced (spm last : Z) (nows : list Z) : Prop :=
  match nows with
  | [] => True
  | now :: later => spm <= now - last /\ spaced spm now later
  end.

(** The same columns of a metadata record but status and sync time. *)
Definition meta_frame (r : ERPNextMetadata.t) : Z * string * option string :=
  (ERPNextMetadata.machine_id r, ERPNextMetadata.work_order r,
   ERPNextMetadata.erp_comments r).

(** A running machine that reached its count of 100 and was started
    again. *)
Definition m_restarted : Machine.t :=
  Machine.mk 1 "Modan" "Machine 1" running true (Some "WO1") (Some "WO1")
    (Some "20") 100 100 (Some 20) (Some 10).

Definition m_three_short : Machine.t :=
  Machine.mk 1 "Modan" "Machine 1" running true (Some "WO1") (Some "WO1")
    (Some "20") 100 97 (Some 20) (Some 10).

(** Machine 1 after the assignment of [WO1] at 5 and a start at 10. *)
Definition st_started : Store :=
  fst (start_machine 10 "Modan" 1 (auto_assign 5 st_one_free [wo_fresh])).

(** The row-wise effect of a rename. *)
Definition renamed (machine_id : Z) (new_name : string) (m : Machine.t)
    : Machine.t :=
  if Machine.id m =? machine_id then set_name new_name m else m.

(** ** [main.py]: the dashboard data *)

(** The dictionaries built by [get_dashboard_data]. *)
Record NextJob : Set := mkNextJob {
  nj_machine_id : Z;
  nj_work_order : option string;
  nj_pipe_size : option string;
  nj_total_qty : Z;
  nj_produced_qty : Z;
  nj_remaining_time : option Z
}.

Record Job : Set := mkJob {
  job_work_order : option string;
  job_size : option string;
  job_total_qty : Z;
  job_completed_qty : Z;
  job_remaining_qty : Z;
  job_remaining_time : option Z;
  job_progress_percent : Q;
  job_erp_status : option string;
  job_erp_comments : option string
}.

Record MachineView : Set := mkMachineView {
  mv_id : Z;
  mv_name : string;
  mv_status : Status;
  mv_job : option Job;
  mv_next_job : option NextJob
}.

Record LocationView : Set := mkLocationView {
  loc_name : string;
  loc_machines : list MachineView
}.

(** [{m.work_order: m for m in db.query(ERPNextMetadata).all()}]: a later
    record of the same work order replaces an earlier one. *)
Definition metadata_map (metas : list ERPNextMetadata.t)
    : gmap string ERPNextMetadata.t :=
  List.fold_left (fun acc r => <[ERPNextMetadata.work_order r := r]> acc)
    metas ∅.

Definition remaining_qty (m : Machine.t) : Z :=
  if Machine.target_qty m =? 0 then 0
  else Machine.target_qty m - Machine.produced_qty m.

Definition remaining_time (m : Machine.t) : option Z :=
  match Machine.seconds_per_meter m with
  | Some spm => if spm =? 0 then None else Some (remaining_qty m * spm)
  | None => None
  end.

Definition progress_percent (m : Machine.t) : Q :=
  if Machine.target_qty m =? 0 then inject_Z 0 else percent m.

(** [metadata_map.get(m.work_order)] *)
Definition erp_meta (metadata_map : gmap string ERPNextMetadata.t)
    (m : Machine.t) : option ERPNextMetadata.t :=
  match Machine.work_order m with
  | Some w => metadata_map !! w
  | None => None
  end.

(** The test for the next job of a location. *)
Definition is_next_job (m : Machine.t) : bool :=
  List.existsb (Status_eqb (Machine.status m)) [free; stopped]
  && truthy (Machine.work_order m).

Definition next_job_of (m : Machine.t) : NextJob :=
  mkNextJob (Machine.id m) (Machine.work_order m) (Machine.pipe_size m)
    (Machine.target_qty m) (Machine.produced_qty m) (remaining_time m).

(** The value of the ["job"] key. *)
Definition job_of (metadata_map : gmap string ERPNextMetadata.t)
    (m : Machine.t) : option Job :=
  if truthy (Machine.work_order m) then
    Some (mkJob (Machine.work_order m) (Machine.pipe_size m)
            (Machine.target_qty m) (Machine.produced_qty m)
            (remaining_qty m) (remaining_time m) (progress_percent m)
            (option_map ERPNextMetadata.erp_status (erp_meta metadata_map m))
            (match erp_meta metadata_map m with
             | Some r => ERPNextMetadata.erp_comments r
             | None => None
             end))
  else None.

(** [locations.setdefault(k, []).append(v)] on a dictionary kept in
    insertion order. *)
Fixpoint setdefault_append {V : Type} (k : string) (v : V)
    (d : list (string * list V)) : list (string * list V) :=
  match d with
  | [] => [(k, [v])]
  | (k', vs) :: rest =>
      if String.eqb k' k then (k', vs ++ [v]) :: rest
      else (k', vs) :: setdefault_append k v rest
  end.

(** The body of [for m in machines]. *)
Definition dashboard_body (metadata_map : gmap string ERPNextMetadata.t)
    (m : Machine.t)
    (acc : list (string * list MachineView) * gmap string NextJob)
    : list (string * list MachineView) * gmap string NextJob :=
  let '(locations, next_jobs) := acc in
  let next_jobs :=
    if is_next_job m then
      match next_jobs !! Machine.location m with
      | None => <[Machine.location m := next_job_of m]> next_jobs
      | Some _ => next_jobs
      end
    else next_jobs in
  (setdefault_append (Machine.location m)
     (mkMachineView (Machine.id m) (Machine.name m) (Machine.status m)
        (job_of metadata_map m) (next_jobs !! Machine.location m))
     locations,
   next_jobs).

Definition get_dashboard_data (st : Store) : list LocationView :=
  List.map (fun kv => mkLocationView (fst kv) (snd kv))
    (fst (List.fold_left
            (fun acc m => dashboard_body (metadata_map (metadata st)) m acc)
            (machines st) ([], ∅))).

(** The row of a machine as a function of the machines listed before it. *)
Definition row_view (metadata_map : gmap string ERPNextMetadata.t)
    (seen : list Machine.t) (m : Machine.t) : MachineView :=
  mkMachineView (Machine.id m) (Machine.name m) (Machine.status m)
    (job_of metadata_map m)
    (option_map next_job_of
       (List.find (fun x => String.eqb (Machine.location x) (Machine.location m)
                            && is_next_job x)
                  (seen ++ [m]))).

Fixpoint rows_from (metadata_map : gmap string ERPNextMetadata.t)
    (seen : list Machine.t) (ms : list Machine.t)
    : list (string * MachineView) :=
  match ms with
  | [] => []
  | m :: rest =>
      (Machine.location m, row_view metadata_map seen m)
      :: rows_from metadata_map (seen ++ [m]) rest
  end.

(** The values listed under key [k], in order. *)
Definition values_of {V : Type} (k : string) (rows : list (string * V))
    : list V :=
  List.map snd (List.filter (fun kv => String.eqb (fst kv) k) rows).

Definition at_location (k : string) (m : Machine.t) : bool :=
  String.eqb (Machine.location m) k.

(** Three machines at two locations; machine 2 is stopped with a work
    order. *)
Definition st_dashboard : Store :=
  mkStore
    [Machine.mk 1 "Modan" "Machine 1" running true (Some "WO1") (Some "WO1")
       (Some "20") 100 40 (Some 20) (Some 10);
     Machine.mk 100 "Baldeya" "Machine 1" free false None None (Some "20")
       100 0 (Some 20) None;
     Machine.mk 2 "Modan" "Machine 2" stopped true (Some "WO2") (Some "WO2")
       (Some "20") 50 10 (Some 20) (Some 10);
     Machine.mk 3 "Modan" "Machine 3" free false None None (Some "20")
       100 0 (Some 20) None]
    [ERPNextMetadata.mk 1 "WO1" "In Progress" None 10;
     ERPNextMetadata.mk 2 "WO2" "Assigned" None 5] [].

Definition m_stopped : Machine.t :=
  Machine.mk 2 "Modan" "Machine 2" stopped true (Some "WO2") (Some "WO2")
    (Some "20") 50 10 (Some 20) (Some 10).

(** ** [main.py]: the connection manager *)

(** A websocket is known by its identity, here a number;
    [active_connections] is the list of the open ones. *)
Definition connect (active_connections : list Z) (ws : Z) : list Z :=
  active_connections ++ [ws].

(** [list.remove]: the first occurrence. *)
Fixpoint remove_first (ws : Z) (l : list Z) : list Z :=
  match l with
  | [] => []
  | x :: rest => if x =? ws then rest else x :: remove_first ws rest
  end.

Definition disconnect (active_connections : list Z) (ws : Z) : list Z :=
  if List.existsb (Z.eqb ws) active_connections
  then remove_first ws active_connections
  else active_connections.

(** [broadcast]: the loop over a copy of the list. [fails ws] tells
    whether sending to [ws] raises; the result is the list of connections
    afterwards and the messages delivered, in order. *)
Definition broadcast {D : Type} (fails : Z -> bool)
    (active_connections : list Z) (data : D) : list Z * list (Z * D) :=
  List.fold_left
    (fun st ws =>
       if fails ws then (disconnect (fst st) ws, snd st)
       else (fst st, snd st ++ [(ws, data)]))
    active_connections (active_connections, []).

(** ** Views of the alert loop *)

(** One pass per reading of a single machine. *)
Definition readings (ms : list Machine.t) : list (list Machine.t) :=
  List.map (fun m => [m]) ms.

(** ** The level recorded by a pass of the alert loop *)

(** What [alert_history] holds for a machine after the pass that read it:
    the level of the alert if one was sent, 0 if the machine was looked at
    below 75 %, and otherwise what it held before. *)
Definition recorded_after (alert_history : gmap Z Z) (m : Machine.t) : Z :=
  if emits alert_history m then level_of m
  else if watched m && Qlt_bool (percent m) (inject_Z 75) then 0
  else last_level alert_history (Machine.id m).

(** A reading that resets the recorded level. *)
Definition resets (m : Machine.t) : Prop :=
  watched m = true /\ (percent m < inject_Z 75)%Q.

(** A work order of four units, machine 1 after it finished [WO1], was
    paused and was assigned this order, and the same machine started and
    three units later. *)
Definition wo_four : WorkOrder.t :=
  WorkOrder.mk "WO4" "Not Started" None (Some "20") (Some "Modan") 4 0.

Definition m_reassigned : Machine.t :=
  Machine.mk 1 "Modan" "Machine 1" paused true (Some "WO4") (Some "WO4")
    (Some "20") 4 0 (Some 20) (Some 30).

Definition m_three_of_four : Machine.t :=
  Machine.mk 1 "Modan" "Machine 1" running true (Some "WO4") (Some "WO4")
    (Some "20") 4 3 (Some 20) (Some 110).

(** The recorded level of every machine with a positive target whose
    percentage is below 75 is 0 after the pass (a property the loop does
    not have). *)
Definition reset_whenever_below_75 : Prop :=
  forall (ms : list Machine.t) (alert_history : gmap Z Z) (m : Machine.t),
    List.NoDup (List.map Machine.id ms) ->
    In m ms ->
    0 < Machine.target_qty m ->
    (percent m < inject_Z 75)%Q ->
    last_level (fst (production_alerts ms alert_history)) (Machine.id m) = 0.

(** * Properties *)

(** Case analysis on the test of the first conditional or optional
    value in the goal. *)
Ltac case_branch :=
  match goal with
  | |- context [if ?b then _ else _] => destruct b
  | |- context [match ?o with Some _ => _ | None => _ end] => destruct o
  end.

(** ** Equality tests *)

Lemma Status_eqb_eq a b : Status_eqb a b = true <-> a = b.
Proof. destruct a, b; simpl; split; intros H; congruence. Qed.

Lemma opt_eqb_eq a b : opt_eqb a b = true <-> a = b.
Proof.
  destruct a as [x|], b as [y|]; simpl; try (split; congruence).
  rewrite String.eqb_eq. split; congruence.
Qed.

Lemma opt_eqb_refl a : opt_eqb a a = true.
Proof. now apply opt_eqb_eq. Qed.

(** ** Lists: first match, update by key *)

Section ListFacts.
Context {A : Type}.
Implicit Types (p q : A -> bool) (l : list A).

Lemma find_split p l x :
  List.find p l = Some x ->
  exists pre post,
    l = pre ++ x :: post /\ p x = true /\ (forall y, In y pre -> p y = false).
Proof.
  induction l as [|a l IH]; simpl; [discriminate|].
  destruct (p a) eqn:Ha.
  - intros [= ->]. exists [], l. repeat split; auto. intros y [].
  - intros H. destruct (IH H) as (pre & post & -> & Hx & Hpre).
    exists (a :: pre), post. repeat split; auto.
    intros y [<-|Hy]; auto.
Qed.

Lemma find_filter p q l :
  List.find q (List.filter p l) = List.find (fun x => p x && q x) l.
Proof.
  induction l as [|a l IH]; simpl; [reflexivity|].
  destruct (p a); simpl; [destruct (q a)|]; auto.
Qed.

Lemma hd_error_filter p l :
  List.hd_error (List.filter p l) = List.find p l.
Proof.
  induction l as [|a l IH]; simpl; [reflexivity|].
  destruct (p a); simpl; auto.
Qed.

Lemma find_none_iff p l :
  List.find p l = None <-> (forall x, In x l -> p x = false).
Proof.
  split; [intros H x; now apply List.find_none|].
  induction l as [|a l IH]; simpl; [reflexivity|]; intros H.
  rewrite (H a) by auto. apply IH. auto.
Qed.

(** When [f] keeps the key, the first match after the update is the
    updated first match. *)
Lemma find_update_first p (f : A -> A) l :
  (forall x, p (f x) = p x) ->
  List.find p (update_first p f l) = option_map f (List.find p l).
Proof.
  intros Hf. induction l as [|a l IH]; simpl; [reflexivity|].
  destruct (p a) eqn:Ha; simpl.
  - now rewrite Hf, Ha.
  - now rewrite Ha.
Qed.
End ListFacts.

Lemma update_machine_length i f ms :
  length (update_machine i f ms) = length ms.
Proof. unfold update_machine. now rewrite List.length_map. Qed.

Lemma update_machine_nth i f ms n :
  nth_error (update_machine i f ms) n =
  option_map (fun m => if Machine.id m =? i then f m else m) (nth_error ms n).
Proof. unfold update_machine. apply List.nth_error_map. Qed.

Lemma update_machine_In i f ms m' :
  In m' (update_machine i f ms) <->
  exists m, In m ms /\ m' = if Machine.id m =? i then f m else m.
Proof.
  unfold update_machine. rewrite List.in_map_iff.
  split; intros (m & H1 & H2); exists m; auto.
Qed.

(** ** The candidate set and the selection (C6) *)

Lemma is_free_at_iff location m :
  is_free_at location m = true <-> candidate location m.
Proof.
  unfold is_free_at, candidate.
  rewrite !Bool.andb_true_iff, opt_eqb_eq, Bool.negb_true_iff.
  destruct (Machine.status m); simpl; intuition congruence.
Qed.

Lemma is_free_at_false location m :
  is_free_at location m = false <-> ~ candidate location m.
Proof.
  rewrite <- is_free_at_iff. destruct (is_free_at location m); split; congruence.
Qed.

(** C6. The candidates of a work order are exactly the machines of the
    store at its location that are not locked and are free, paused or
    stopped. When some candidate has the work order's pipe size, the
    selected machine is the first machine of the store (in enumeration
    order) that is a candidate with that pipe size; when none has, it is
    the first machine of the store that is a candidate; with no candidate
    nothing is selected. *)
Theorem selection_first_match_else_first (st : Store) (wo : WorkOrder.t) :
  let location := WorkOrder.custom_location wo in
  let size := WorkOrder.custom_pipe_size wo in
  let cands := free_machines st location in
  (forall m, In m cands <-> In m (machines st) /\ candidate location m)
  /\ ((exists c, In c cands /\ Machine.pipe_size c = size) ->
      exists m pre post,
        selected_machine cands size = Some m
        /\ machines st = pre ++ m :: post
        /\ candidate location m /\ Machine.pipe_size m = size
        /\ forall x, In x pre ->
             ~ (candidate location x /\ Machine.pipe_size x = size))
  /\ ((forall c, In c cands -> Machine.pipe_size c <> size) ->
      cands <> [] ->
      exists m pre post,
        selected_machine cands size = Some m
        /\ machines st = pre ++ m :: post
        /\ candidate location m
        /\ forall x, In x pre -> ~ candidate location x)
  /\ (cands = [] -> selected_machine cands size = None).
Proof.
  intros location size cands.
  assert (Hin : forall m, In m cands <-> In m (machines st) /\ candidate location m).
  { intros m. unfold cands, free_machines.
    rewrite List.filter_In, is_free_at_iff. reflexivity. }
  split; [exact Hin|]. split; [|split].
  - intros (c & Hc & Hsz).
    unfold selected_machine.
    destruct (List.find _ cands) as [m|] eqn:Hf.
    + unfold cands, free_machines in Hf. rewrite find_filter in Hf.
      destruct (find_split _ _ _ Hf) as (pre & post & Hms & Hm & Hpre).
      apply Bool.andb_true_iff in Hm as [Hm1 Hm2].
      exists m, pre, post. repeat split; auto.
      * now apply is_free_at_iff in Hm1 as (? & ? & ?).
      * now apply is_free_at_iff in Hm1 as (? & ? & ?).
      * now apply is_free_at_iff in Hm1 as (? & ? & ?).
      * now apply opt_eqb_eq.
      * intros x Hx [Hc1 Hc2]. specialize (Hpre x Hx).
        apply is_free_at_iff in Hc1. apply opt_eqb_eq in Hc2.
        rewrite Hc1, Hc2 in Hpre. discriminate.
    + exfalso. rewrite find_none_iff in Hf. specialize (Hf c Hc).
      apply opt_eqb_eq in Hsz. congruence.
  - intros Hno Hne.
    unfold selected_machine.
    destruct (List.find _ cands) as [m|] eqn:Hf.
    + exfalso. apply List.find_some in Hf as [Hm1 Hm2].
      apply opt_eqb_eq in Hm2. exact (Hno m Hm1 Hm2).
    + unfold cands, free_machines. rewrite hd_error_filter.
      destruct (List.find (is_free_at location) (machines st)) as [m|] eqn:Hh.
      * destruct (find_split _ _ _ Hh) as (pre & post & Hms & Hm & Hpre).
        exists m, pre, post. repeat split; auto;
          try (now apply is_free_at_iff in Hm as (? & ? & ?)).
        intros x Hx. apply is_free_at_false. auto.
      * exfalso. apply Hne. unfold cands, free_machines.
        rewrite find_none_iff in Hh.
        destruct (List.filter _ _) as [|a l] eqn:Hfl; [reflexivity|].
        assert (Ha : In a (List.filter (is_free_at location) (machines st)))
          by (rewrite Hfl; now left).
        apply List.filter_In in Ha as [Ha1 Ha2]. rewrite (Hh a Ha1) in Ha2.
        discriminate.
  - intros ->. reflexivity.
Qed.

(** ** Pausing a machine (C10) *)

Lemma get_machine_Some st location machine_id m :
  get_machine st location machine_id = Some m ->
  In m (machines st) /\ Machine.id m = machine_id
  /\ Machine.location m = location.
Proof.
  unfold get_machine. intros H. apply List.find_some in H as [Hin Hp].
  apply Bool.andb_true_iff in Hp as [H1 H2].
  apply Z.eqb_eq in H1. apply String.eqb_eq in H2. auto.
Qed.

(** C10. Pausing a machine that [get_machine] finds succeeds whatever its
    current status is: the row of that machine gets status [paused] and
    keeps every other field; the rows of the other machines, the metadata
    and the production logs are unchanged. *)
Theorem pause_machine_only_sets_status
    (location : string) (machine_id : Z) (st : Store) (m : Machine.t) :
  get_machine st location machine_id = Some m ->
  let st' := fst (pause_machine location machine_id st) in
  snd (pause_machine location machine_id st) = true
  /\ metadata st' = metadata st
  /\ production_logs st' = production_logs st
  /\ length (machines st') = length (machines st)
  /\ (exists n m', nth_error (machines st) n = Some m
        /\ nth_error (machines st') n = Some m'
        /\ Machine.status m' = paused /\ same_but_status m m')
  /\ (forall n x, nth_error (machines st) n = Some x ->
        exists x', nth_error (machines st') n = Some x'
          /\ same_but_status x x'
          /\ (Machine.id x <> machine_id -> x' = x)
          /\ (Machine.id x = machine_id -> Machine.status x' = paused)).
Proof.
  intros Hget. destruct (get_machine_Some _ _ _ _ Hget) as (Hin & Hid & _).
  unfold pause_machine. rewrite Hget. simpl. rewrite Hid.
  assert (Hrow : forall n x, nth_error (machines st) n = Some x ->
            exists x', nth_error
                (update_machine machine_id (Machine.set_status paused)
                   (machines st)) n = Some x'
              /\ same_but_status x x'
              /\ (Machine.id x <> machine_id -> x' = x)
              /\ (Machine.id x = machine_id -> Machine.status x' = paused)).
  { intros n x Hx. rewrite update_machine_nth, Hx. simpl.
    eexists. split; [reflexivity|].
    destruct (Machine.id x =? machine_id) eqn:E.
    - apply Z.eqb_eq in E. unfold same_but_status. simpl. intuition.
    - apply Z.eqb_neq in E. unfold same_but_status. intuition. }
  repeat split; auto.
  - apply update_machine_length.
  - destruct (List.In_nth_error _ _ Hin) as [n Hn].
    destruct (Hrow n m Hn) as (m' & H1 & H2 & _ & H4).
    exists n, m'. auto.
Qed.

(** Pausing a completed machine. *)
Lemma pause_machine_only_sets_status_witness :
  snd (pause_machine "Modan" 1
         (automatic_meter_counter 30 st_last_unit)) = true
  /\ List.map Machine.status
       (machines (fst (pause_machine "Modan" 1
                         (automatic_meter_counter 30 st_last_unit))))
     = [paused].
Proof.
  destruct (pause_machine_only_sets_status "Modan" 1
              (automatic_meter_counter 30 st_last_unit)
              (meter_machine 30 m_last_unit) eq_refl)
    as (H1 & _).
  split; [exact H1|reflexivity].
Defined.

(** ** The meter counter: one tick *)

Lemma meter_body_machine now m metas logs :
  fst (fst (fst (meter_body now m metas logs))) = meter_machine now m.
Proof.
  unfold meter_machine, meter_body.
  repeat (case_branch; simpl; try reflexivity).
Qed.

Lemma meter_body_advances now m metas logs :
  snd (meter_body now m metas logs) = meter_advances now m.
Proof.
  unfold meter_advances, meter_body.
  repeat (case_branch; simpl; try reflexivity).
Qed.

Lemma meter_loop_machines now ms metas logs u :
  fst (fst (fst (meter_loop now ms metas logs u))) = List.map (meter_step now) ms.
Proof.
  revert metas logs u. induction ms as [|m ms IH]; intros; simpl; [reflexivity|].
  unfold meter_step at 1.
  destruct (Status_eqb (Machine.status m) running).
  - pose proof (meter_body_machine now m metas logs) as Hm.
    destruct (meter_body now m metas logs) as [[[m' metas'] logs'] adv].
    specialize (IH metas' logs' (u || adv)%bool).
    destruct (meter_loop now ms metas' logs' (u || adv)%bool)
      as [[[rest' ?] ?] ?]. simpl in *. congruence.
  - specialize (IH metas logs u).
    destruct (meter_loop now ms metas logs u) as [[[rest' ?] ?] ?].
    simpl in *. congruence.
Qed.

Lemma meter_loop_updated now ms metas logs u :
  snd (meter_loop now ms metas logs u) =
  (u || List.existsb (fun m => Status_eqb (Machine.status m) running
                               && meter_advances now m) ms)%bool.
Proof.
  revert metas logs u. induction ms as [|m ms IH]; intros; simpl.
  - now rewrite Bool.orb_false_r.
  - destruct (Status_eqb (Machine.status m) running); simpl.
    + pose proof (meter_body_advances now m metas logs) as Hm.
      destruct (meter_body now m metas logs) as [[[m' metas'] logs'] adv].
      specialize (IH metas' logs' (u || adv)%bool).
      destruct (meter_loop now ms metas' logs' (u || adv)%bool)
        as [[[rest' ?] ?] ?]. simpl in *. subst.
      now rewrite Bool.orb_assoc.
    + specialize (IH metas logs u).
      destruct (meter_loop now ms metas logs u) as [[[rest' ?] ?] ?].
      simpl in *. assumption.
Qed.

(** The machine table after a tick. *)
Lemma automatic_meter_counter_machines now st :
  machines (automatic_meter_counter now st) =
  if List.existsb (fun m => Status_eqb (Machine.status m) running
                            && meter_advances now m) (machines st)
  then List.map (meter_step now) (machines st)
  else machines st.
Proof.
  unfold automatic_meter_counter.
  pose proof (meter_loop_machines now (machines st) (metadata st)
                (production_logs st) false) as H1.
  pose proof (meter_loop_updated now (machines st) (metadata st)
                (production_logs st) false) as H2.
  destruct (meter_loop _ _ _ _ _) as [[[ms metas] logs] upd].
  simpl in *. subst. destruct (List.existsb _ _); reflexivity.
Qed.

Lemma meter_advances_due now m : meter_advances now m = true <-> due now m.
Proof.
  unfold meter_advances, meter_body, due, truthyZ.
  destruct (Machine.seconds_per_meter m) as [spm|]; simpl.
  2:{ split; [discriminate|]. intros (? & ? & ? & _); discriminate. }
  destruct (Z.eqb_spec spm 0) as [E|E]; simpl.
  { split; [discriminate|]. intros (? & ? & [= <-] & ? & _). contradiction. }
  destruct (truthy (Machine.work_order m)); simpl.
  2:{ split; [discriminate|]. intros (? & ? & _ & _ & ? & _). discriminate. }
  destruct (Machine.last_tick_time m) as [last|]; simpl.
  2:{ split; [discriminate|]. intros (? & ? & _ & _ & _ & ? & _). discriminate. }
  destruct (Z.leb_spec spm (now - last)) as [L|L],
           (Z.ltb_spec (Machine.produced_qty m) (Machine.target_qty m)) as [P|P];
    simpl.
  - split; [intros _; exists last, spm; repeat split; auto|].
    intros _. destruct (_ <=? _); reflexivity.
  - split; [discriminate|]. intros (? & ? & _ & _ & _ & _ & _ & ?). lia.
  - split; [discriminate|].
    intros (? & ? & [= <-] & _ & _ & [= <-] & ? & _). lia.
  - split; [discriminate|]. intros (? & ? & _ & _ & _ & _ & _ & ?). lia.
Qed.

(** The machine after an advance that does not reach the target, and after
    one that does. *)
Lemma meter_machine_due now m :
  due now m ->
  meter_machine now m =
    if Machine.target_qty m <=? Machine.produced_qty m + 1
    then update_machine_status now completed
           (Machine.set_produced_qty (Machine.target_qty m)
              (Machine.set_last_tick_time (Some now)
                 (Machine.set_produced_qty (Machine.produced_qty m + 1) m)))
    else Machine.set_last_tick_time (Some now)
           (Machine.set_produced_qty (Machine.produced_qty m + 1) m).
Proof.
  intros (last & spm & Hs & Hnz & Hw & Hl & Hd & Hp).
  unfold meter_machine, meter_body, truthyZ. rewrite Hs, Hw, Hl. simpl.
  apply Z.eqb_neq in Hnz. rewrite Hnz. simpl.
  apply Z.leb_le in Hd. apply Z.ltb_lt in Hp. rewrite Hd, Hp. simpl.
  destruct (Machine.target_qty m <=? Machine.produced_qty m + 1); reflexivity.
Qed.

(** Without an advance the body changes at most [last_tick_time]. *)
Lemma meter_machine_not_due now m :
  meter_advances now m = false ->
  meter_machine now m = m
  \/ meter_machine now m = Machine.set_last_tick_time (Some now) m.
Proof.
  unfold meter_advances, meter_machine, meter_body.
  destruct (negb _ || negb _)%bool; simpl; auto.
  destruct (Machine.last_tick_time m); simpl; auto.
  destruct (Machine.seconds_per_meter m); simpl; auto.
  destruct (_ && _)%bool; simpl; auto.
  destruct (_ <=? _); simpl; discriminate.
Qed.

Lemma meter_step_produced now m :
  Machine.produced_qty (meter_step now m) = Machine.produced_qty m
  \/ Machine.produced_qty (meter_step now m) = Machine.produced_qty m + 1.
Proof.
  unfold meter_step. destruct (Status_eqb _ _); auto.
  destruct (meter_advances now m) eqn:E.
  - apply meter_advances_due in E. rewrite (meter_machine_due _ _ E).
    destruct E as (? & ? & _ & _ & _ & _ & _ & Hp).
    destruct (Z.leb_spec (Machine.target_qty m) (Machine.produced_qty m + 1));
      simpl; [|auto]. right. lia.
  - destruct (meter_machine_not_due _ _ E) as [-> | ->]; auto.
Qed.

Lemma existsb_running_due now ms m :
  In m ms -> Machine.status m = running -> due now m ->
  List.existsb (fun m => Status_eqb (Machine.status m) running
                         && meter_advances now m) ms = true.
Proof.
  intros Hin Hr Hd. apply List.existsb_exists. exists m. split; auto.
  apply Bool.andb_true_iff. split.
  - now apply Status_eqb_eq.
  - now apply meter_advances_due.
Qed.

(** The row at position [n] after a tick of a store in which the running
    machine at [n] is due. *)
Lemma tick_row_due now st n m :
  nth_error (machines st) n = Some m ->
  Machine.status m = running -> due now m ->
  nth_error (machines (automatic_meter_counter now st)) n =
  Some (meter_machine now m).
Proof.
  intros Hn Hr Hd. rewrite automatic_meter_counter_machines.
  rewrite (existsb_running_due now _ m (List.nth_error_In _ _ Hn) Hr Hd).
  rewrite List.nth_error_map, Hn. simpl. unfold meter_step.
  apply Status_eqb_eq in Hr. now rewrite Hr.
Qed.

(** ** At most one unit per tick (C1) *)

(** C1. One tick changes the [produced_qty] of any machine by zero or one
    unit. For a running machine with a work order, a rate [spm] and a last
    tick [last], if at least [k >= 1] intervals have elapsed
    ([k * spm <= now - last]) and the target is not reached, the tick adds
    exactly one unit, whatever [k] is. (The rate is positive, or else the
    clock has not gone backwards.) *)
Theorem one_unit_per_tick (now : Z) (st : Store) (n : nat) (m : Machine.t) :
  nth_error (machines st) n = Some m ->
  exists m',
    nth_error (machines (automatic_meter_counter now st)) n = Some m'
    /\ (Machine.produced_qty m' = Machine.produced_qty m
        \/ Machine.produced_qty m' = Machine.produced_qty m + 1)
    /\ (forall last spm k,
          Machine.status m = running ->
          truthy (Machine.work_order m) = true ->
          Machine.seconds_per_meter m = Some spm -> spm <> 0 ->
          (0 < spm \/ last <= now) ->
          Machine.last_tick_time m = Some last ->
          1 <= k -> k * spm <= now - last ->
          Machine.produced_qty m < Machine.target_qty m ->
          Machine.produced_qty m' = Machine.produced_qty m + 1).
Proof.
  intros Hn.
  assert (Hex : exists m',
             nth_error (machines (automatic_meter_counter now st)) n = Some m').
  { rewrite automatic_meter_counter_machines.
    destruct (List.existsb _ _); [|eauto].
    rewrite List.nth_error_map, Hn. simpl. eauto. }
  destruct Hex as [m' Hm']. exists m'. split; [assumption|]. split.
  - rewrite automatic_meter_counter_machines in Hm'.
    destruct (List.existsb _ _).
    + rewrite List.nth_error_map, Hn in Hm'. simpl in Hm'.
      injection Hm' as <-. apply meter_step_produced.
    + left. congruence.
  - intros last spm k Hr Hw Hs Hnz Hclock Hl Hk Hel Hp.
    assert (Hd : due now m).
    { exists last, spm. repeat split; auto. nia. }
    rewrite (tick_row_due now st n m Hn Hr Hd) in Hm'. injection Hm' as <-.
    rewrite (meter_machine_due _ _ Hd).
    destruct (Z.leb_spec (Machine.target_qty m) (Machine.produced_qty m + 1));
      simpl; lia.
Qed.

(** An elapsed time of five intervals (100 s at 20 s per meter) adds one
    unit. *)
Lemma one_unit_per_tick_witness :
  exists m',
    nth_error (machines (automatic_meter_counter 110 st_five_intervals)) 0
      = Some m'
    /\ Machine.produced_qty m' = 1.
Proof.
  destruct (one_unit_per_tick 110 st_five_intervals 0 _ eq_refl)
    as (m' & H1 & _ & H3).
  exists m'. split; [exact H1|].
  apply (H3 10 20 5); try reflexivity; lia.
Defined.

(** ** Clamp and complete (C5) *)

Section MeterMetadata.
Context {A : Type}.
Implicit Types (p q : A -> bool) (f : A -> A) (l : list A).

(** Updating the first [q]-row leaves the first [p]-row alone when no
    row is both and [f] keeps [p]. *)
Lemma find_update_first_other p q f l :
  (forall r, q r = true -> p r = false) ->
  (forall r, p (f r) = p r) ->
  List.find p (update_first q f l) = List.find p l.
Proof.
  intros Hqp Hf. induction l as [|a l IH]; simpl; [reflexivity|].
  destruct (q a) eqn:Hq; simpl.
  - now rewrite Hf, (Hqp a Hq).
  - now rewrite IH.
Qed.
End MeterMetadata.

Lemma meta_of_disjoint w w' r :
  w' <> w -> meta_of w' r = true -> meta_of w r = false.
Proof.
  unfold meta_of. intros Hne H. apply opt_eqb_eq in H.
  destruct (opt_eqb _ w) eqn:E; [|reflexivity].
  apply opt_eqb_eq in E. congruence.
Qed.

Lemma meter_body_metas_other now x metas logs w :
  Machine.work_order x <> w ->
  List.find (meta_of w) (loop_metas (meter_body now x metas logs)) =
  List.find (meta_of w) metas.
Proof.
  intros Hne. unfold meter_body, loop_metas.
  destruct (negb _ || negb _)%bool; simpl; [reflexivity|].
  destruct (Machine.last_tick_time x); simpl; [|reflexivity].
  destruct (Machine.seconds_per_meter x); simpl; [|reflexivity].
  destruct (_ && _)%bool; simpl; [|reflexivity].
  destruct (Machine.target_qty x <=? Machine.produced_qty x + 1); simpl;
    rewrite ?find_update_first_other; auto;
    intros r; apply meta_of_disjoint; assumption.
Qed.

Lemma meter_body_metas_complete now m metas logs :
  due now m ->
  Machine.target_qty m <= Machine.produced_qty m + 1 ->
  List.find (meta_of (Machine.work_order m))
    (loop_metas (meter_body now m metas logs)) =
  option_map (closed_out now)
    (List.find (meta_of (Machine.work_order m)) metas).
Proof.
  intros (last & spm & Hs & Hnz & Hw & Hl & Hd & Hp) Hc.
  unfold meter_body, loop_metas, truthyZ. rewrite Hs, Hw, Hl. simpl.
  apply Z.eqb_neq in Hnz. rewrite Hnz. simpl.
  apply Z.leb_le in Hd. apply Z.ltb_lt in Hp. rewrite Hd, Hp. simpl.
  apply Z.leb_le in Hc. rewrite Hc. simpl.
  rewrite !find_update_first by reflexivity.
  destruct (List.find _ metas); reflexivity.
Qed.

Lemma meter_loop_metas_other now ms metas logs u w :
  (forall x, In x ms -> Machine.status x = running ->
             Machine.work_order x <> w) ->
  List.find (meta_of w) (loop_metas (meter_loop now ms metas logs u)) =
  List.find (meta_of w) metas.
Proof.
  revert metas logs u. induction ms as [|x ms IH]; intros metas logs u H;
    simpl; [reflexivity|].
  destruct (Status_eqb (Machine.status x) running) eqn:Hr.
  - apply Status_eqb_eq in Hr.
    pose proof (meter_body_metas_other now x metas logs w
                  (H x (or_introl eq_refl) Hr)) as Hb.
    destruct (meter_body now x metas logs) as [[[m' metas'] logs'] adv].
    specialize (IH metas' logs' (u || adv)%bool
                  (fun y Hy => H y (or_intror Hy))).
    destruct (meter_loop now ms metas' logs' (u || adv)%bool)
      as [[[rest' ?] ?] ?].
    unfold loop_metas in *. simpl in *. congruence.
  - specialize (IH metas logs u (fun y Hy => H y (or_intror Hy))).
    destruct (meter_loop now ms metas logs u) as [[[rest' ?] ?] ?].
    unfold loop_metas in *. simpl in *. congruence.
Qed.

Lemma meter_loop_metas_complete now pre m post metas logs u :
  Machine.status m = running -> due now m ->
  Machine.target_qty m <= Machine.produced_qty m + 1 ->
  (forall x, In x pre \/ In x post -> Machine.status x = running ->
             Machine.work_order x <> Machine.work_order m) ->
  List.find (meta_of (Machine.work_order m))
    (loop_metas (meter_loop now (pre ++ m :: post) metas logs u)) =
  option_map (closed_out now)
    (List.find (meta_of (Machine.work_order m)) metas).
Proof.
  intros Hr Hd Hc. revert metas logs u.
  induction pre as [|x pre IH]; intros metas logs u H; simpl.
  - apply Status_eqb_eq in Hr. rewrite Hr.
    pose proof (meter_body_metas_complete now m metas logs Hd Hc) as Hb.
    destruct (meter_body now m metas logs) as [[[m' metas'] logs'] adv].
    pose proof (meter_loop_metas_other now post metas' logs' (u || adv)%bool
                  (Machine.work_order m)
                  (fun y Hy => H y (or_intror Hy))) as Hp.
    destruct (meter_loop now post metas' logs' (u || adv)%bool)
      as [[[rest' ?] ?] ?].
    unfold loop_metas in *. simpl in *. congruence.
  - assert (H' : forall y, In y pre \/ In y post ->
                   Machine.status y = running ->
                   Machine.work_order y <> Machine.work_order m).
    { intros y [Hy|Hy]; apply H; [left; right|right]; assumption. }
    destruct (Status_eqb (Machine.status x) running) eqn:Hx.
    + apply Status_eqb_eq in Hx.
      pose proof (meter_body_metas_other now x metas logs (Machine.work_order m)
                    (H x (or_introl (or_introl eq_refl)) Hx)) as Hb.
      destruct (meter_body now x metas logs) as [[[m' metas'] logs'] adv].
      specialize (IH metas' logs' (u || adv)%bool H').
      destruct (meter_loop now (pre ++ m :: post) metas' logs' (u || adv)%bool)
        as [[[rest' ?] ?] ?].
      unfold loop_metas in *. simpl in *. congruence.
    + specialize (IH metas logs u H').
      destruct (meter_loop now (pre ++ m :: post) metas logs u)
        as [[[rest' ?] ?] ?].
      unfold loop_metas in *. simpl in *. congruence.
Qed.

Lemma automatic_meter_counter_metadata now st :
  List.existsb (fun m => Status_eqb (Machine.status m) running
                         && meter_advances now m) (machines st) = true ->
  metadata (automatic_meter_counter now st) =
  loop_metas (meter_loop now (machines st) (metadata st)
                (production_logs st) false).
Proof.
  intros H. unfold automatic_meter_counter.
  pose proof (meter_loop_updated now (machines st) (metadata st)
                (production_logs st) false) as H2.
  destruct (meter_loop _ _ _ _ _) as [[[ms metas] logs] upd].
  simpl in *. subst. rewrite H. reflexivity.
Qed.

Lemma split_at_others {A : Type} (l : list A) n (a : A) (P : A -> Prop) :
  nth_error l n = Some a ->
  (forall n' x, n' <> n -> nth_error l n' = Some x -> P x) ->
  exists pre post, l = pre ++ a :: post
    /\ forall x, In x pre \/ In x post -> P x.
Proof.
  intros Hn H. destruct (List.nth_error_split l n Hn) as (pre & post & -> & Hlen).
  exists pre, post. split; [reflexivity|]. intros x [Hx|Hx].
  - destruct (List.In_nth_error _ _ Hx) as [k Hk].
    assert (Hlt : (k < length pre)%nat)
      by (apply List.nth_error_Some; congruence).
    apply (H k); [lia|]. rewrite List.nth_error_app1; assumption.
  - destruct (List.In_nth_error _ _ Hx) as [k Hk].
    apply (H (length pre + S k)%nat); [lia|].
    rewrite List.nth_error_app2 by lia.
    replace (length pre + S k - length pre)%nat with (S k) by lia.
    exact Hk.
Qed.

(** C5. A running machine one unit short of its target, with a work order,
    a rate and a full interval elapsed since its last tick, is after one
    tick exactly at its target, [completed] and unlocked. The first
    metadata record of its work order, when there is one, has
    [erp_status = "Completed"] at the end of the machine's iteration, and
    in the store after the tick when no other running machine of the
    store carries the same work order. *)
Theorem clamp_and_complete
    (now : Z) (st : Store) (n : nat) (m : Machine.t) (last spm : Z) :
  nth_error (machines st) n = Some m ->
  Machine.status m = running ->
  truthy (Machine.work_order m) = true ->
  Machine.seconds_per_meter m = Some spm -> spm <> 0 ->
  Machine.last_tick_time m = Some last ->
  spm <= now - last ->
  Machine.produced_qty m = Machine.target_qty m - 1 ->
  let st' := automatic_meter_counter now st in
  (exists m',
     nth_error (machines st') n = Some m'
     /\ Machine.produced_qty m' = Machine.target_qty m
     /\ Machine.target_qty m' = Machine.target_qty m
     /\ Machine.status m' = completed
     /\ Machine.is_locked m' = false
     /\ Machine.work_order m' = Machine.work_order m)
  /\ (forall metas logs r,
        List.find (meta_of (Machine.work_order m)) metas = Some r ->
        exists r',
          List.find (meta_of (Machine.work_order m))
            (loop_metas (meter_body now m metas logs)) = Some r'
          /\ ERPNextMetadata.erp_status r' = "Completed"
          /\ ERPNextMetadata.work_order r' = ERPNextMetadata.work_order r
          /\ ERPNextMetadata.machine_id r' = ERPNextMetadata.machine_id r)
  /\ ((forall n' x, n' <> n -> nth_error (machines st) n' = Some x ->
         Machine.status x = running ->
         Machine.work_order x <> Machine.work_order m) ->
      forall r,
        List.find (meta_of (Machine.work_order m)) (metadata st) = Some r ->
        exists r',
          List.find (meta_of (Machine.work_order m)) (metadata st') = Some r'
          /\ ERPNextMetadata.erp_status r' = "Completed"
          /\ ERPNextMetadata.work_order r' = ERPNextMetadata.work_order r
          /\ ERPNextMetadata.machine_id r' = ERPNextMetadata.machine_id r).
Proof.
  intros Hn Hr Hw Hs Hnz Hl Hel Hp st'.
  assert (Hd : due now m).
  { exists last, spm. repeat split; auto. lia. }
  assert (Hc : Machine.target_qty m <= Machine.produced_qty m + 1) by lia.
  split; [|split].
  - exists (meter_machine now m). split.
    + apply tick_row_due; assumption.
    + rewrite (meter_machine_due _ _ Hd).
      apply Z.leb_le in Hc. rewrite Hc. simpl. auto.
  - intros metas logs r Hfind.
    rewrite meter_body_metas_complete, Hfind by assumption.
    simpl. eexists. split; [reflexivity|]. simpl. auto.
  - intros Huniq r Hfind. unfold st'.
    rewrite automatic_meter_counter_metadata
      by (eapply existsb_running_due; eauto using List.nth_error_In).
    destruct (split_at_others (machines st) n m
                (fun x => Machine.status x = running ->
                          Machine.work_order x <> Machine.work_order m)
                Hn Huniq) as (pre & post & Hms & Hothers).
    rewrite Hms, meter_loop_metas_complete by assumption.
    rewrite Hfind. simpl. eexists. split; [reflexivity|]. simpl. auto.
Qed.

(** The last unit of [WO1]: the machine completes and the record of
    [WO1] is closed out. *)
Lemma clamp_and_complete_witness :
  List.map (fun m => (Machine.produced_qty m, Machine.status m,
                      Machine.is_locked m))
    (machines (automatic_meter_counter 30 st_last_unit))
  = [(100, completed, false)]
  /\ exists r',
       List.find (meta_of (Some "WO1"))
         (metadata (automatic_meter_counter 30 st_last_unit)) = Some r'
       /\ ERPNextMetadata.erp_status r' = "Completed".
Proof.
  destruct (clamp_and_complete 30 st_last_unit 0 m_last_unit 10 20)
    as (_ & _ & H); try reflexivity; try lia.
  split; [reflexivity|].
  assert (Hothers : forall n' x, n' <> 0%nat ->
            nth_error (machines st_last_unit) n' = Some x ->
            Machine.status x = running ->
            Machine.work_order x <> Machine.work_order m_last_unit).
  { intros [|[|k]] x Hne Hx; [contradiction|discriminate|discriminate]. }
  destruct (H Hothers (ERPNextMetadata.mk 1 "WO1" "In Progress" None 9) eq_refl)
    as (r' & H1 & H2 & _).
  exists r'. split; assumption.
Defined.

(** ** The assignment pass: what a commit is, and invariants of the pass *)

Lemma assign_body_Commit now fault st wo st' :
  assign_body now fault st wo = Commit st' ->
  exists sel,
    String.eqb (WorkOrder.status wo) "In Process" = false
    /\ truthy (WorkOrder.custom_machine_id wo) = false
    /\ existing st (WorkOrder.name wo) = None
    /\ selected_machine (free_machines st (WorkOrder.custom_location wo))
         (WorkOrder.custom_pipe_size wo) = Some sel
    /\ st' = mkStore
               (update_machine (Machine.id sel) (assign_fields wo) (machines st))
               (upsert_meta now (WorkOrder.name wo) (Machine.id sel)
                  (metadata st))
               (production_logs st).
Proof.
  unfold assign_body.
  destruct (String.eqb _ _); [discriminate|].
  destruct (truthy _); [discriminate|].
  destruct (fails fault FailQueryExisting); [discriminate|].
  destruct (existing _ _); [discriminate|].
  destruct (fails fault FailQueryFree); [discriminate|].
  destruct (selected_machine _ _) as [sel|]; [|discriminate].
  destruct (fails fault FailQueryMeta); [discriminate|].
  destruct (fails fault FailCommit); [discriminate|].
  intros [= <-]. exists sel. simpl. auto.
Qed.

(** A property of the committed store that every commit preserves holds
    when the pass returns, whatever faults occur. *)
Lemma auto_assign_work_orders_inv (P : Store -> Prop) now faults st wos :
  P st ->
  (forall s wo f s', In wo wos -> P s ->
     assign_body now f s wo = Commit s' -> P s') ->
  P (auto_assign_work_orders now faults st wos).
Proof.
  revert faults st. induction wos as [|wo wos IH]; intros faults st HP Hstep;
    simpl; [assumption|].
  destruct (assign_body now (List.hd None faults) st wo) as [|s'|s'] eqn:E.
  - apply IH; [assumption|]. intros s w f s2 Hw. apply Hstep. now right.
  - apply IH.
    + eapply Hstep; [left; reflexivity|exact HP|exact E].
    + intros s w f s2 Hw. apply Hstep. now right.
  - assumption.
Qed.

Lemma Forall_update_machine (P : Machine.t -> Prop) i f ms :
  List.Forall P ms ->
  (forall m, In m ms -> Machine.id m = i -> P (f m)) ->
  List.Forall P (update_machine i f ms).
Proof.
  intros HP Hf. apply List.Forall_forall. intros m' Hm'.
  apply update_machine_In in Hm' as (m & Hin & ->).
  rewrite List.Forall_forall in HP.
  destruct (Z.eqb_spec (Machine.id m) i); auto.
Qed.

(** A row property that [assign_fields] establishes and a pass preserves. *)
Lemma auto_assign_work_orders_all (P : Machine.t -> Prop) now faults st wos :
  all_machines P st ->
  (forall wo m, In wo wos -> P (assign_fields wo m)) ->
  all_machines P (auto_assign_work_orders now faults st wos).
Proof.
  intros HP Hassign.
  apply (auto_assign_work_orders_inv (all_machines P)); [assumption|].
  intros s wo f s' Hwo Hs Hc.
  apply assign_body_Commit in Hc as (sel & _ & _ & _ & _ & ->).
  unfold all_machines in *. simpl.
  apply Forall_update_machine; auto.
Qed.

(** A row property that one iteration of the meter loop preserves is
    preserved by a tick. *)
Lemma automatic_meter_counter_all (P : Machine.t -> Prop) now st :
  all_machines P st ->
  (forall m, In m (machines st) -> P m -> Machine.status m = running ->
     P (meter_machine now m)) ->
  all_machines P (automatic_meter_counter now st).
Proof.
  unfold all_machines. intros HP Hstep.
  rewrite automatic_meter_counter_machines.
  destruct (List.existsb _ _); [|assumption].
  rewrite List.Forall_forall in *. intros m' Hm'.
  apply List.in_map_iff in Hm' as (m & <- & Hin).
  unfold meter_step. destruct (Status_eqb _ _) eqn:E; auto.
  apply Status_eqb_eq in E. auto.
Qed.

(** The three shapes of a machine after one iteration of the meter loop. *)
Lemma meter_machine_cases now m :
  meter_machine now m = m
  \/ meter_machine now m = Machine.set_last_tick_time (Some now) m
  \/ (Machine.produced_qty m < Machine.target_qty m
      /\ (meter_machine now m =
            Machine.set_last_tick_time (Some now)
              (Machine.set_produced_qty (Machine.produced_qty m + 1) m)
          \/ meter_machine now m =
               update_machine_status now completed
                 (Machine.set_produced_qty (Machine.target_qty m)
                    (Machine.set_last_tick_time (Some now)
                       (Machine.set_produced_qty
                          (Machine.produced_qty m + 1) m))))).
Proof.
  destruct (meter_advances now m) eqn:E.
  - apply meter_advances_due in E. right. right.
    rewrite (meter_machine_due _ _ E).
    destruct E as (? & ? & _ & _ & _ & _ & _ & Hp). split; [assumption|].
    destruct (_ <=? _); auto.
  - destruct (meter_machine_not_due _ _ E) as [H|H]; auto.
Qed.

(** ** The quantity bound (C4) *)

(** The assignment copies [qty] and [produced_qty] of the work order as
    they are: a machine that satisfied the bound violates it after being
    assigned a work order whose source reports 12 produced of 10. *)
Lemma assignment_copies_overproduction :
  all_machines qty_bound st_one_free
  /\ ~ all_machines qty_bound (auto_assign 0 st_one_free [wo_overproduced]).
Proof.
  split.
  - repeat constructor. unfold qty_bound. simpl. lia.
  - intros H. apply List.Forall_inv in H. unfold qty_bound in H.
    simpl in H. lia.
Qed.

(** C4, amended. If every machine of the store has
    [produced_qty <= target_qty], then this still holds after an
    assignment pass whose work orders all have [produced_qty <= qty]
    (the assigned machine gets [target_qty = qty] and the work order's
    [produced_qty]), and after every tick of the meter counter. *)
Theorem qty_bound_preserved
    (now : Z) (faults : list (option Fault)) (st : Store)
    (wos : list WorkOrder.t) :
  all_machines qty_bound st ->
  (List.Forall (fun wo => WorkOrder.produced_qty wo <= WorkOrder.qty wo) wos ->
   all_machines qty_bound (auto_assign_work_orders now faults st wos))
  /\ all_machines qty_bound (automatic_meter_counter now st).
Proof.
  intros Hst. split.
  - intros Hwos. apply auto_assign_work_orders_all; [assumption|].
    intros wo m Hwo. rewrite List.Forall_forall in Hwos.
    unfold qty_bound. simpl. auto.
  - apply automatic_meter_counter_all; [assumption|].
    intros m _ Hm _. unfold qty_bound in *.
    destruct (meter_machine_cases now m) as [-> | [-> | [Hp [-> | ->]]]];
      simpl; lia.
Qed.

Lemma qty_bound_preserved_witness :
  all_machines qty_bound (auto_assign_work_orders 5 [] st_one_free [wo_fresh])
  /\ all_machines qty_bound (automatic_meter_counter 5 st_one_free).
Proof.
  destruct (qty_bound_preserved 5 [] st_one_free [wo_fresh]) as [H1 H2].
  - repeat constructor. unfold qty_bound. simpl. lia.
  - split; [apply H1|exact H2].
    repeat constructor. simpl. lia.
Defined.

(** ** The lock invariant (C7) *)

Lemma lock_inv_update_machine_status now new_status m :
  lock_inv m -> lock_inv (update_machine_status now new_status m).
Proof.
  unfold lock_inv. intros [H1 H2].
  destruct new_status; simpl; split; congruence.
Qed.

Lemma lock_inv_set_status_paused m : lock_inv (Machine.set_status paused m).
Proof. unfold lock_inv. simpl. split; discriminate. Qed.

Lemma lock_inv_assign_fields wo m : lock_inv (assign_fields wo m).
Proof. unfold lock_inv. simpl. split; discriminate. Qed.

Lemma lock_inv_meter_machine now m :
  lock_inv m -> lock_inv (meter_machine now m).
Proof.
  intros H.
  destruct (meter_machine_cases now m) as [-> | [-> | [_ [-> | ->]]]];
    try assumption; try (apply lock_inv_update_machine_status);
    destruct H as [H1 H2]; split; simpl; assumption.
Qed.

(** C7. In a store where every running machine is locked and every
    completed machine is unlocked, this is still so after an assignment
    pass, after starting, pausing or stopping a machine, and after a tick
    of the meter counter; the transition function preserves it on a row
    for every target status, locks on [running] and unlocks on
    [completed]. *)
Theorem lock_invariant_preserved (st : Store) :
  all_machines lock_inv st ->
  (forall now faults wos,
     all_machines lock_inv (auto_assign_work_orders now faults st wos))
  /\ (forall now location machine_id,
        all_machines lock_inv (fst (start_machine now location machine_id st)))
  /\ (forall location machine_id,
        all_machines lock_inv (fst (pause_machine location machine_id st)))
  /\ (forall now location machine_id,
        all_machines lock_inv (fst (stop_machine now location machine_id st)))
  /\ (forall now, all_machines lock_inv (automatic_meter_counter now st))
  /\ (forall now new_status m,
        lock_inv m -> lock_inv (update_machine_status now new_status m))
  /\ (forall now m,
        Machine.status (update_machine_status now running m) = running
        /\ Machine.is_locked (update_machine_status now running m) = true)
  /\ (forall now m,
        Machine.status (update_machine_status now completed m) = completed
        /\ Machine.is_locked (update_machine_status now completed m) = false).
Proof.
  intros Hst. repeat split.
  - intros. apply auto_assign_work_orders_all; [assumption|].
    intros. apply lock_inv_assign_fields.
  - intros. unfold start_machine.
    destruct (get_machine _ _ _) as [m|]; [|assumption].
    destruct (negb _); [assumption|]. unfold all_machines in *. simpl.
    apply Forall_update_machine; [assumption|]. intros x Hx _.
    apply lock_inv_update_machine_status.
    rewrite List.Forall_forall in Hst. auto.
  - intros. unfold pause_machine.
    destruct (get_machine _ _ _) as [m|]; [|assumption].
    unfold all_machines in *. simpl.
    apply Forall_update_machine; [assumption|]. intros x _ _.
    apply lock_inv_set_status_paused.
  - intros. unfold stop_machine.
    destruct (get_machine _ _ _) as [m|]; [|assumption].
    unfold all_machines in *. simpl.
    apply Forall_update_machine; [assumption|]. intros x Hx _.
    apply lock_inv_update_machine_status.
    rewrite List.Forall_forall in Hst. auto.
  - intros. apply automatic_meter_counter_all; [assumption|].
    intros m _ Hm _. now apply lock_inv_meter_machine.
  - apply lock_inv_update_machine_status; assumption.
  - apply lock_inv_update_machine_status; assumption.
Qed.

Lemma lock_invariant_preserved_witness :
  all_machines lock_inv (auto_assign_work_orders 5 [] st_last_unit [wo_fresh])
  /\ all_machines lock_inv (fst (pause_machine "Modan" 1 st_last_unit))
  /\ all_machines lock_inv (automatic_meter_counter 30 st_last_unit).
Proof.
  assert (H : all_machines lock_inv st_last_unit).
  { repeat constructor; simpl; discriminate. }
  destruct (lock_invariant_preserved st_last_unit H)
    as (H1 & _ & H3 & _ & H5 & _).
  split; [apply H1|split; [apply H3|apply H5]].
Defined.

(** ** The alert loop *)

Lemma alerts_body_unwatched m st :
  truthy (Machine.work_order m) && Status_eqb (Machine.status m) running = false ->
  alerts_body m st = st.
Proof.
  intros H. unfold alerts_body. destruct st as [h s].
  apply Bool.andb_false_iff in H as [-> | ->]; simpl;
    rewrite ?Bool.orb_true_r; reflexivity.
Qed.

Lemma alerts_body_sent m h s :
  snd (alerts_body m (h, s)) =
  s ++ (if truthy (Machine.work_order m)
           && Status_eqb (Machine.status m) running
           && (0 <? level_of m)
           && negb (level_of m =? last_level h (Machine.id m))
        then [alert_of m] else []).
Proof.
  unfold alerts_body, level_of, alert_of.
  destruct (truthy _); simpl; [|now rewrite List.app_nil_r].
  destruct (Status_eqb _ _); simpl; [|now rewrite List.app_nil_r].
  destruct (_ && _)%bool; simpl; [reflexivity|].
  destruct (Qlt_bool _ _); simpl; now rewrite List.app_nil_r.
Qed.

Lemma alerts_body_history_other m h s i :
  i <> Machine.id m -> fst (alerts_body m (h, s)) !! i = h !! i.
Proof.
  intros Hne. unfold alerts_body.
  destruct (negb _ || negb _)%bool; simpl; [reflexivity|].
  destruct (_ && _)%bool; simpl; [now rewrite lookup_insert_ne|].
  destruct (Qlt_bool _ _); simpl; [now rewrite lookup_insert_ne|reflexivity].
Qed.

Lemma alerts_body_history_indep m h s s' :
  fst (alerts_body m (h, s)) = fst (alerts_body m (h, s')).
Proof.
  unfold alerts_body.
  destruct (negb _ || negb _)%bool; simpl; [reflexivity|].
  destruct (_ && _)%bool; simpl; [reflexivity|].
  destruct (Qlt_bool _ _); reflexivity.
Qed.

Lemma emits_history_agree h h' m :
  h' !! Machine.id m = h !! Machine.id m -> emits h' m = emits h m.
Proof. unfold emits, last_level. now intros ->. Qed.

(** The alerts of one pass over machines with distinct ids, and the
    history it leaves: the rows are independent of one another. *)
Lemma alerts_fold_spec ms h s :
  List.NoDup (List.map Machine.id ms) ->
  let r := List.fold_left (fun st m => alerts_body m st)
             (List.filter (fun m => 0 <? Machine.target_qty m) ms) (h, s) in
  snd r = s ++ List.map alert_of (List.filter (emits h) ms)
  /\ (forall i, ~ In i (List.map Machine.id ms) -> fst r !! i = h !! i)
  /\ (forall m, In m ms ->
        fst r !! Machine.id m =
        (if 0 <? Machine.target_qty m then fst (alerts_body m (h, []))
         else h) !! Machine.id m).
Proof.
  revert h s. induction ms as [|a ms IH]; intros h s Hnd; cbv zeta.
  - simpl. rewrite List.app_nil_r. repeat split; auto. intros m [].
  - inversion Hnd as [|? ? Ha Hnd']; subst. cbn [List.filter].
    set (h1 := if 0 <? Machine.target_qty a then fst (alerts_body a (h, []))
               else h).
    set (s1 := if 0 <? Machine.target_qty a then snd (alerts_body a (h, s))
               else s).
    assert (Hfold :
      List.fold_left (fun st m => alerts_body m st)
        (if 0 <? Machine.target_qty a
         then a :: List.filter (fun m => 0 <? Machine.target_qty m) ms
         else List.filter (fun m => 0 <? Machine.target_qty m) ms) (h, s)
      = List.fold_left (fun st m => alerts_body m st)
          (List.filter (fun m => 0 <? Machine.target_qty m) ms) (h1, s1)).
    { unfold h1, s1. destruct (0 <? Machine.target_qty a); [|reflexivity].
      cbn [List.fold_left].
      rewrite (alerts_body_history_indep a h [] s).
      now rewrite <- surjective_pairing. }
    assert (Hh1 : forall i, i <> Machine.id a -> h1 !! i = h !! i).
    { intros i Hi. unfold h1. destruct (0 <? _); [|reflexivity].
      now apply alerts_body_history_other. }
    destruct (IH h1 s1 Hnd') as (IH1 & IH2 & IH3).
    assert (Hfilter : List.filter (emits h1) ms = List.filter (emits h) ms).
    { apply List.filter_ext_in. intros m Hm. apply emits_history_agree.
      apply Hh1. intros E. apply Ha. rewrite <- E. now apply List.in_map. }
    rewrite Hfold. split; [|split].
    + rewrite IH1, Hfilter. unfold s1, emits at 2, watched.
      destruct (0 <? Machine.target_qty a); cbn [andb].
      * rewrite alerts_body_sent.
        destruct (_ && _ && _ && _)%bool; cbn [List.map];
          now rewrite <- ?List.app_assoc, ?List.app_nil_r.
      * reflexivity.
    + intros i Hi. simpl in Hi. rewrite IH2 by tauto.
      apply Hh1. intros E. apply Hi. left. congruence.
    + intros m [<- | Hm].
      * rewrite IH2 by assumption. reflexivity.
      * rewrite IH3 by assumption.
        assert (Hne : Machine.id m <> Machine.id a).
        { intros E. apply Ha. rewrite <- E. now apply List.in_map. }
        destruct (0 <? Machine.target_qty m); [|now apply Hh1].
        unfold alerts_body, last_level. rewrite (Hh1 _ Hne).
        destruct (negb _ || negb _)%bool; simpl; [now apply Hh1|].
        destruct (_ && _)%bool; simpl;
          [now rewrite !lookup_insert_eq|].
        destruct (Qlt_bool _ _); simpl;
          [now rewrite !lookup_insert_eq|now apply Hh1].
Qed.

Lemma production_alerts_sent ms h :
  List.NoDup (List.map Machine.id ms) ->
  snd (production_alerts ms h) = List.map alert_of (List.filter (emits h) ms).
Proof.
  intros Hnd. unfold production_alerts.
  destruct (alerts_fold_spec ms h [] Hnd) as (H & _). exact H.
Qed.

Lemma Qle_bool_false x y : Qle_bool x y = false <-> (y < x)%Q.
Proof.
  split; intros H.
  - destruct (Qlt_le_dec y x) as [L|L]; [assumption|].
    apply Qle_bool_iff in L. congruence.
  - destruct (Qle_bool x y) eqn:E; [|reflexivity].
    apply Qle_bool_iff in E. exfalso. exact (Qlt_not_le _ _ H E).
Qed.

(** The four levels and their thresholds. *)
Lemma alert_level_spec (p : Q) :
  (alert_level p = 3 <-> (inject_Z 100 <= p)%Q)
  /\ (alert_level p = 2 <-> (inject_Z 90 <= p)%Q /\ (p < inject_Z 100)%Q)
  /\ (alert_level p = 1 <-> (inject_Z 75 <= p)%Q /\ (p < inject_Z 90)%Q)
  /\ (alert_level p = 0 <-> (p < inject_Z 75)%Q).
Proof.
  unfold alert_level.
  destruct (Qle_bool (inject_Z 100) p) eqn:E3;
    [apply Qle_bool_iff in E3 | apply Qle_bool_false in E3];
  (destruct (Qle_bool (inject_Z 90) p) eqn:E2;
    [apply Qle_bool_iff in E2 | apply Qle_bool_false in E2]);
  (destruct (Qle_bool (inject_Z 75) p) eqn:E1;
    [apply Qle_bool_iff in E1 | apply Qle_bool_false in E1]);
  unfold inject_Z in *;
  repeat split; intros; try discriminate; try lra.
Qed.

Lemma alert_level_range p : 0 <= alert_level p <= 3.
Proof.
  unfold alert_level.
  repeat match goal with |- context [if ?b then _ else _] => destruct b end;
    lia.
Qed.

(** ** Alerts on level changes (C3) *)

(** After an alert at 95 % recorded level 2, a reading of 80 % of the same
    machine is broadcast as a level 1 alert: the level went down. *)
Lemma alert_on_lower_level :
  last_level (fst (production_alerts [m_at 95] ∅)) 1 = 2
  /\ snd (production_alerts [m_at 80] (fst (production_alerts [m_at 95] ∅)))
     = [mkAlert 1 1]
  /\ snd (alerts_loop [[m_at 95]; [m_at 80]] ∅) = [mkAlert 1 2; mkAlert 1 1]
  /\ ~ alerts_only_upward.
Proof.
  split; [vm_compute; reflexivity|]. split; [vm_compute; reflexivity|].
  split; [vm_compute; reflexivity|].
  intros H.
  specialize (H (m_at 80) (fst (production_alerts [m_at 95] ∅)) (mkAlert 1 1)).
  assert (Hin : In (mkAlert 1 1)
            (snd (production_alerts [m_at 80]
                    (fst (production_alerts [m_at 95] ∅))))).
  { vm_compute. left. reflexivity. }
  specialize (H Hin). vm_compute in H. discriminate.
Qed.

(** One pass over one reading. *)
Lemma reading_step m h :
  production_alerts [m] h =
  if emits h m then (<[Machine.id m := level_of m]> h, [alert_of m])
  else if watched m && Qlt_bool (percent m) (inject_Z 75)
       then (<[Machine.id m := 0]> h, [])
       else (h, []).
Proof.
  unfold production_alerts, emits, watched, alerts_body, level_of, alert_of.
  cbn [List.filter].
  destruct (0 <? Machine.target_qty m); cbn [List.fold_left andb];
    [|reflexivity].
  destruct (truthy (Machine.work_order m)); cbn [negb orb andb];
    [|reflexivity].
  destruct (Status_eqb (Machine.status m) running); cbn [negb orb andb];
    [|reflexivity].
  destruct ((0 <? alert_level (percent m))
            && negb (alert_level (percent m)
                     =? last_level h (Machine.id m)))%bool; reflexivity.
Qed.

Lemma recorded_after_reading m h :
  last_level (fst (production_alerts [m] h)) (Machine.id m)
  = recorded_after h m.
Proof.
  rewrite reading_step. unfold recorded_after, last_level.
  destruct (emits h m); [simpl; now rewrite lookup_insert_eq|].
  destruct (watched m && Qlt_bool (percent m) (inject_Z 75))%bool;
    [simpl; now rewrite lookup_insert_eq|reflexivity].
Qed.

(** What a pass over machines with distinct ids records for each. *)
Lemma recorded_after_pass ms h m :
  List.NoDup (List.map Machine.id ms) -> In m ms ->
  last_level (fst (production_alerts ms h)) (Machine.id m)
  = recorded_after h m.
Proof.
  intros Hnd Hin. rewrite <- recorded_after_reading.
  unfold last_level, production_alerts at 1.
  destruct (alerts_fold_spec ms h [] Hnd) as (_ & _ & H3).
  rewrite (H3 m Hin). unfold production_alerts. cbn [List.filter].
  destruct (0 <? Machine.target_qty m); reflexivity.
Qed.

Lemma alerts_loop_app l1 l2 h :
  alerts_loop (l1 ++ l2) h
  = (fst (alerts_loop l2 (fst (alerts_loop l1 h))),
     snd (alerts_loop l1 h) ++ snd (alerts_loop l2 (fst (alerts_loop l1 h)))).
Proof.
  revert h. induction l1 as [|ms l1 IH]; intros h; simpl.
  - now destruct (alerts_loop l2 h).
  - destruct (production_alerts ms h) as [h1 s1]. rewrite IH.
    destruct (alerts_loop l1 h1) as [h2 s2]. simpl.
    now rewrite List.app_assoc.
Qed.

Lemma alerts_loop_cons ms later h :
  alerts_loop (ms :: later) h
  = (fst (alerts_loop later (fst (production_alerts ms h))),
     snd (production_alerts ms h)
     ++ snd (alerts_loop later (fst (production_alerts ms h)))).
Proof.
  simpl. destruct (production_alerts ms h) as [h1 s1]. simpl.
  now destruct (alerts_loop later h1).
Qed.

(** Successive readings of one machine, none of which resets the
    recorded level: every alert has a level other than 0 and other than
    the level of the alert before it, the first one other than the level
    recorded at the start. *)
Lemma alerts_of_readings_differ i rs h :
  List.Forall (fun m => Machine.id m = i /\ ~ resets m) rs ->
  Sorted (fun a b => alert_level_of a <> alert_level_of b)
    (mkAlert i (last_level h i) :: snd (alerts_loop (readings rs) h))
  /\ List.Forall (fun a => alert_machine_id a = i /\ 0 < alert_level_of a)
       (snd (alerts_loop (readings rs) h)).
Proof.
  revert h. induction rs as [|m rs IH]; intros h Hall.
  - simpl. split; repeat constructor.
  - inversion Hall as [|? ? (Hid & Hres) Hall']; subst.
    unfold readings. cbn [List.map]. fold (readings rs).
    rewrite alerts_loop_cons, reading_step.
    destruct (emits h m) eqn:Em.
    + cbn [fst snd List.app].
      destruct (IH (<[Machine.id m := level_of m]> h) Hall') as [IH1 IH2].
      unfold last_level in IH1 at 1. rewrite lookup_insert_eq in IH1.
      cbn [default] in IH1.
      unfold emits in Em. apply Bool.andb_true_iff in Em as [Em Hne].
      apply Bool.andb_true_iff in Em as [_ Hpos].
      apply Z.ltb_lt in Hpos. apply Bool.negb_true_iff in Hne.
      apply Z.eqb_neq in Hne.
      split.
      * constructor; [exact IH1|]. constructor. simpl. congruence.
      * constructor; [simpl; auto|exact IH2].
    + assert (Hw : (watched m && Qlt_bool (percent m) (inject_Z 75))%bool
                   = false).
      { destruct (watched m) eqn:W; [|reflexivity]. simpl.
        destruct (Qlt_bool (percent m) (inject_Z 75)) eqn:Q; [|reflexivity].
        exfalso. apply Hres. split; [assumption|].
        unfold Qlt_bool in Q. apply Bool.negb_true_iff in Q.
        now apply Qle_bool_false in Q. }
      rewrite Hw. cbn [fst snd List.app]. apply IH. assumption.
Qed.

(** C3, amended. Take any sequence of passes of the alert loop and any
    pass in it over machines with distinct ids; let the recorded levels be
    those left by the passes before it. The pass broadcasts an alert for
    exactly the machines with a positive target, a work order and status
    running whose computed level is not 0 and differs from the recorded
    level: none when the level is 0 or equal to the recorded one, one when
    it is higher, and one when it is lower but not 0. For each machine it
    records the level of the alert it sent, or 0 when it looked at the
    machine below 75 %, and otherwise keeps what was recorded; machines
    not in the pass keep theirs. So over the successive readings of one
    machine with no reset in between, no alert has the level of the alert
    before it. The levels are 3 from 100 %, 2 from 90 %, 1 from 75 %,
    else 0. *)
Theorem alert_iff_level_changes
    (before after : list (list Machine.t)) (ms : list Machine.t)
    (h : gmap Z Z) :
  List.NoDup (List.map Machine.id ms) ->
  let recorded := fst (alerts_loop before h) in
  let pass := production_alerts ms recorded in
  snd (alerts_loop (before ++ ms :: after) h)
    = snd (alerts_loop before h) ++ snd pass
      ++ snd (alerts_loop after (fst pass))
  /\ (forall a,
        In a (snd pass) <->
        exists m, In m ms /\ watched m = true /\ a = alert_of m
                  /\ 0 < level_of m
                  /\ level_of m <> last_level recorded (Machine.id m))
  /\ (forall m, In m ms ->
        last_level (fst pass) (Machine.id m) = recorded_after recorded m)
  /\ (forall i, ~ In i (List.map Machine.id ms) ->
        fst pass !! i = recorded !! i)
  /\ (forall i rs h0,
        List.Forall (fun m => Machine.id m = i /\ ~ resets m) rs ->
        Sorted (fun a b => alert_level_of a <> alert_level_of b)
          (mkAlert i (last_level h0 i) :: snd (alerts_loop (readings rs) h0))
        /\ List.Forall
             (fun a => alert_machine_id a = i /\ 0 < alert_level_of a)
             (snd (alerts_loop (readings rs) h0)))
  /\ (forall p,
        (alert_level p = 3 <-> (inject_Z 100 <= p)%Q)
        /\ (alert_level p = 2 <-> (inject_Z 90 <= p)%Q /\ (p < inject_Z 100)%Q)
        /\ (alert_level p = 1 <-> (inject_Z 75 <= p)%Q /\ (p < inject_Z 90)%Q)
        /\ (alert_level p = 0 <-> (p < inject_Z 75)%Q)).
Proof.
  intros Hnd recorded pass.
  split; [|split; [|split; [|split; [|split]]]].
  - rewrite alerts_loop_app, alerts_loop_cons. reflexivity.
  - intros a. unfold pass.
    rewrite (production_alerts_sent ms recorded Hnd), List.in_map_iff.
    split.
    + intros (m & <- & Hm). apply List.filter_In in Hm as [Hin He].
      unfold emits in He.
      apply Bool.andb_true_iff in He as [He Hne].
      apply Bool.andb_true_iff in He as [Hw Hpos].
      exists m. repeat split; auto.
      * now apply Z.ltb_lt.
      * apply Bool.negb_true_iff in Hne. now apply Z.eqb_neq.
    + intros (m & Hin & Hw & -> & Hpos & Hne).
      exists m. split; [reflexivity|]. apply List.filter_In.
      split; [assumption|].
      unfold emits. rewrite Hw. simpl.
      apply Z.ltb_lt in Hpos. apply Z.eqb_neq in Hne. now rewrite Hpos, Hne.
  - intros m Hin. now apply recorded_after_pass.
  - intros i Hi. unfold pass, production_alerts.
    destruct (alerts_fold_spec ms recorded [] Hnd) as (_ & H2 & _).
    now apply H2.
  - intros i rs h0. apply alerts_of_readings_differ.
  - exact alert_level_spec.
Qed.

(** After the readings 70, 80 and 95, the reading 92 finds level 2
    recorded and is not alerted; the reading 80 after 95 is. *)
Lemma alert_iff_level_changes_witness :
  last_level
    (fst (production_alerts [m_at 95]
            (fst (alerts_loop [[m_at 70]; [m_at 80]] ∅)))) 1 = 2
  /\ snd (alerts_loop [[m_at 70]; [m_at 80]; [m_at 95]; [m_at 92]] ∅)
     = [mkAlert 1 1; mkAlert 1 2]
  /\ In (mkAlert 1 1)
       (snd (production_alerts [m_at 80]
               (fst (alerts_loop [[m_at 95]] ∅)))).
Proof.
  assert (Hnd : forall p, List.NoDup (List.map Machine.id [m_at p])).
  { intros p. repeat constructor. simpl. tauto. }
  destruct (alert_iff_level_changes [[m_at 70]; [m_at 80]] [[m_at 92]]
              [m_at 95] ∅ (Hnd 95)) as (H1 & _ & H3 & _).
  destruct (alert_iff_level_changes [[m_at 95]] [] [m_at 80] ∅ (Hnd 80))
    as (_ & H2 & _).
  split; [|split].
  - etransitivity; [exact (H3 (m_at 95) (or_introl eq_refl))|reflexivity].
  - etransitivity; [exact H1|]. reflexivity.
  - apply H2. exists (m_at 80). split; [left; reflexivity|].
    split; [reflexivity|]. split; [reflexivity|].
    split; [reflexivity|]. vm_compute. discriminate.
Defined.

(** ** Reset of the recorded level (C8) *)

Lemma level_of_zero m :
  (percent m < inject_Z 75)%Q -> level_of m = 0.
Proof. intros H. now apply alert_level_spec. Qed.

Lemma level_of_pos m :
  (inject_Z 75 <= percent m)%Q -> 0 < level_of m.
Proof.
  intros H. pose proof (alert_level_range (percent m)) as Hr.
  destruct (Z.eq_dec (level_of m) 0) as [E|E]; [|unfold level_of in *; lia].
  apply alert_level_spec in E. exfalso. exact (Qlt_not_le _ _ E H).
Qed.

(** Machine 1 was alerted at 80 % of [WO1] (level 1 recorded), finished
    it, was paused and assigned [WO4]: it is paused at 0 of 4, the pass
    skips it and level 1 stays recorded. Started, it is at 3 of 4 when the
    loop next reads it: 75 % is level 1 again, and no alert is sent. *)
Lemma paused_machine_keeps_recorded_level :
  machines (run_ops [OpTick 30; OpPause "Modan" 1; OpAssign 40 [] [wo_four]]
              (mkStore [m_at 99] [] []))
  = [m_reassigned]
  /\ machines (run_ops [OpTick 30; OpPause "Modan" 1;
                        OpAssign 40 [] [wo_four]; OpStart 50 "Modan" 1;
                        OpTick 70; OpTick 90; OpTick 110]
                 (mkStore [m_at 99] [] []))
     = [m_three_of_four]
  /\ last_level (fst (production_alerts [m_at 80] ∅)) 1 = 1
  /\ (0 < Machine.target_qty m_reassigned
      /\ (percent m_reassigned < inject_Z 75)%Q)
  /\ last_level (fst (alerts_loop [[m_at 80]; [m_reassigned]] ∅)) 1 = 1
  /\ (watched m_three_of_four = true /\ level_of m_three_of_four = 1)
  /\ snd (alerts_loop [[m_at 80]; [m_reassigned]; [m_three_of_four]] ∅)
     = [mkAlert 1 1]
  /\ ~ reset_whenever_below_75.
Proof.
  split; [vm_compute; reflexivity|]. split; [vm_compute; reflexivity|].
  split; [vm_compute; reflexivity|].
  split; [split; vm_compute; reflexivity|].
  split; [vm_compute; reflexivity|].
  split; [split; vm_compute; reflexivity|].
  split; [vm_compute; reflexivity|].
  intros H.
  specialize (H [m_reassigned] (fst (production_alerts [m_at 80] ∅))
                m_reassigned).
  assert (Hnd : List.NoDup (List.map Machine.id [m_reassigned])).
  { repeat constructor. simpl. tauto. }
  specialize (H Hnd (or_introl eq_refl) eq_refl eq_refl).
  vm_compute in H. discriminate.
Qed.

(** C8, amended. In a pass of the alert loop over machines with distinct
    ids, a machine that the loop looks at (positive target, work order,
    running) and reads below 75 % gets level 0 recorded and no alert, and
    in the next pass a reading of that machine at 75 % or more is
    broadcast as an alert of its level. A machine the loop does not look
    at (paused, stopped, completed or free, or without a work order, as
    right after a reassignment) keeps the level recorded for it, whatever
    its percentage. *)
Theorem alert_history_reset_below_75 (ms : list Machine.t) (h : gmap Z Z) :
  List.NoDup (List.map Machine.id ms) ->
  let h' := fst (production_alerts ms h) in
  (forall m,
     In m ms -> watched m = true -> (percent m < inject_Z 75)%Q ->
     h' !! Machine.id m = Some 0
     /\ last_level h' (Machine.id m) = 0
     /\ ~ In (alert_of m) (snd (production_alerts ms h))
     /\ (forall ms2 m2,
           List.NoDup (List.map Machine.id ms2) -> In m2 ms2 ->
           Machine.id m2 = Machine.id m ->
           watched m2 = true ->
           (inject_Z 75 <= percent m2)%Q ->
           0 < level_of m2
           /\ In (alert_of m2) (snd (production_alerts ms2 h'))))
  /\ (forall m,
        In m ms -> watched m = false ->
        h' !! Machine.id m = h !! Machine.id m).
Proof.
  intros Hnd h'. split.
  - intros m Hin Hw Hp.
    assert (Hlook : h' !! Machine.id m = Some 0).
    { unfold h', production_alerts.
      destruct (alerts_fold_spec ms h [] Hnd) as (_ & _ & H3).
      rewrite (H3 m Hin).
      unfold watched in Hw. apply Bool.andb_true_iff in Hw as [Hw Hr].
      apply Bool.andb_true_iff in Hw as [Ht Hwo].
      rewrite Ht. unfold alerts_body. rewrite Hwo, Hr. simpl.
      fold (level_of m). rewrite (level_of_zero m Hp). simpl.
      unfold Qlt_bool. apply Qle_bool_false in Hp. rewrite Hp. simpl.
      apply lookup_insert_eq. }
    split; [exact Hlook|]. split; [unfold last_level; now rewrite Hlook|].
    split.
    + rewrite (production_alerts_sent ms h Hnd), List.in_map_iff.
      intros (x & Hx & Hfx). apply List.filter_In in Hfx as [_ He].
      unfold emits in He.
      apply Bool.andb_true_iff in He as [He _].
      apply Bool.andb_true_iff in He as [_ Hpos].
      apply Z.ltb_lt in Hpos.
      assert (E : level_of x = level_of m)
        by (unfold alert_of in Hx; congruence).
      rewrite E, (level_of_zero m Hp) in Hpos. lia.
    + intros ms2 m2 Hnd2 Hin2 Hid Hw2 Hp2.
      pose proof (level_of_pos m2 Hp2) as Hpos. split; [assumption|].
      rewrite (production_alerts_sent ms2 h' Hnd2). apply List.in_map.
      apply List.filter_In. split; [assumption|].
      unfold emits, last_level. rewrite Hw2, Hid, Hlook. simpl.
      apply Bool.andb_true_iff. split; [now apply Z.ltb_lt|].
      apply Bool.negb_true_iff. apply Z.eqb_neq. lia.
  - intros m Hin Hw. unfold h', production_alerts.
    destruct (alerts_fold_spec ms h [] Hnd) as (_ & _ & H3).
    rewrite (H3 m Hin).
    destruct (0 <? Machine.target_qty m) eqn:Ht; [|reflexivity].
    rewrite alerts_body_unwatched; [reflexivity|].
    unfold watched in Hw. rewrite Ht in Hw. exact Hw.
Qed.

Lemma alert_history_reset_below_75_witness :
  fst (production_alerts [m_at 10] (fst (production_alerts [m_at 95] ∅)))
    !! 1 = Some 0
  /\ In (alert_of (m_at 80))
       (snd (production_alerts [m_at 80]
          (fst (production_alerts [m_at 10]
                  (fst (production_alerts [m_at 95] ∅))))))
  /\ fst (production_alerts [m_reassigned]
            (fst (production_alerts [m_at 80] ∅))) !! 1
     = fst (production_alerts [m_at 80] ∅) !! 1.
Proof.
  assert (Hnd : forall m, List.NoDup (List.map Machine.id [m])).
  { intros m. repeat constructor. simpl. tauto. }
  destruct (alert_history_reset_below_75 [m_at 10]
              (fst (production_alerts [m_at 95] ∅)) (Hnd (m_at 10)))
    as (Hreset & _).
  destruct (alert_history_reset_below_75 [m_reassigned]
              (fst (production_alerts [m_at 80] ∅)) (Hnd m_reassigned))
    as (_ & Hskip).
  destruct (Hreset (m_at 10) (or_introl eq_refl) eq_refl eq_refl)
    as (H1 & _ & _ & H4).
  pose proof (Hskip m_reassigned (or_introl eq_refl) eq_refl) as H5.
  split; [exact H1|]. split; [|exact H5].
  apply (H4 [m_at 80] (m_at 80) (Hnd (m_at 80))).
  - left. reflexivity.
  - reflexivity.
  - reflexivity.
  - unfold Qle. simpl. lia.
Defined.

(** ** Commits and faults of the assignment pass (C9) *)

Lemma assign_body_no_fault now st wo s :
  assign_body now None st wo <> Raise s.
Proof.
  unfold assign_body, fails.
  repeat case_branch; discriminate.
Qed.

(** The work orders processed before the first fault are processed as in
    a pass without faults. *)
Lemma auto_assign_work_orders_app now pre rest faults st :
  auto_assign_work_orders now
    (List.repeat None (length pre) ++ faults) st (pre ++ rest) =
  auto_assign_work_orders now faults (auto_assign now st pre) rest.
Proof.
  unfold auto_assign. revert st.
  induction pre as [|wo pre IH]; intros st; simpl; [reflexivity|].
  pose proof (assign_body_no_fault now st wo) as Hnf.
  destruct (assign_body now None st wo) as [|s'|s'];
    [apply IH | apply IH | exfalso; exact (Hnf s' eq_refl)].
Qed.

(** Whatever the faults, the committed store is the result of a pass
    without faults over a prefix of the work orders. *)
Lemma auto_assign_work_orders_prefix now faults st wos :
  exists k, auto_assign_work_orders now faults st wos =
            auto_assign now st (List.firstn k wos).
Proof.
  unfold auto_assign. revert faults st.
  induction wos as [|wo wos IH]; intros faults st.
  - exists 0%nat. reflexivity.
  - simpl.
    destruct (assign_body now (List.hd None faults) st wo) as [|s'|s'] eqn:E.
    + destruct (IH (List.tl faults) st) as [k Hk]. exists (S k). simpl.
      assert (E0 : assign_body now None st wo = Continue).
      { revert E. unfold assign_body, fails.
        destruct (List.hd None faults) as [f|]; [|auto].
        repeat case_branch; auto; discriminate. }
      rewrite E0. exact Hk.
    + destruct (IH (List.tl faults) s') as [k Hk]. exists (S k). simpl.
      assert (E0 : assign_body now None st wo = Commit s').
      { revert E. unfold assign_body, fails.
        destruct (List.hd None faults) as [f|]; [|auto].
        repeat case_branch; auto; discriminate. }
      rewrite E0. exact Hk.
    + exists 0%nat. reflexivity.
Qed.

(** C9. If the store raises while the pass processes work order [wo],
    after the work orders [pre] were processed without fault, then the
    pass returns with the store as committed after [pre]: every assignment
    of [pre] is kept, the uncommitted changes for [wo] are dropped, and
    the work orders after [wo] are not processed in this pass. The sync
    loop goes on with its next round from that store. *)
Theorem failed_assignment_rolls_back_alone
    (now : Z) (st partial : Store) (pre post : list WorkOrder.t)
    (wo : WorkOrder.t) (f : Fault) (later : list (option Fault)) :
  assign_body now (Some f) (auto_assign now st pre) wo = Raise partial ->
  let faults := List.repeat None (length pre) ++ Some f :: later in
  auto_assign_work_orders now faults st (pre ++ wo :: post)
    = auto_assign now st pre
  /\ (forall rounds,
        erpnext_sync_loop (mkRound now faults (pre ++ wo :: post) :: rounds) st
        = erpnext_sync_loop rounds (auto_assign now st pre)).
Proof.
  intros Hraise faults.
  assert (H : auto_assign_work_orders now faults st (pre ++ wo :: post)
              = auto_assign now st pre).
  { unfold faults. rewrite auto_assign_work_orders_app. simpl.
    now rewrite Hraise. }
  split; [exact H|]. intros rounds. simpl. now rewrite H.
Qed.

(** A failed commit of the second work order: the first assignment stays,
    the second machine is as before. *)
Lemma failed_assignment_rolls_back_alone_witness :
  auto_assign_work_orders 5 [None; Some FailCommit] st_two_free
    [wo_fresh; wo_second; wo_overproduced]
  = auto_assign 5 st_two_free [wo_fresh]
  /\ List.map Machine.work_order
       (machines (auto_assign_work_orders 5 [None; Some FailCommit] st_two_free
                    [wo_fresh; wo_second; wo_overproduced]))
     = [Some "WO1"; None].
Proof.
  destruct (failed_assignment_rolls_back_alone 5 st_two_free
              (mkStore
                 (update_machine 2 (assign_fields wo_second)
                    (machines (auto_assign 5 st_two_free [wo_fresh])))
                 (upsert_meta 5 "WO2" 2
                    (metadata (auto_assign 5 st_two_free [wo_fresh])))
                 [])
              [wo_fresh] [wo_overproduced] wo_second FailCommit [] eq_refl)
    as [H _].
  split; [exact H|reflexivity].
Defined.

(** ** Idempotence of the assignment pass (C2) *)

(** Machine 1 carries [WO1] and is selectable. The first pass skips [WO1]
    and gives machine 1 to [WO2]; the second pass then finds no machine
    for [WO1] and assigns it to machine 2. *)
Lemma second_pass_assigns_again :
  List.map Machine.work_order
    (machines (auto_assign 20 st_stale_carrier [wo_fresh; wo_second]))
  = [Some "WO2"; None]
  /\ List.map Machine.work_order
       (machines (auto_assign 30
                    (auto_assign 20 st_stale_carrier [wo_fresh; wo_second])
                    [wo_fresh; wo_second]))
     = [Some "WO2"; Some "WO1"]
  /\ auto_assign 30 (auto_assign 20 st_stale_carrier [wo_fresh; wo_second])
       [wo_fresh; wo_second]
     <> auto_assign 20 st_stale_carrier [wo_fresh; wo_second].
Proof.
  split; [reflexivity|]. split; [reflexivity|].
  intros H. apply (f_equal (fun s => List.map Machine.work_order (machines s))) in H.
  vm_compute in H. discriminate.
Qed.

Lemma is_free_at_eligible location m :
  is_free_at location m = true -> eligible m = true.
Proof.
  unfold is_free_at, eligible. rewrite !Bool.andb_true_iff. tauto.
Qed.

Lemma selected_machine_In l size sel :
  selected_machine l size = Some sel -> In sel l.
Proof.
  unfold selected_machine.
  destruct (List.find _ l) as [x|] eqn:E.
  - intros [= <-]. now apply List.find_some in E.
  - destruct l; simpl; [discriminate|]. intros [= <-]. now left.
Qed.

Lemma selected_machine_None l size :
  selected_machine l size = None -> l = [].
Proof.
  unfold selected_machine. destruct (List.find _ l); [discriminate|].
  destruct l; [reflexivity|discriminate].
Qed.

Lemma filter_nil_iff {A : Type} (p : A -> bool) l :
  List.filter p l = [] <-> (forall x, In x l -> p x = false).
Proof.
  induction l as [|a l IH]; simpl; [tauto|].
  destruct (p a) eqn:E.
  - split; [discriminate|]. intros H. specialize (H a (or_introl eq_refl)).
    congruence.
  - rewrite IH. split; [intros H x [<-|Hx]; auto|auto].
Qed.

Lemma unique_id_eq (l : list Machine.t) x y :
  List.NoDup (List.map Machine.id l) -> In x l -> In y l ->
  Machine.id x = Machine.id y -> x = y.
Proof.
  induction l as [|a l IH]; simpl; [tauto|].
  intros Hnd Hx Hy E. inversion Hnd as [|? ? Ha Hnd']; subst.
  destruct Hx as [<-|Hx], Hy as [<-|Hy]; auto.
  - exfalso. apply Ha. rewrite E. now apply List.in_map.
  - exfalso. apply Ha. rewrite <- E. now apply List.in_map.
Qed.

Lemma update_machine_ids i wo ms :
  List.map Machine.id (update_machine i (assign_fields wo) ms) =
  List.map Machine.id ms.
Proof.
  unfold update_machine. rewrite List.map_map. apply List.map_ext.
  intros m. destruct (_ =? _); reflexivity.
Qed.

(** An iteration that does not commit, and the store of one that does. *)
Lemma settled_no_commit now fault st wo s' :
  settled st wo -> assign_body now fault st wo <> Commit s'.
Proof.
  intros Hs Hc. apply assign_body_Commit in Hc
    as (sel & H1 & H2 & H3 & H4 & _).
  destruct Hs as [Hs | [Hs | [(m & Hin & Hm) | Hs]]]; try congruence.
  - unfold existing in H3. rewrite find_none_iff in H3.
    specialize (H3 m Hin). rewrite Hm, opt_eqb_refl in H3. discriminate.
  - rewrite Hs in H4. discriminate.
Qed.

Lemma continue_settled now st wo :
  assign_body now None st wo = Continue -> settled st wo.
Proof.
  unfold assign_body, settled, fails.
  destruct (String.eqb _ _); [auto|].
  destruct (truthy _); [auto|].
  destruct (existing _ _) as [m|] eqn:E.
  - intros _. right. right. left. unfold existing in E.
    apply List.find_some in E as [Hin Hm]. apply opt_eqb_eq in Hm. eauto.
  - destruct (selected_machine _ _) eqn:S; [discriminate|].
    intros _. right. right. right. eapply selected_machine_None; eauto.
Qed.

Lemma pass_of_settled now faults st wos :
  (forall wo, In wo wos -> settled st wo) ->
  auto_assign_work_orders now faults st wos = st.
Proof.
  revert faults. induction wos as [|wo wos IH]; intros faults H; simpl;
    [reflexivity|].
  destruct (assign_body now (List.hd None faults) st wo) as [|s'|s'] eqn:E.
  - apply IH. intros w Hw. apply H. now right.
  - exfalso. exact (settled_no_commit _ _ _ _ _ (H wo (or_introl eq_refl)) E).
  - reflexivity.
Qed.

Section Idempotence.
Variable wos0 : list WorkOrder.t.

Lemma commit_pass_inv now f st wo st' :
  pass_inv wos0 st -> assign_body now f st wo = Commit st' -> pass_inv wos0 st'.
Proof.
  intros [Hu Hc] H. apply assign_body_Commit in H as (sel & _ & _ & _ & _ & ->).
  split.
  - unfold unique_ids in *. simpl. now rewrite update_machine_ids.
  - intros m' w Hm' Hw He. simpl in Hm'.
    apply update_machine_In in Hm' as (m & Hin & ->).
    destruct (Machine.id m =? Machine.id sel).
    + unfold eligible in He. simpl in He. discriminate.
    + now apply Hc.
Qed.

Lemma commit_keeps_settled now f st wo st' w :
  pass_inv wos0 st -> In w wos0 ->
  assign_body now f st wo = Commit st' ->
  settled st w -> settled st' w.
Proof.
  intros [Hu Hc] Hw H Hs.
  apply assign_body_Commit in H as (sel & _ & _ & _ & Hsel & ->).
  apply selected_machine_In in Hsel.
  apply List.filter_In in Hsel as [Hsel_in Hsel_free].
  destruct Hs as [Hs | [Hs | [(m & Hin & Hm) | Hs]]];
    [left; assumption | right; left; assumption | |].
  - right. right. left. exists m. split; [|assumption]. simpl.
    apply update_machine_In. exists m. split; [assumption|].
    destruct (Z.eqb_spec (Machine.id m) (Machine.id sel)) as [E|E];
      [|reflexivity].
    exfalso. assert (m = sel) by (eapply unique_id_eq; eauto). subst m.
    apply (Hc sel w Hsel_in Hw); [|assumption].
    eapply is_free_at_eligible; eauto.
  - right. right. right. unfold free_machines in *. simpl.
    rewrite filter_nil_iff in *. intros m' Hm'.
    apply update_machine_In in Hm' as (m & Hin & ->).
    destruct (Machine.id m =? Machine.id sel); [|now apply Hs].
    unfold is_free_at. simpl. now rewrite Bool.andb_false_r.
Qed.

Lemma commit_settles now f st wo st' :
  assign_body now f st wo = Commit st' -> settled st' wo.
Proof.
  intros H. apply assign_body_Commit in H as (sel & _ & _ & _ & Hsel & ->).
  apply selected_machine_In in Hsel.
  apply List.filter_In in Hsel as [Hsel_in _].
  right. right. left. exists (assign_fields wo sel). split; [|reflexivity].
  simpl. apply update_machine_In. exists sel. split; [assumption|].
  now rewrite Z.eqb_refl.
Qed.

Lemma pass_keeps_settled now faults st rest w :
  incl rest wos0 -> In w wos0 -> pass_inv wos0 st -> settled st w ->
  pass_inv wos0 (auto_assign_work_orders now faults st rest)
  /\ settled (auto_assign_work_orders now faults st rest) w.
Proof.
  intros Hincl Hw Hinv Hs.
  apply (auto_assign_work_orders_inv (fun s => pass_inv wos0 s /\ settled s w));
    [split; assumption|].
  intros s wo f s' Hwo [Hi Hst] Hc. split.
  - eapply commit_pass_inv; eauto.
  - eapply commit_keeps_settled; eauto.
Qed.

Lemma pass_settles_all now st rest :
  incl rest wos0 -> pass_inv wos0 st ->
  forall w, In w rest -> settled (auto_assign now st rest) w.
Proof.
  unfold auto_assign. revert st.
  induction rest as [|wo rest IH]; intros st Hincl Hinv w Hw; [destruct Hw|].
  assert (Hincl' : incl rest wos0) by (intros x Hx; apply Hincl; now right).
  assert (Hwo : In wo wos0) by (apply Hincl; now left).
  simpl.
  pose proof (assign_body_no_fault now st wo) as Hnf.
  destruct (assign_body now None st wo) as [|s'|s'] eqn:E.
  - destruct Hw as [<-|Hw]; [|now apply IH].
    apply pass_keeps_settled; auto. eapply continue_settled; eauto.
  - assert (Hinv' : pass_inv wos0 s') by (eapply commit_pass_inv; eauto).
    destruct Hw as [<-|Hw]; [|now apply IH].
    apply pass_keeps_settled; auto. eapply commit_settles; eauto.
  - exfalso. exact (Hnf s' eq_refl).
Qed.
End Idempotence.

(** C2, amended. In a store with distinct machine ids in which no machine
    that is unlocked and free, paused or stopped carries one of the listed
    work orders, a second assignment pass over the same work orders leaves
    the store of the first pass as it is: no machine is mutated and no
    record is added or changed, because each work order is skipped again
    for the reason it was skipped or assigned the first time. *)
Theorem assignment_idempotent
    (now1 now2 : Z) (faults2 : list (option Fault)) (st : Store)
    (wos : list WorkOrder.t) :
  unique_ids st ->
  no_eligible_carrier wos st ->
  auto_assign_work_orders now2 faults2 (auto_assign now1 st wos) wos
  = auto_assign now1 st wos.
Proof.
  intros Hu Hc. apply pass_of_settled.
  apply (pass_settles_all wos now1 st wos); [apply incl_refl|split; assumption].
Qed.

Lemma assignment_idempotent_witness :
  auto_assign 30 (auto_assign 20 st_two_free [wo_fresh; wo_second])
    [wo_fresh; wo_second]
  = auto_assign 20 st_two_free [wo_fresh; wo_second].
Proof.
  apply (assignment_idempotent 20 30 [] st_two_free [wo_fresh; wo_second]).
  - repeat constructor; simpl; intuition discriminate.
  - intros m wo [<-|[<-|[]]] _ _; discriminate.
Defined.

(** ** Scenarios *)

(** The readings 70, 80, 95, 92, 99, 100 of one machine give three alerts,
    at 80, 95 and 100. *)
Example alerts_rising_readings :
  snd (alerts_loop [[m_at 70]; [m_at 80]; [m_at 95]; [m_at 92]; [m_at 99];
                    [m_at 100]] ∅)
  = [mkAlert 1 1; mkAlert 1 2; mkAlert 1 3].
Proof. vm_compute. reflexivity. Qed.

(** One free machine and one work order: after the pass the machine is
    paused and locked with the work order; started, it has a last tick
    time; a tick one interval later logs one unit. *)
Example assign_start_tick :
  let st1 := auto_assign 5 st_one_free [wo_fresh] in
  let st2 := fst (start_machine 10 "Modan" 1 st1) in
  let st3 := automatic_meter_counter 30 st2 in
  List.map (fun m => (Machine.work_order m, Machine.status m,
                      Machine.is_locked m)) (machines st1)
    = [(Some "WO1", paused, true)]
  /\ List.map Machine.last_tick_time (machines st2) = [Some 10]
  /\ List.map Machine.produced_qty (machines st3) = [1]
  /\ length (production_logs st3) = 1%nat
  /\ List.map ERPNextMetadata.erp_status (metadata st3) = ["In Progress"].
Proof. vm_compute. repeat split. Qed.

(** Five intervals late, the tick before the last unit: one unit, one log
    entry. *)
Example late_tick_one_log :
  List.map Machine.produced_qty
    (machines (automatic_meter_counter 110 st_five_intervals)) = [1]
  /\ length (production_logs (automatic_meter_counter 110 st_five_intervals))
     = 1%nat.
Proof. vm_compute. split; reflexivity. Qed.

(** * Further properties of the code *)

(** ** The assignment pass, row by row *)

Lemma unique_ids_nth st i j mi mj :
  unique_ids st ->
  nth_error (machines st) i = Some mi ->
  nth_error (machines st) j = Some mj ->
  Machine.id mi = Machine.id mj -> i = j.
Proof.
  unfold unique_ids. intros Hnd Hi Hj E.
  assert (Hlt : (i < length (List.map Machine.id (machines st)))%nat).
  { rewrite List.length_map. apply List.nth_error_Some. congruence. }
  apply (proj1 (List.NoDup_nth_error _) Hnd i j Hlt).
  rewrite !List.nth_error_map, Hi, Hj. simpl. congruence.
Qed.

Lemma update_machine_keeps_ids i f ms :
  (forall m, Machine.id (f m) = Machine.id m) ->
  List.map Machine.id (update_machine i f ms) = List.map Machine.id ms.
Proof.
  intros Hf. unfold update_machine. rewrite List.map_map. apply List.map_ext.
  intros m. destruct (_ =? _); auto.
Qed.

Lemma selected_is_free st wo sel :
  selected_machine (free_machines st (WorkOrder.custom_location wo))
    (WorkOrder.custom_pipe_size wo) = Some sel ->
  In sel (machines st)
  /\ is_free_at (WorkOrder.custom_location wo) sel = true.
Proof.
  intros H. apply selected_machine_In in H.
  now apply List.filter_In in H.
Qed.

Lemma assign_fields_not_eligible wo m : eligible (assign_fields wo m) = false.
Proof. reflexivity. Qed.

Lemma is_free_at_location location m :
  is_free_at location m = true -> Some (Machine.location m) = location.
Proof. intros H. now apply is_free_at_iff in H as (? & _). Qed.

(** The rows of the machine table after a pass. *)
Lemma pass_rows now faults st wos :
  unique_ids st ->
  let st' := auto_assign_work_orders now faults st wos in
  unique_ids st'
  /\ production_logs st' = production_logs st
  /\ length (machines st') = length (machines st)
  /\ forall n m,
       nth_error (machines st) n = Some m ->
       exists m',
         nth_error (machines st') n = Some m'
         /\ (m' = m \/ assigned_from wos m m').
Proof.
  intros Hu.
  apply (auto_assign_work_orders_inv
           (fun s => unique_ids s
                     /\ production_logs s = production_logs st
                     /\ length (machines s) = length (machines st)
                     /\ forall n m,
                          nth_error (machines st) n = Some m ->
                          exists m',
                            nth_error (machines s) n = Some m'
                            /\ (m' = m \/ assigned_from wos m m'))).
  - repeat split; auto. intros n m Hn. exists m. auto.
  - intros s wo f s' Hwo (Hus & Hlogs & Hlen & Hrows) Hc.
    apply assign_body_Commit in Hc as (sel & Hst & Hcm & _ & Hsel & ->).
    apply selected_is_free in Hsel as [Hsel_in Hsel_free]. simpl.
    split; [|split; [|split]].
    + unfold unique_ids in *. simpl.
      now rewrite update_machine_keeps_ids.
    + assumption.
    + now rewrite update_machine_length.
    + intros n m Hn. destruct (Hrows n m Hn) as (m1 & Hn1 & Hm1).
      rewrite update_machine_nth, Hn1. simpl.
      eexists. split; [reflexivity|].
      destruct (Z.eqb_spec (Machine.id m1) (Machine.id sel)) as [E|E];
        [|assumption].
      assert (m1 = sel).
      { eapply unique_id_eq; eauto using List.nth_error_In. }
      subst m1. destruct Hm1 as [-> | (wo0 & _ & _ & _ & _ & _ & ->)].
      * right. exists wo. repeat split; auto.
        -- eapply is_free_at_eligible; eauto.
        -- eapply is_free_at_location; eauto.
      * apply is_free_at_eligible in Hsel_free.
        rewrite assign_fields_not_eligible in Hsel_free. discriminate.
Qed.

(** X1. In a store with distinct machine ids, an assignment pass (with or
    without faults) leaves the production logs and the number of machines
    as they are, and every machine row either as it was or, if it was
    unlocked and free, paused or stopped, overwritten by [assign_fields]
    for one listed work order of the machine's own location that is not
    in process and has no machine id from ERPNext. A machine that is
    locked, running or completed is never modified. *)
Theorem pass_touches_only_free_machines
    (now : Z) (faults : list (option Fault)) (st : Store)
    (wos : list WorkOrder.t) :
  unique_ids st ->
  let st' := auto_assign_work_orders now faults st wos in
  production_logs st' = production_logs st
  /\ length (machines st') = length (machines st)
  /\ forall n m,
       nth_error (machines st) n = Some m ->
       exists m',
         nth_error (machines st') n = Some m'
         /\ (m' = m \/ assigned_from wos m m')
         /\ (eligible m = false -> m' = m).
Proof.
  intros Hu st'.
  destruct (pass_rows now faults st wos Hu) as (_ & Hlogs & Hlen & Hrows).
  split; [assumption|]. split; [assumption|].
  intros n m Hn. destruct (Hrows n m Hn) as (m' & Hn' & Hm').
  exists m'. split; [assumption|]. split; [assumption|].
  intros He. destruct Hm' as [-> | (wo & _ & He' & _)]; [reflexivity|].
  congruence.
Qed.

(** The pipe sizes of [WO1] and machine 2 agree: machine 2 is assigned,
    machine 1 stays free and the running machine 3 is as before. *)
Lemma pass_touches_only_free_machines_witness :
  nth_error (machines (auto_assign_work_orders 5 [] st_mixed [wo_fresh])) 2
    = Some m_running_locked
  /\ List.map Machine.status
       (machines (auto_assign_work_orders 5 [] st_mixed [wo_fresh]))
     = [free; paused; running].
Proof.
  assert (Hu : unique_ids st_mixed).
  { repeat constructor; simpl; intuition discriminate. }
  destruct (pass_touches_only_free_machines 5 [] st_mixed [wo_fresh] Hu)
    as (_ & _ & Hrows).
  destruct (Hrows 2%nat m_running_locked eq_refl) as (m' & Hn & _ & Hm).
  split; [|reflexivity]. rewrite Hn. f_equal. apply Hm. reflexivity.
Defined.

(** ** Well-formed stores *)

Lemma distinct_carriers_same_column st st' :
  List.map Machine.erpnext_work_order_id (machines st')
  = List.map Machine.erpnext_work_order_id (machines st) ->
  distinct_carriers st -> distinct_carriers st'.
Proof.
  intros Hcol Hd i j mi mj Hi Hj Hne E.
  assert (Hi' : nth_error (List.map Machine.erpnext_work_order_id (machines st)) i
                = Some (Machine.erpnext_work_order_id mi)).
  { rewrite <- Hcol, List.nth_error_map, Hi. reflexivity. }
  assert (Hj' : nth_error (List.map Machine.erpnext_work_order_id (machines st)) j
                = Some (Machine.erpnext_work_order_id mj)).
  { rewrite <- Hcol, List.nth_error_map, Hj. reflexivity. }
  rewrite List.nth_error_map in Hi', Hj'.
  destruct (nth_error (machines st) i) as [xi|] eqn:Exi; [|discriminate].
  destruct (nth_error (machines st) j) as [xj|] eqn:Exj; [|discriminate].
  simpl in Hi', Hj'. injection Hi' as Hi'. injection Hj' as Hj'.
  apply (Hd i j xi xj Exi Exj); congruence.
Qed.

(** A row-wise rewrite of the machine table that keeps the id and the two
    work-order columns of every row keeps the store well formed. *)
Lemma well_formed_map g st st' :
  machines st' = List.map g (machines st) ->
  (forall m, Machine.id (g m) = Machine.id m) ->
  (forall m, Machine.work_order (g m) = Machine.work_order m) ->
  (forall m, Machine.erpnext_work_order_id (g m)
             = Machine.erpnext_work_order_id m) ->
  well_formed st -> well_formed st'.
Proof.
  intros Hms Hid Hwo Heid (Hu & Hs & Hd). split; [|split].
  - unfold unique_ids in *. rewrite Hms, List.map_map.
    erewrite List.map_ext; [exact Hu|]. auto.
  - unfold all_machines in *. rewrite Hms. apply List.Forall_map.
    eapply List.Forall_impl; [|exact Hs]. intros m Hm.
    unfold wo_synced in *. now rewrite Hwo, Heid.
  - apply (distinct_carriers_same_column st); [|assumption].
    rewrite Hms, List.map_map. apply List.map_ext. auto.
Qed.

Lemma update_machine_as_map i f ms :
  update_machine i f ms
  = List.map (fun m => if Machine.id m =? i then f m else m) ms.
Proof. reflexivity. Qed.

Lemma well_formed_update_machine i f st :
  (forall m, Machine.id (f m) = Machine.id m) ->
  (forall m, Machine.work_order (f m) = Machine.work_order m) ->
  (forall m, Machine.erpnext_work_order_id (f m)
             = Machine.erpnext_work_order_id m) ->
  well_formed st ->
  well_formed (with_machines (update_machine i f (machines st)) st).
Proof.
  intros Hid Hwo Heid.
  apply (well_formed_map (fun m => if Machine.id m =? i then f m else m));
    [reflexivity | | |]; intros m; destruct (_ =? _); auto.
Qed.

Lemma meter_step_keeps now m :
  same_identity m (meter_step now m) /\ same_job m (meter_step now m)
  /\ Machine.name (meter_step now m) = Machine.name m.
Proof.
  unfold meter_step, same_identity, same_job.
  destruct (Status_eqb _ _); [|intuition].
  destruct (meter_machine_cases now m) as [-> | [-> | [_ [-> | ->]]]];
    simpl; intuition.
Qed.

Lemma well_formed_tick now st :
  well_formed st -> well_formed (automatic_meter_counter now st).
Proof.
  intros H.
  pose proof (automatic_meter_counter_machines now st) as Hms.
  destruct (List.existsb _ _); [|].
  - apply (well_formed_map (meter_step now) st); auto; intros m;
      destruct (meter_step_keeps now m) as ((? & ? & ?) & (? & ? & ? & ?) & ?);
      assumption.
  - apply (well_formed_map (fun m => m) st); auto.
    now rewrite List.map_id.
Qed.

Lemma well_formed_commit now f st wo st' :
  well_formed st -> assign_body now f st wo = Commit st' -> well_formed st'.
Proof.
  intros (Hu & Hs & Hd) Hc.
  apply assign_body_Commit in Hc as (sel & _ & _ & Hex & Hsel & ->).
  split; [|split].
  - unfold unique_ids in *. simpl. now rewrite update_machine_keeps_ids.
  - unfold all_machines in *. simpl. apply Forall_update_machine; auto.
    intros. reflexivity.
  - intros i j mi' mj' Hi Hj Hne E. simpl in Hi, Hj.
    rewrite update_machine_nth in Hi, Hj.
    destruct (nth_error (machines st) i) as [mi|] eqn:Ei; [|discriminate].
    destruct (nth_error (machines st) j) as [mj|] eqn:Ej; [|discriminate].
    simpl in Hi, Hj. injection Hi as <-. injection Hj as <-.
    unfold existing in Hex. rewrite find_none_iff in Hex.
    destruct (Z.eqb_spec (Machine.id mi) (Machine.id sel)) as [Ii|Ii],
             (Z.eqb_spec (Machine.id mj) (Machine.id sel)) as [Ij|Ij].
    + eapply unique_ids_nth; eauto. congruence.
    + exfalso. simpl in E.
      specialize (Hex mj (List.nth_error_In _ _ Ej)).
      rewrite <- E, opt_eqb_refl in Hex. discriminate.
    + exfalso. simpl in E.
      specialize (Hex mi (List.nth_error_In _ _ Ei)).
      rewrite E, opt_eqb_refl in Hex. discriminate.
    + eapply Hd; eauto.
Qed.

Lemma well_formed_apply_op o st :
  well_formed st -> well_formed (apply_op o st).
Proof.
  intros H. destruct o; simpl.
  - apply (auto_assign_work_orders_inv well_formed); [assumption|].
    intros s wo f s' _ Hs Hc. eapply well_formed_commit; eauto.
  - unfold start_machine. destruct (get_machine _ _ _); [|assumption].
    destruct (negb _); [assumption|]. simpl.
    apply well_formed_update_machine; auto.
  - unfold pause_machine. destruct (get_machine _ _ _); [|assumption]. simpl.
    apply well_formed_update_machine; auto.
  - unfold stop_machine. destruct (get_machine _ _ _); [|assumption]. simpl.
    apply well_formed_update_machine; auto.
  - unfold rename_machine. destruct (get_machine _ _ _); [|assumption]. simpl.
    apply well_formed_update_machine; auto.
  - now apply well_formed_tick.
Qed.

(** X2. Distinct machine ids, equal [work_order] and
    [erpnext_work_order_id] columns, and no work order carried by two
    machines: a store that has the three keeps them under every sequence
    of assignment passes (with or without faults), starts, pauses, stops,
    renames and ticks. In such a store two different rows never show the
    same work order. *)
Theorem well_formed_preserved (ops : list Op) (st : Store) :
  well_formed st ->
  well_formed (run_ops ops st)
  /\ forall n n' m x,
       nth_error (machines (run_ops ops st)) n = Some m ->
       nth_error (machines (run_ops ops st)) n' = Some x ->
       n' <> n ->
       Machine.work_order m <> None ->
       Machine.work_order x <> Machine.work_order m.
Proof.
  intros H.
  assert (Hwf : well_formed (run_ops ops st)).
  { unfold run_ops. revert st H. induction ops as [|o ops IH]; intros st H;
      simpl; [assumption|]. apply IH. now apply well_formed_apply_op. }
  split; [assumption|].
  destruct Hwf as (_ & Hs & Hd). intros n n' m x Hn Hn' Hne Hwo E.
  unfold all_machines in Hs. rewrite List.Forall_forall in Hs.
  pose proof (Hs m (List.nth_error_In _ _ Hn)) as Sm.
  pose proof (Hs x (List.nth_error_In _ _ Hn')) as Sx.
  unfold wo_synced in *. apply Hne. symmetry.
  apply (Hd n n' m x Hn Hn'); congruence.
Qed.

Lemma well_formed_preserved_witness :
  well_formed
    (run_ops [OpAssign 5 [] [wo_fresh; wo_second]; OpStart 10 "Modan" 1;
              OpTick 30; OpPause "Modan" 2] st_two_free).
Proof.
  apply (well_formed_preserved
           [OpAssign 5 [] [wo_fresh; wo_second]; OpStart 10 "Modan" 1;
            OpTick 30; OpPause "Modan" 2] st_two_free).
  split; [|split].
  - repeat constructor; simpl; intuition discriminate.
  - repeat constructor.
  - intros [|[|[|i]]] [|[|[|j]]] mi mj Hi Hj Hne E;
      simpl in Hi, Hj; try discriminate;
      injection Hi as <-; simpl in Hne; contradiction.
Defined.

(** ** What a pass leaves to do *)

(** X3. After a pass without faults over a store with distinct machine
    ids in which no selectable machine carries a listed work order, every
    listed work order is in process, or has a machine id from ERPNext, or
    is carried by a machine, or has no free machine left at its location:
    no order waits while a machine it could take is free. *)
Theorem no_order_left_waiting
    (now : Z) (st : Store) (wos : list WorkOrder.t) (wo : WorkOrder.t) :
  unique_ids st ->
  no_eligible_carrier wos st ->
  In wo wos ->
  let st' := auto_assign now st wos in
  String.eqb (WorkOrder.status wo) "In Process" = true
  \/ truthy (WorkOrder.custom_machine_id wo) = true
  \/ (exists m, In m (machines st')
        /\ Machine.erpnext_work_order_id m = Some (WorkOrder.name wo))
  \/ free_machines st' (WorkOrder.custom_location wo) = [].
Proof.
  intros Hu Hc Hwo.
  apply (pass_settles_all wos now st wos (incl_refl _) (conj Hu Hc) wo Hwo).
Qed.

(** Three orders for two free machines: the third finds none. *)
Lemma no_order_left_waiting_witness :
  free_machines
    (auto_assign 5 st_two_free [wo_fresh; wo_second; wo_overproduced])
    (Some "Modan") = []
  /\ ~ exists m,
        In m (machines (auto_assign 5 st_two_free
                          [wo_fresh; wo_second; wo_overproduced]))
        /\ Machine.erpnext_work_order_id m = Some "WO7".
Proof.
  assert (Hno : ~ exists m,
             In m (machines (auto_assign 5 st_two_free
                               [wo_fresh; wo_second; wo_overproduced]))
             /\ Machine.erpnext_work_order_id m = Some "WO7").
  { intros (m & [<-|[<-|[]]] & E); discriminate. }
  split; [|exact Hno].
  destruct (no_order_left_waiting 5 st_two_free
              [wo_fresh; wo_second; wo_overproduced] wo_overproduced)
    as [H | [H | [H | H]]].
  - repeat constructor; simpl; intuition discriminate.
  - intros m wo [<-|[<-|[]]] _ _; discriminate.
  - right. right. left. reflexivity.
  - discriminate.
  - discriminate.
  - contradiction.
  - exact H.
Defined.

(** ** The metadata table *)

Lemma update_first_keys {A B : Type} (key : A -> B) p f (l : list A) :
  (forall r, key (f r) = key r) ->
  List.map key (update_first p f l) = List.map key l.
Proof.
  intros Hf. induction l as [|a l IH]; simpl; [reflexivity|].
  destruct (p a); simpl; congruence.
Qed.

Lemma upsert_meta_keys now wo_name machine_id metas :
  List.map ERPNextMetadata.work_order (upsert_meta now wo_name machine_id metas)
  = List.map ERPNextMetadata.work_order metas
    ++ (if List.existsb (String.eqb wo_name)
             (List.map ERPNextMetadata.work_order metas)
        then [] else [wo_name]).
Proof.
  unfold upsert_meta.
  assert (E : List.existsb (String.eqb wo_name)
                (List.map ERPNextMetadata.work_order metas)
              = match List.find (meta_for wo_name) metas with
                | Some _ => true | None => false end).
  { induction metas as [|r metas IH]; simpl; [reflexivity|].
    unfold meta_for at 1. rewrite String.eqb_sym.
    destruct (String.eqb _ _); simpl; auto. }
  rewrite E. destruct (List.find _ metas).
  - rewrite update_first_keys by reflexivity. now rewrite List.app_nil_r.
  - now rewrite List.map_app.
Qed.

Lemma meter_body_keys {B : Type} (key : ERPNextMetadata.t -> B)
    now m metas logs :
  (forall v r, key (ERPNextMetadata.set_erp_status v r) = key r) ->
  (forall v r, key (ERPNextMetadata.set_last_synced v r) = key r) ->
  List.map key (loop_metas (meter_body now m metas logs)) = List.map key metas.
Proof.
  intros H1 H2. unfold meter_body, loop_metas.
  repeat (case_branch; simpl; try reflexivity);
    rewrite ?update_first_keys; auto; intros; now rewrite ?H1, ?H2.
Qed.

Lemma meter_loop_keys {B : Type} (key : ERPNextMetadata.t -> B)
    now ms metas logs u :
  (forall v r, key (ERPNextMetadata.set_erp_status v r) = key r) ->
  (forall v r, key (ERPNextMetadata.set_last_synced v r) = key r) ->
  List.map key (loop_metas (meter_loop now ms metas logs u))
  = List.map key metas.
Proof.
  intros H1 H2. revert metas logs u.
  induction ms as [|m ms IH]; intros; simpl; [reflexivity|].
  destruct (Status_eqb _ _).
  - pose proof (meter_body_keys key now m metas logs H1 H2) as Hb.
    destruct (meter_body now m metas logs) as [[[m' metas'] logs'] adv].
    specialize (IH metas' logs' (u || adv)%bool).
    destruct (meter_loop now ms metas' logs' (u || adv)%bool)
      as [[[rest' ?] ?] ?].
    unfold loop_metas in *. simpl in *. congruence.
  - specialize (IH metas logs u).
    destruct (meter_loop now ms metas logs u) as [[[rest' ?] ?] ?].
    unfold loop_metas in *. simpl in *. congruence.
Qed.

Lemma tick_keys {B : Type} (key : ERPNextMetadata.t -> B) now st :
  (forall v r, key (ERPNextMetadata.set_erp_status v r) = key r) ->
  (forall v r, key (ERPNextMetadata.set_last_synced v r) = key r) ->
  List.map key (metadata (automatic_meter_counter now st))
  = List.map key (metadata st).
Proof.
  intros H1 H2.
  destruct (List.existsb (fun m => Status_eqb (Machine.status m) running
                                   && meter_advances now m) (machines st))
    eqn:E.
  - rewrite automatic_meter_counter_metadata by assumption.
    now apply meter_loop_keys.
  - unfold automatic_meter_counter.
    pose proof (meter_loop_updated now (machines st) (metadata st)
                  (production_logs st) false) as Hu.
    destruct (meter_loop _ _ _ _ _) as [[[ms metas] logs] upd].
    simpl in Hu. rewrite E in Hu. subst upd. reflexivity.
Qed.

Lemma keys_unchanged st st' :
  meta_keys st' = meta_keys st ->
  exists added,
    meta_keys st' = meta_keys st ++ added
    /\ (List.NoDup (meta_keys st) -> List.NoDup (meta_keys st')).
Proof.
  intros E. exists []. rewrite List.app_nil_r, E. auto.
Qed.

Lemma apply_op_keys o st :
  exists added,
    meta_keys (apply_op o st) = meta_keys st ++ added
    /\ (List.NoDup (meta_keys st) -> List.NoDup (meta_keys (apply_op o st))).
Proof.
  destruct o; simpl.
  - apply (auto_assign_work_orders_inv
             (fun s => exists added,
                 meta_keys s = meta_keys st ++ added
                 /\ (List.NoDup (meta_keys st) -> List.NoDup (meta_keys s)))).
    + exists []. rewrite List.app_nil_r. auto.
    + intros s wo f s' _ (added & Hk & Hnd) Hc.
      apply assign_body_Commit in Hc as (sel & _ & _ & _ & _ & ->).
      unfold meta_keys in *. simpl. rewrite upsert_meta_keys, Hk.
      destruct (List.existsb _ _) eqn:E.
      * exists added. rewrite List.app_nil_r. split; [reflexivity|].
        intros H. rewrite <- Hk. auto.
      * exists (added ++ [WorkOrder.name wo]).
        rewrite List.app_assoc. split; [reflexivity|]. intros H.
        rewrite <- Hk. apply List.NoDup_app; auto.
        -- repeat constructor. intros [].
        -- intros x Hx [<-|[]].
           assert (Ex : List.existsb (String.eqb (WorkOrder.name wo))
                          (List.map ERPNextMetadata.work_order (metadata s))
                        = true).
           { apply List.existsb_exists. exists (WorkOrder.name wo).
             split; [assumption|apply String.eqb_refl]. }
           rewrite Hk in Ex. congruence.
  - apply keys_unchanged. unfold start_machine.
    destruct (get_machine _ _ _); [|reflexivity].
    destruct (negb _); reflexivity.
  - apply keys_unchanged. unfold pause_machine.
    destruct (get_machine _ _ _); reflexivity.
  - apply keys_unchanged. unfold stop_machine.
    destruct (get_machine _ _ _); reflexivity.
  - apply keys_unchanged. unfold rename_machine.
    destruct (get_machine _ _ _); reflexivity.
  - apply keys_unchanged. unfold meta_keys.
    now rewrite (tick_keys ERPNextMetadata.work_order).
Qed.

(** X4. Metadata records are never deleted or re-keyed: after any
    sequence of operations the work orders of the records are those of
    before, in the same order, followed by the ones added by assignment
    passes; and if no two records had the same work order before, none
    have afterwards. *)
Theorem metadata_keys_preserved (ops : list Op) (st : Store) :
  List.NoDup (meta_keys st) ->
  List.NoDup (meta_keys (run_ops ops st))
  /\ exists added, meta_keys (run_ops ops st) = meta_keys st ++ added.
Proof.
  unfold run_ops. revert st. induction ops as [|o ops IH]; intros st Hnd; simpl.
  - split; [assumption|]. exists []. now rewrite List.app_nil_r.
  - destruct (apply_op_keys o st) as (a1 & Hk1 & Hnd1).
    destruct (IH (apply_op o st) (Hnd1 Hnd)) as (H & a2 & Hk2).
    split; [assumption|]. exists (a1 ++ a2).
    now rewrite Hk2, Hk1, List.app_assoc.
Qed.

Lemma metadata_keys_preserved_witness :
  List.NoDup
    (meta_keys (run_ops [OpAssign 5 [] [wo_fresh; wo_second];
                         OpStart 10 "Modan" 1; OpTick 30;
                         OpAssign 40 [] [wo_fresh; wo_second]] st_two_free))
  /\ meta_keys (run_ops [OpAssign 5 [] [wo_fresh; wo_second];
                         OpStart 10 "Modan" 1; OpTick 30;
                         OpAssign 40 [] [wo_fresh; wo_second]] st_two_free)
     = ["WO1"; "WO2"].
Proof.
  destruct (metadata_keys_preserved
              [OpAssign 5 [] [wo_fresh; wo_second];
               OpStart 10 "Modan" 1; OpTick 30;
               OpAssign 40 [] [wo_fresh; wo_second]] st_two_free)
    as (H & _).
  - constructor.
  - split; [exact H|reflexivity].
Defined.

Lemma find_app {A : Type} (p : A -> bool) l1 l2 :
  List.find p (l1 ++ l2) =
  match List.find p l1 with Some x => Some x | None => List.find p l2 end.
Proof.
  induction l1 as [|a l1 IH]; simpl; [reflexivity|].
  destruct (p a); auto.
Qed.

Lemma find_upsert_same now w i metas :
  exists r,
    List.find (meta_for w) (upsert_meta now w i metas) = Some r
    /\ ERPNextMetadata.work_order r = w
    /\ ERPNextMetadata.machine_id r = i
    /\ ERPNextMetadata.erp_status r = "Assigned"
    /\ ERPNextMetadata.last_synced r = now.
Proof.
  unfold upsert_meta. destruct (List.find (meta_for w) metas) as [r0|] eqn:E.
  - rewrite find_update_first by reflexivity. rewrite E. simpl.
    eexists. split; [reflexivity|]. simpl.
    apply List.find_some in E as [_ E]. apply String.eqb_eq in E. auto.
  - rewrite find_app, E. simpl. unfold meta_for at 1. simpl.
    rewrite String.eqb_refl. eexists. split; [reflexivity|]. simpl. auto.
Qed.

Lemma find_upsert_other now w w' i metas :
  w <> w' ->
  List.find (meta_for w) (upsert_meta now w' i metas)
  = List.find (meta_for w) metas.
Proof.
  intros Hne. unfold upsert_meta.
  destruct (List.find (meta_for w') metas) as [r0|] eqn:E.
  - apply find_update_first_other; [|reflexivity].
    intros r Hr. unfold meta_for in *. apply String.eqb_eq in Hr.
    apply String.eqb_neq. congruence.
  - rewrite find_app. destruct (List.find (meta_for w) metas); [reflexivity|].
    simpl. unfold meta_for. simpl.
    destruct (String.eqb_spec w' w); [congruence|reflexivity].
Qed.

(** X5. In a store with distinct machine ids, every machine row that an
    assignment pass has overwritten for a work order has a metadata record
    of that work order after the pass, and the first such record names
    this machine, has [erp_status = "Assigned"] and was synced at the time
    of the pass. *)
Theorem assignment_has_its_record
    (now : Z) (faults : list (option Fault)) (st : Store)
    (wos : list WorkOrder.t) (n : nat) (m m' : Machine.t) :
  unique_ids st ->
  nth_error (machines st) n = Some m ->
  nth_error (machines (auto_assign_work_orders now faults st wos)) n
    = Some m' ->
  m' <> m ->
  exists wo r,
    In wo wos /\ m' = assign_fields wo m
    /\ List.find (meta_for (WorkOrder.name wo))
         (metadata (auto_assign_work_orders now faults st wos)) = Some r
    /\ ERPNextMetadata.machine_id r = Machine.id m
    /\ ERPNextMetadata.erp_status r = "Assigned"
    /\ ERPNextMetadata.last_synced r = now.
Proof.
  intros Hu Hn Hn' Hne.
  assert (H : unique_ids (auto_assign_work_orders now faults st wos)
    /\ forall n m, nth_error (machines st) n = Some m ->
         exists m1,
           nth_error (machines (auto_assign_work_orders now faults st wos)) n
             = Some m1
           /\ (m1 = m
               \/ exists wo r,
                    In wo wos /\ m1 = assign_fields wo m
                    /\ List.find (meta_for (WorkOrder.name wo))
                         (metadata (auto_assign_work_orders now faults st wos))
                       = Some r
                    /\ ERPNextMetadata.machine_id r = Machine.id m
                    /\ ERPNextMetadata.erp_status r = "Assigned"
                    /\ ERPNextMetadata.last_synced r = now)).
  { apply (auto_assign_work_orders_inv
             (fun s => unique_ids s
                /\ forall n m, nth_error (machines st) n = Some m ->
                     exists m1,
                       nth_error (machines s) n = Some m1
                       /\ (m1 = m
                           \/ exists wo r,
                                In wo wos /\ m1 = assign_fields wo m
                                /\ List.find (meta_for (WorkOrder.name wo))
                                     (metadata s) = Some r
                                /\ ERPNextMetadata.machine_id r = Machine.id m
                                /\ ERPNextMetadata.erp_status r = "Assigned"
                                /\ ERPNextMetadata.last_synced r = now))).
    - split; [assumption|]. intros k x Hk. exists x. auto.
    - intros s wo f s' Hwo (Hus & Hrows) Hc.
      apply assign_body_Commit in Hc as (sel & _ & _ & Hex & Hsel & ->).
      apply selected_is_free in Hsel as [Hsel_in Hsel_free]. simpl.
      split.
      { unfold unique_ids in *. simpl. now rewrite update_machine_keeps_ids. }
      intros k x Hk. destruct (Hrows k x Hk) as (m1 & Hk1 & Hm1).
      rewrite update_machine_nth, Hk1. simpl.
      eexists. split; [reflexivity|].
      destruct (Z.eqb_spec (Machine.id m1) (Machine.id sel)) as [E|E].
      + assert (m1 = sel)
          by (eapply unique_id_eq; eauto using List.nth_error_In).
        subst m1. right.
        destruct Hm1 as [-> | (wo0 & r0 & _ & -> & _)].
        * destruct (find_upsert_same now (WorkOrder.name wo) (Machine.id x)
                      (metadata s)) as (r & Hr & _ & Hr2 & Hr3 & Hr4).
          exists wo, r. repeat split; auto.
        * apply is_free_at_eligible in Hsel_free.
          rewrite assign_fields_not_eligible in Hsel_free. discriminate.
      + destruct Hm1 as [-> | (wo0 & r0 & Hwo0 & -> & Hr0 & Hrest)];
          [left; reflexivity|].
        right. exists wo0, r0. repeat split; try tauto.
        rewrite find_upsert_other; [assumption|].
        intros Ename. unfold existing in Hex. rewrite find_none_iff in Hex.
        specialize (Hex _ (List.nth_error_In _ _ Hk1)). simpl in Hex.
        rewrite Ename, String.eqb_refl in Hex. discriminate. }
  destruct H as (_ & Hrows). destruct (Hrows n m Hn) as (m1 & Hn1 & Hm1).
  rewrite Hn1 in Hn'. injection Hn' as ->.
  destruct Hm1 as [-> | (wo & r & H1 & H2 & H3 & H4 & H5 & H6)];
    [contradiction|].
  exists wo, r. repeat split; assumption.
Qed.

Lemma assignment_has_its_record_witness :
  exists wo r,
    In wo [wo_fresh]
    /\ List.find (meta_for (WorkOrder.name wo))
         (metadata (auto_assign_work_orders 5 [] st_mixed [wo_fresh])) = Some r
    /\ ERPNextMetadata.machine_id r = 2
    /\ ERPNextMetadata.erp_status r = "Assigned".
Proof.
  assert (Hu : unique_ids st_mixed).
  { repeat constructor; simpl; intuition discriminate. }
  destruct (assignment_has_its_record 5 [] st_mixed [wo_fresh] 1%nat
              (Machine.mk 2 "Modan" "Machine 2" free false None None
                 (Some "20") 100 0 (Some 20) None)
              (assign_fields wo_fresh
                 (Machine.mk 2 "Modan" "Machine 2" free false None None
                    (Some "20") 100 0 (Some 20) None))
              Hu eq_refl eq_refl)
    as (wo & r & H1 & _ & H3 & H4 & H5 & _).
  - discriminate.
  - exists wo, r. auto.
Defined.

(** ** The meter counter: logs, frame, timing *)

Lemma meter_body_logs now m metas logs :
  snd (fst (meter_body now m metas logs))
  = logs ++ (if meter_advances now m then [log_of now m] else []).
Proof.
  unfold meter_advances, meter_body, log_of.
  destruct (negb _ || negb _)%bool; simpl; [now rewrite List.app_nil_r|].
  destruct (Machine.last_tick_time m); simpl; [|now rewrite List.app_nil_r].
  destruct (Machine.seconds_per_meter m); simpl;
    [|now rewrite List.app_nil_r].
  destruct (_ && _)%bool; simpl; [|now rewrite List.app_nil_r].
  destruct (Machine.target_qty m <=? Machine.produced_qty m + 1); reflexivity.
Qed.

Lemma meter_loop_logs now ms metas logs u :
  snd (fst (meter_loop now ms metas logs u))
  = logs ++ List.map (log_of now)
              (List.filter (fun m => Status_eqb (Machine.status m) running
                                     && meter_advances now m) ms).
Proof.
  revert metas logs u. induction ms as [|m ms IH]; intros; simpl.
  - now rewrite List.app_nil_r.
  - destruct (Status_eqb (Machine.status m) running); simpl.
    + pose proof (meter_body_logs now m metas logs) as Hb.
      destruct (meter_body now m metas logs) as [[[m' metas'] logs'] adv].
      specialize (IH metas' logs' (u || adv)%bool).
      destruct (meter_loop now ms metas' logs' (u || adv)%bool)
        as [[[rest' ?] ?] ?]. simpl in *. subst.
      destruct (meter_advances now m); simpl;
        now rewrite <- ?List.app_assoc, ?List.app_nil_r.
    + specialize (IH metas logs u).
      destruct (meter_loop now ms metas logs u) as [[[rest' ?] ?] ?].
      simpl in *. assumption.
Qed.

Lemma existsb_filter_nil {A : Type} (p : A -> bool) l :
  List.existsb p l = false -> List.filter p l = [].
Proof.
  induction l as [|a l IH]; simpl; [reflexivity|].
  destruct (p a); simpl; [discriminate|assumption].
Qed.

Lemma meter_step_produced_exact now m :
  Machine.produced_qty (meter_step now m)
  = Machine.produced_qty m
    + (if Status_eqb (Machine.status m) running && meter_advances now m
       then 1 else 0).
Proof.
  unfold meter_step. destruct (Status_eqb _ _); simpl; [|lia].
  destruct (meter_advances now m) eqn:E.
  - apply meter_advances_due in E. rewrite (meter_machine_due _ _ E).
    destruct E as (? & ? & _ & _ & _ & _ & _ & Hp).
    destruct (Z.leb_spec (Machine.target_qty m) (Machine.produced_qty m + 1));
      simpl; lia.
  - destruct (meter_machine_not_due _ _ E) as [-> | ->]; simpl; lia.
Qed.

(** X6. A tick appends to the production log exactly one entry of one
    unit, stamped with the time of the tick, for each running machine it
    advances, in table order, and changes no earlier entry; the total of
    [produced_qty] over all machines grows by the number of entries
    appended. *)
Theorem tick_logs_what_it_adds (now : Z) (st : Store) :
  let st' := automatic_meter_counter now st in
  production_logs st'
    = production_logs st ++ List.map (log_of now) (advanced now st)
  /\ total_produced st'
     = total_produced st + Z.of_nat (length (advanced now st)).
Proof.
  unfold advanced, total_produced. split.
  - unfold automatic_meter_counter.
    pose proof (meter_loop_logs now (machines st) (metadata st)
                  (production_logs st) false) as Hl.
    pose proof (meter_loop_updated now (machines st) (metadata st)
                  (production_logs st) false) as Hu.
    destruct (meter_loop _ _ _ _ _) as [[[ms metas] logs] upd].
    simpl in *. subst. destruct (List.existsb _ _) eqn:E; [reflexivity|].
    rewrite (existsb_filter_nil _ _ E). simpl. now rewrite List.app_nil_r.
  - rewrite automatic_meter_counter_machines.
    destruct (List.existsb _ _) eqn:E.
    + clear E. induction (machines st) as [|m ms IH]; simpl; [reflexivity|].
      rewrite IH, meter_step_produced_exact.
      destruct (_ && _)%bool; simpl length; lia.
    + rewrite (existsb_filter_nil _ _ E). simpl. lia.
Qed.

(** X7. A tick never changes the number of machines or of metadata
    records, the id, location, name, rate, work order, pipe size or target
    of a machine, or the machine id, work order or comments of a record; a
    machine that is not running is left exactly as it is, and a running
    one stays running or becomes completed. *)
Theorem tick_frame (now : Z) (st : Store) (n : nat) (m : Machine.t) :
  nth_error (machines st) n = Some m ->
  let st' := automatic_meter_counter now st in
  length (machines st') = length (machines st)
  /\ List.map meta_frame (metadata st') = List.map meta_frame (metadata st)
  /\ exists m',
       nth_error (machines st') n = Some m'
       /\ same_identity m m' /\ same_job m m'
       /\ Machine.name m' = Machine.name m
       /\ (Machine.status m <> running -> m' = m)
       /\ (Machine.status m' = Machine.status m
           \/ Machine.status m' = completed).
Proof.
  intros Hn st'. unfold st'.
  split; [|split].
  - rewrite automatic_meter_counter_machines.
    destruct (List.existsb _ _); [apply List.length_map|reflexivity].
  - now apply tick_keys.
  - rewrite automatic_meter_counter_machines.
    destruct (List.existsb _ _).
    + rewrite List.nth_error_map, Hn. simpl. eexists. split; [reflexivity|].
      destruct (meter_step_keeps now m) as (H1 & H2 & H3).
      repeat split; try apply H1; try apply H2; try assumption.
      * intros Hs. unfold meter_step.
        destruct (Status_eqb _ _) eqn:E; [|reflexivity].
        apply Status_eqb_eq in E. contradiction.
      * unfold meter_step. destruct (Status_eqb _ _) eqn:E; [|now left].
        apply Status_eqb_eq in E.
        destruct (meter_machine_cases now m) as [-> | [-> | [_ [-> | ->]]]];
          simpl; auto.
    + exists m. unfold same_identity, same_job. intuition.
Qed.

Lemma tick_frame_witness :
  List.map Machine.status
    (machines (automatic_meter_counter 30
                 (auto_assign 5 st_mixed [wo_fresh])))
  = [free; paused; running]
  /\ List.map meta_frame
       (metadata (automatic_meter_counter 30
                    (auto_assign 5 st_mixed [wo_fresh])))
     = List.map meta_frame (metadata (auto_assign 5 st_mixed [wo_fresh])).
Proof.
  destruct (tick_frame 30 (auto_assign 5 st_mixed [wo_fresh]) 2
              m_running_locked eq_refl) as (_ & H & _).
  split; [reflexivity|exact H].
Defined.

Lemma meter_step_not_advancing now m :
  Machine.last_tick_time m <> None ->
  meter_advances now m = false ->
  meter_step now m = m.
Proof.
  intros Hl. unfold meter_step, meter_advances, meter_machine, meter_body.
  destruct (Status_eqb _ _); [|reflexivity].
  destruct (negb _ || negb _)%bool; simpl; [reflexivity|].
  destruct (Machine.last_tick_time m); [|contradiction].
  destruct (Machine.seconds_per_meter m); simpl; [|reflexivity].
  destruct (_ && _)%bool; simpl; [|reflexivity].
  destruct (Machine.target_qty m <=? Machine.produced_qty m + 1); discriminate.
Qed.

Lemma tick_row now st n m :
  nth_error (machines st) n = Some m ->
  nth_error (machines (automatic_meter_counter now st)) n = Some m
  \/ nth_error (machines (automatic_meter_counter now st)) n
     = Some (meter_step now m).
Proof.
  intros Hn. rewrite automatic_meter_counter_machines.
  destruct (List.existsb _ _); [right|left; assumption].
  now rewrite List.nth_error_map, Hn.
Qed.

(** X8. A tick that comes less than [seconds_per_meter] after a machine's
    last tick leaves the row of that machine exactly as it is: nothing is
    produced before a full interval has elapsed (in particular not by the
    first tick after a start). *)
Theorem no_advance_before_interval
    (now : Z) (st : Store) (n : nat) (m : Machine.t) (last spm : Z) :
  nth_error (machines st) n = Some m ->
  Machine.last_tick_time m = Some last ->
  Machine.seconds_per_meter m = Some spm ->
  now - last < spm ->
  nth_error (machines (automatic_meter_counter now st)) n = Some m.
Proof.
  intros Hn Hl Hs Hlt.
  destruct (tick_row now st n m Hn) as [H|H]; [assumption|].
  rewrite H. f_equal. apply meter_step_not_advancing; [congruence|].
  destruct (meter_advances now m) eqn:E; [|reflexivity].
  apply meter_advances_due in E
    as (l & s & Es & _ & _ & El & Hd & _).
  assert (l = last) by congruence. assert (s = spm) by congruence. lia.
Qed.

(** Started at 10 with 20 s per meter, ticked at 29. *)
Lemma no_advance_before_interval_witness :
  nth_error (machines (automatic_meter_counter 29 st_started)) 0
  = Some (Machine.mk 1 "Modan" "Machine 1" running true (Some "WO1")
            (Some "WO1") (Some "20") 100 0 (Some 20) (Some 10)).
Proof.
  apply (no_advance_before_interval 29 st_started 0 _ 10 20); reflexivity.
Defined.

(** X9. A machine whose [produced_qty] is already at or above its
    [target_qty] is never advanced and never completed by the meter
    counter: after any number of ticks it has the same status, lock,
    count and target. A running machine in that state (restarted after
    completion, or assigned a work order that was over-produced at the
    source) stays running. *)
Theorem at_target_never_changes
    (nows : list Z) (st : Store) (n : nat) (m : Machine.t) :
  nth_error (machines st) n = Some m ->
  Machine.target_qty m <= Machine.produced_qty m ->
  exists m',
    nth_error (machines (meter_ticks nows st)) n = Some m'
    /\ Machine.status m' = Machine.status m
    /\ Machine.is_locked m' = Machine.is_locked m
    /\ Machine.produced_qty m' = Machine.produced_qty m
    /\ Machine.target_qty m' = Machine.target_qty m.
Proof.
  unfold meter_ticks. revert st m.
  induction nows as [|now nows IH]; intros st m Hn Hge; simpl.
  - exists m. auto.
  - assert (Hstep : exists m1,
              nth_error (machines (automatic_meter_counter now st)) n = Some m1
              /\ Machine.status m1 = Machine.status m
              /\ Machine.is_locked m1 = Machine.is_locked m
              /\ Machine.produced_qty m1 = Machine.produced_qty m
              /\ Machine.target_qty m1 = Machine.target_qty m).
    { destruct (tick_row now st n m Hn) as [H|H]; [exists m; auto|].
      exists (meter_step now m). split; [assumption|].
      unfold meter_step. destruct (Status_eqb _ _); [|auto].
      destruct (meter_machine_cases now m) as [-> | [-> | [Hlt _]]];
        simpl; auto. lia. }
    destruct Hstep as (m1 & Hn1 & E1 & E2 & E3 & E4).
    destruct (IH (automatic_meter_counter now st) m1 Hn1) as (m' & H & F);
      [lia|].
    exists m'. split; [assumption|]. intuition congruence.
Qed.

Lemma at_target_never_changes_witness :
  List.map (fun m => (Machine.status m, Machine.produced_qty m))
    (machines (meter_ticks [30; 50; 70; 90] (mkStore [m_restarted] [] [])))
  = [(running, 100)].
Proof.
  destruct (at_target_never_changes [30; 50; 70; 90]
              (mkStore [m_restarted] [] []) 0 m_restarted eq_refl)
    as (m' & H & _).
  - simpl. lia.
  - reflexivity.
Defined.

Lemma meter_ticks_cons now nows st :
  meter_ticks (now :: nows) st = meter_ticks nows (automatic_meter_counter now st).
Proof. reflexivity. Qed.

(** X10. A running machine with a work order and a positive rate that is
    [d > 0] units short of its target is completed by exactly [d] ticks
    that each come at least one interval after the one before: after them
    its count is the target, it is completed and unlocked. *)
Theorem completes_after_remaining_ticks
    (nows : list Z) (st : Store) (n : nat) (m : Machine.t) (last spm : Z) :
  nth_error (machines st) n = Some m ->
  Machine.status m = running ->
  truthy (Machine.work_order m) = true ->
  Machine.seconds_per_meter m = Some spm -> 0 < spm ->
  Machine.last_tick_time m = Some last ->
  Machine.produced_qty m < Machine.target_qty m ->
  length nows = Z.to_nat (Machine.target_qty m - Machine.produced_qty m) ->
  spaced spm last nows ->
  exists m',
    nth_error (machines (meter_ticks nows st)) n = Some m'
    /\ Machine.status m' = completed
    /\ Machine.is_locked m' = false
    /\ Machine.produced_qty m' = Machine.target_qty m
    /\ Machine.target_qty m' = Machine.target_qty m.
Proof.
  revert st m last.
  induction nows as [|now nows IH];
    intros st m last Hn Hr Hw Hs Hpos Hl Hp Hlen Hsp.
  - simpl in Hlen. lia.
  - destruct Hsp as [Hd Hsp]. rewrite meter_ticks_cons.
    assert (Hdue : due now m).
    { exists last, spm. repeat split; auto. lia. }
    pose proof (tick_row_due now st n m Hn Hr Hdue) as Hn1.
    rewrite (meter_machine_due _ _ Hdue) in Hn1.
    destruct (Z.leb_spec (Machine.target_qty m) (Machine.produced_qty m + 1))
      as [Hlast|Hmore].
    + assert (nows = []).
      { destruct nows; [reflexivity|]. simpl in Hlen. lia. }
      subst nows. simpl. eexists. split; [exact Hn1|]. simpl. auto.
    + simpl in Hlen.
      destruct (IH (automatic_meter_counter now st) _ now Hn1)
        as (m' & H1 & H2 & H3 & H4 & H5); simpl; auto; try lia.
      exists m'. simpl in H4, H5. auto.
Qed.

(** Three units short, ticks at 30, 50 and 70. *)
Lemma completes_after_remaining_ticks_witness :
  List.map (fun m => (Machine.status m, Machine.is_locked m,
                      Machine.produced_qty m))
    (machines (meter_ticks [30; 50; 70] (mkStore [m_three_short] [] [])))
  = [(completed, false, 100)].
Proof.
  destruct (completes_after_remaining_ticks [30; 50; 70]
              (mkStore [m_three_short] [] []) 0 m_three_short 10 20)
    as (m' & H & _); try reflexivity; try (simpl; lia).
Defined.

(** ** Starting and renaming *)

(** X11. Starting a machine succeeds exactly when a machine with this id
    exists at this location and has a work order. On failure the store is
    unchanged. On success every row with this id becomes running and
    locked with [last_tick_time = now] and keeps its other columns, and
    all other rows, the metadata and the logs are unchanged. *)
Theorem start_machine_effect
    (now : Z) (location : string) (machine_id : Z) (st : Store) :
  let r := start_machine now location machine_id st in
  (snd r = true <->
     exists m, get_machine st location machine_id = Some m
               /\ truthy (Machine.work_order m) = true)
  /\ (snd r = false -> fst r = st)
  /\ metadata (fst r) = metadata st
  /\ production_logs (fst r) = production_logs st
  /\ forall n x,
       nth_error (machines st) n = Some x ->
       exists x',
         nth_error (machines (fst r)) n = Some x'
         /\ (snd r = false \/ Machine.id x <> machine_id -> x' = x)
         /\ (snd r = true -> Machine.id x = machine_id ->
             Machine.status x' = running
             /\ Machine.is_locked x' = true
             /\ Machine.last_tick_time x' = Some now
             /\ same_identity x x' /\ same_job x x'
             /\ Machine.name x' = Machine.name x
             /\ Machine.produced_qty x' = Machine.produced_qty x).
Proof.
  unfold start_machine.
  destruct (get_machine st location machine_id) as [m|] eqn:Hget; simpl.
  2:{ repeat split; try discriminate; auto.
      - intros (m & H & _). discriminate.
      - intros n x Hn. exists x. repeat split; auto; discriminate. }
  destruct (get_machine_Some _ _ _ _ Hget) as (_ & Hid & _).
  destruct (truthy (Machine.work_order m)) eqn:Hw; simpl.
  2:{ repeat split; try discriminate; auto.
      - intros (m0 & [= <-] & H). congruence.
      - intros n x Hn. exists x. repeat split; auto; discriminate. }
  repeat split; try discriminate; eauto.
  intros n x Hn. rewrite update_machine_nth, Hn, Hid. simpl.
  eexists. split; [reflexivity|].
  destruct (Z.eqb_spec (Machine.id x) machine_id) as [E|E]; split.
  - intros [H|H]; [discriminate|contradiction].
  - intros _ _. unfold same_identity, same_job. simpl. intuition.
  - reflexivity.
  - intros _ H. contradiction.
Qed.

Lemma get_machine_iff_exists st location machine_id :
  (exists m, get_machine st location machine_id = Some m) <->
  List.existsb (fun m => (Machine.id m =? machine_id)
                         && String.eqb (Machine.location m) location)
               (machines st) = true.
Proof.
  unfold get_machine. rewrite List.existsb_exists. split.
  - intros (m & H). apply List.find_some in H. eauto.
  - intros (m & Hin & Hp).
    destruct (List.find _ (machines st)) as [x|] eqn:E; [eauto|].
    rewrite find_none_iff in E. rewrite (E m Hin) in Hp. discriminate.
Qed.

Lemma rename_machine_eq location machine_id new_name st :
  rename_machine location machine_id new_name st =
  if List.existsb (fun m => (Machine.id m =? machine_id)
                            && String.eqb (Machine.location m) location)
                  (machines st)
  then (with_machines
          (update_machine machine_id (set_name new_name) (machines st)) st,
        true)
  else (st, false).
Proof.
  unfold rename_machine.
  destruct (get_machine st location machine_id) as [m|] eqn:Hget.
  - destruct (get_machine_Some _ _ _ _ Hget) as (_ & Hid & _).
    rewrite (proj1 (get_machine_iff_exists st location machine_id)
               (ex_intro _ m Hget)).
    now rewrite Hid.
  - destruct (List.existsb _ _) eqn:E; [|reflexivity].
    apply get_machine_iff_exists in E as (m & Hm). congruence.
Qed.

Lemma meter_body_renamed i v now m metas logs :
  meter_body now (renamed i v m) metas logs =
  let '(m', metas', logs', adv) := meter_body now m metas logs in
  (renamed i v m', metas', logs', adv).
Proof.
  unfold renamed. destruct (Machine.id m =? i) eqn:E.
  - unfold meter_body. simpl.
    repeat (case_branch; simpl; rewrite ?E; try reflexivity).
  - pose proof (meter_body_machine now m metas logs) as Hm.
    destruct (meter_body now m metas logs) as [[[m' metas'] logs'] adv].
    simpl in Hm. subst m'.
    assert (Hid : Machine.id (meter_machine now m) = Machine.id m).
    { destruct (meter_machine_cases now m) as [-> | [-> | [_ [-> | ->]]]];
        reflexivity. }
    now rewrite Hid, E.
Qed.

Lemma meter_loop_renamed i v now ms metas logs u :
  meter_loop now (List.map (renamed i v) ms) metas logs u =
  let '(ms', metas', logs', u') := meter_loop now ms metas logs u in
  (List.map (renamed i v) ms', metas', logs', u').
Proof.
  revert metas logs u. induction ms as [|m ms IH]; intros; simpl;
    [reflexivity|].
  assert (Hst : Machine.status (renamed i v m) = Machine.status m).
  { unfold renamed. destruct (_ =? _); reflexivity. }
  rewrite Hst. destruct (Status_eqb (Machine.status m) running).
  - rewrite meter_body_renamed.
    destruct (meter_body now m metas logs) as [[[m' metas'] logs'] adv].
    rewrite IH.
    destruct (meter_loop now ms metas' logs' (u || adv)%bool)
      as [[[rest' ?] ?] ?]. reflexivity.
  - rewrite IH.
    destruct (meter_loop now ms metas logs u) as [[[rest' ?] ?] ?].
    reflexivity.
Qed.

Lemma existsb_map_same {A : Type} (p : A -> bool) (g : A -> A) l :
  (forall x, p (g x) = p x) ->
  List.existsb p (List.map g l) = List.existsb p l.
Proof.
  intros H. induction l as [|a l IH]; simpl; [reflexivity|].
  now rewrite H, IH.
Qed.

(** X12. Renaming a machine and a tick of the meter counter commute:
    renaming before the tick or after it gives the same store and the same
    answer, so a rename never changes what is produced, logged or
    completed. *)
Theorem rename_commutes_with_tick
    (now : Z) (location : string) (machine_id : Z) (new_name : string)
    (st : Store) :
  rename_machine location machine_id new_name (automatic_meter_counter now st)
  = (automatic_meter_counter now
       (fst (rename_machine location machine_id new_name st)),
     snd (rename_machine location machine_id new_name st)).
Proof.
  rewrite !rename_machine_eq.
  assert (Hex : List.existsb
                  (fun m => (Machine.id m =? machine_id)
                            && String.eqb (Machine.location m) location)
                  (machines (automatic_meter_counter now st))
                = List.existsb
                    (fun m => (Machine.id m =? machine_id)
                              && String.eqb (Machine.location m) location)
                    (machines st)).
  { rewrite automatic_meter_counter_machines.
    destruct (List.existsb _ (machines st)) eqn:E at 1; [|reflexivity].
    apply existsb_map_same. intros m.
    destruct (meter_step_keeps now m) as ((-> & -> & _) & _). reflexivity. }
  rewrite Hex. destruct (List.existsb _ (machines st)); [|reflexivity].
  simpl. f_equal.
  unfold automatic_meter_counter, with_machines. simpl.
  change (update_machine machine_id (set_name new_name) (machines st))
    with (List.map (renamed machine_id new_name) (machines st)).
  rewrite meter_loop_renamed.
  destruct (meter_loop now (machines st) (metadata st) (production_logs st)
              false) as [[[ms metas] logs] upd].
  destruct upd; reflexivity.
Qed.

(** ** The dashboard data *)

Section Grouping.
Context {V : Type}.
Implicit Types (d : list (string * list V)) (rows : list (string * V)).

Lemma setdefault_append_keys k (v : V) d :
  List.map fst (setdefault_append k v d)
  = List.map fst d
    ++ (if List.existsb (String.eqb k) (List.map fst d) then [] else [k]).
Proof.
  induction d as [|[k' vs] d IH]; simpl; [reflexivity|].
  rewrite (String.eqb_sym k k'). destruct (String.eqb k' k); simpl.
  - now rewrite List.app_nil_r.
  - now rewrite IH.
Qed.

Lemma setdefault_append_NoDup k (v : V) d :
  List.NoDup (List.map fst d) ->
  List.NoDup (List.map fst (setdefault_append k v d)).
Proof.
  intros H. rewrite setdefault_append_keys.
  destruct (List.existsb _ _) eqn:E; [now rewrite List.app_nil_r|].
  apply List.NoDup_app; [assumption|repeat constructor; intros []|].
  intros x Hx [<-|[]].
  assert (List.existsb (String.eqb k) (List.map fst d) = true);
    [|congruence].
  apply List.existsb_exists. exists k. split; [assumption|].
  apply String.eqb_refl.
Qed.

(** The list under [k'] after one [setdefault(k, []).append(v)]. *)
Lemma setdefault_append_lookup k (v : V) d k' vs :
  List.NoDup (List.map fst d) ->
  In (k', vs) (setdefault_append k v d) <->
  (k' <> k /\ In (k', vs) d)
  \/ (k' = k /\ ((exists vs0, In (k, vs0) d /\ vs = vs0 ++ [v])
                 \/ (~ In k (List.map fst d) /\ vs = [v]))).
Proof.
  induction d as [|[k0 vs0] d IH]; simpl; intros Hnd.
  - split.
    + intros [[= <- <-]|[]]. right. split; [reflexivity|]. right. tauto.
    + intros [[_ []] | [-> [(x & [] & _) | [_ ->]]]]. now left.
  - inversion Hnd as [|? ? Hk0 Hnd']; subst.
    destruct (String.eqb_spec k0 k) as [->|Hne]; simpl.
    + split.
      * intros [[= <- <-] | Hin].
        -- right. split; [reflexivity|]. left. exists vs0. auto.
        -- left. split; [|now right]. intros ->. apply Hk0.
           change k with (fst (k, vs)). now apply List.in_map.
      * intros [[Hne [[= -> ->]|Hin]] | [-> [(x & [[= <-]|Hin] & ->) | [Hno _]]]].
        -- contradiction.
        -- now right.
        -- now left.
        -- exfalso. apply Hk0. change k with (fst (k, x)).
           now apply List.in_map.
        -- exfalso. apply Hno. now left.
    + rewrite (IH Hnd'). split.
      * intros [[= <- <-] | [[H1 H2] | [-> [(x & Hx & ->) | [Hno ->]]]]].
        -- left. split; [assumption|now left].
        -- left. split; [assumption|now right].
        -- right. split; [reflexivity|]. left. exists x. split; [now right|].
           reflexivity.
        -- right. split; [reflexivity|]. right. split; [|reflexivity].
           intros [E|Hin]; [congruence|contradiction].
      * intros [[H1 [[= <- <-]|H2]] | [-> [(x & [[= E _]|Hx] & ->) | [Hno ->]]]].
        -- now left.
        -- right. left. auto.
        -- congruence.
        -- right. right. split; [reflexivity|]. left. exists x. auto.
        -- right. right. split; [reflexivity|]. right. split; [|reflexivity].
           intros Hin. apply Hno. now right.
Qed.

Lemma values_of_app k rows rows' :
  values_of k (rows ++ rows') = values_of k rows ++ values_of k rows'.
Proof. unfold values_of. now rewrite List.filter_app, List.map_app. Qed.

(** Grouping a list of keyed values into an empty dictionary: the keys are
    distinct, and under each key are its values, in order. *)
Lemma grouping_spec rows d :
  List.NoDup (List.map fst d) ->
  let r := List.fold_left (fun a kv => setdefault_append (fst kv) (snd kv) a)
             rows d in
  List.NoDup (List.map fst r)
  /\ forall k vs,
       In (k, vs) r <->
       (exists vs0, In (k, vs0) d /\ vs = vs0 ++ values_of k rows)
       \/ (~ In k (List.map fst d) /\ values_of k rows <> []
           /\ vs = values_of k rows).
Proof.
  revert d. induction rows as [|[k0 v0] rows IH]; intros d Hnd; simpl.
  - split; [assumption|]. intros k vs. unfold values_of. simpl. split.
    + intros H. left. exists vs. now rewrite List.app_nil_r.
    + intros [(vs0 & H & ->) | (_ & H & _)]; [|contradiction].
      now rewrite List.app_nil_r.
  - pose proof (setdefault_append_NoDup k0 v0 d Hnd) as Hnd1.
    destruct (IH (setdefault_append k0 v0 d) Hnd1) as [H1 H2].
    split; [exact H1|]. intros k vs. rewrite H2.
    assert (Hv : values_of k ((k0, v0) :: rows)
                 = (if String.eqb k0 k then [v0] else [])
                   ++ values_of k rows).
    { unfold values_of. simpl. destruct (String.eqb k0 k); reflexivity. }
    rewrite Hv.
    assert (Hkeys : In k (List.map fst (setdefault_append k0 v0 d))
                    <-> In k (List.map fst d) \/ k = k0).
    { rewrite setdefault_append_keys, List.in_app_iff.
      destruct (List.existsb _ _) eqn:E; simpl.
      - apply List.existsb_exists in E as (x & Hx & Ex).
        apply String.eqb_eq in Ex. subst x.
        split; [tauto|]. intros [H| ->]; auto.
      - split; [intros [H|[<-|[]]]; auto|intros [H| ->]; auto]. }
    split.
    + intros [(vs0 & Hin & ->) | (Hno & Hne & ->)].
      * apply (setdefault_append_lookup k0 v0 d k vs0 Hnd) in Hin.
        destruct Hin as [[Hk Hin] | [-> [(x & Hx & ->) | [Hno ->]]]].
        -- left. exists vs0. split; [assumption|].
           destruct (String.eqb_spec k0 k); [congruence|reflexivity].
        -- left. exists x. split; [assumption|].
           rewrite String.eqb_refl. now rewrite <- List.app_assoc.
        -- right. rewrite String.eqb_refl. simpl.
           split; [assumption|]. split; [discriminate|reflexivity].
      * right. rewrite Hkeys in Hno.
        destruct (String.eqb_spec k0 k) as [->|Hk]; [tauto|]. simpl.
        split; [tauto|]. split; [assumption|reflexivity].
    + intros [(vs0 & Hin & ->) | (Hno & Hne & ->)].
      * left. destruct (String.eqb_spec k0 k) as [->|Hk].
        -- exists (vs0 ++ [v0]). split; [|now rewrite <- List.app_assoc].
           apply (setdefault_append_lookup k v0 d k _ Hnd).
           right. split; [reflexivity|]. left. eauto.
        -- exists vs0. split; [|reflexivity].
           apply (setdefault_append_lookup k0 v0 d k _ Hnd).
           left. split; [congruence|assumption].
      * destruct (String.eqb_spec k0 k) as [->|Hk].
        -- left. exists [v0]. split; [|reflexivity].
           apply (setdefault_append_lookup k v0 d k _ Hnd).
           right. split; [reflexivity|]. right. auto.
        -- right. simpl in *. rewrite Hkeys. split; [|split; auto].
           intros [H| ->]; [contradiction|congruence].
Qed.
End Grouping.

Lemma dashboard_fold mm l seen locs (nj : gmap string NextJob) :
  (forall k, nj !! k
             = option_map next_job_of
                 (List.find (fun x => String.eqb (Machine.location x) k
                                      && is_next_job x) seen)) ->
  fst (List.fold_left (fun acc m => dashboard_body mm m acc) l (locs, nj))
  = List.fold_left (fun a kv => setdefault_append (fst kv) (snd kv) a)
      (rows_from mm seen l) locs.
Proof.
  revert seen locs nj. induction l as [|m l IH]; intros seen locs nj Hnj;
    [reflexivity|].
  cbn [List.fold_left rows_from]. unfold dashboard_body at 2.
  set (nj' := if is_next_job m
              then match nj !! Machine.location m with
                   | Some _ => nj
                   | None => <[Machine.location m := next_job_of m]> nj
                   end
              else nj).
  assert (Hnj' : forall k, nj' !! k
             = option_map next_job_of
                 (List.find (fun x => String.eqb (Machine.location x) k
                                      && is_next_job x) (seen ++ [m]))).
  { intros k. rewrite find_app. specialize (Hnj k). subst nj'.
    cbn [List.find].
    destruct (String.eqb_spec (Machine.location m) k) as [<-|Hk].
    - destruct (is_next_job m); cbn [andb].
      + destruct (nj !! Machine.location m) eqn:E.
        * rewrite E. destruct (List.find _ seen); [exact Hnj|discriminate].
        * rewrite lookup_insert_eq.
          destruct (List.find _ seen); [discriminate|reflexivity].
      + rewrite Hnj. destruct (List.find _ seen); reflexivity.
    - cbn [andb].
      assert (E : (if is_next_job m
                   then match nj !! Machine.location m with
                        | Some _ => nj
                        | None => <[Machine.location m := next_job_of m]> nj
                        end
                   else nj) !! k = nj !! k).
      { destruct (is_next_job m); [|reflexivity].
        destruct (nj !! Machine.location m); [reflexivity|].
        now rewrite lookup_insert_ne. }
      rewrite E, Hnj. destruct (List.find _ seen); reflexivity. }
  rewrite (IH (seen ++ [m]) _ nj' Hnj'). simpl.
  unfold row_view. now rewrite <- Hnj'.
Qed.

Lemma get_dashboard_data_eq st :
  get_dashboard_data st
  = List.map (fun kv => mkLocationView (fst kv) (snd kv))
      (List.fold_left (fun a kv => setdefault_append (fst kv) (snd kv) a)
         (rows_from (metadata_map (metadata st)) [] (machines st)) []).
Proof.
  unfold get_dashboard_data. rewrite (dashboard_fold _ _ []); [reflexivity|].
  intros k. apply lookup_empty.
Qed.

Lemma rows_from_app mm seen l1 l2 :
  rows_from mm seen (l1 ++ l2)
  = rows_from mm seen l1 ++ rows_from mm (seen ++ l1) l2.
Proof.
  revert seen. induction l1 as [|m l1 IH]; intros seen; simpl.
  - now rewrite List.app_nil_r.
  - now rewrite IH, <- List.app_assoc.
Qed.

Lemma values_of_rows_length mm seen l k :
  length (values_of k (rows_from mm seen l))
  = length (List.filter (at_location k) l).
Proof.
  revert seen. induction l as [|m l IH]; intros seen; [reflexivity|].
  unfold values_of, at_location in *. simpl.
  destruct (String.eqb (Machine.location m) k); simpl; now rewrite IH.
Qed.

Lemma values_of_rows_columns mm seen l k :
  List.map (fun r => (mv_id r, mv_name r, mv_status r))
    (values_of k (rows_from mm seen l))
  = List.map (fun m => (Machine.id m, Machine.name m, Machine.status m))
      (List.filter (at_location k) l).
Proof.
  revert seen. induction l as [|m l IH]; intros seen; [reflexivity|].
  unfold values_of, at_location in *. simpl.
  destruct (String.eqb (Machine.location m) k); simpl; now rewrite IH.
Qed.

Lemma dashboard_group_iff st g :
  In g (get_dashboard_data st) <->
  loc_machines g
  = values_of (loc_name g)
      (rows_from (metadata_map (metadata st)) [] (machines st))
  /\ loc_machines g <> [].
Proof.
  rewrite get_dashboard_data_eq, List.in_map_iff.
  destruct (grouping_spec
              (rows_from (metadata_map (metadata st)) [] (machines st)) []
              (List.NoDup_nil _)) as [_ H].
  split.
  - intros ([k vs] & <- & Hin). apply H in Hin. simpl.
    destruct Hin as [(vs0 & [] & _) | (_ & Hne & ->)]. auto.
  - intros [E Hne]. exists (loc_name g, loc_machines g).
    split; [now destruct g|]. apply H. right. rewrite <- E. auto.
Qed.

(** X13. The dashboard lists every machine exactly once, under its
    location: the location names are distinct, no group is empty, every
    location that has a machine has a group, and a group holds the
    machines of its location with their id, name and status, in table
    order. *)
Theorem dashboard_groups_by_location (st : Store) :
  let d := get_dashboard_data st in
  List.NoDup (List.map loc_name d)
  /\ (forall g, In g d ->
        loc_machines g <> []
        /\ List.map (fun r => (mv_id r, mv_name r, mv_status r))
             (loc_machines g)
           = List.map (fun m => (Machine.id m, Machine.name m,
                                 Machine.status m))
               (List.filter (at_location (loc_name g)) (machines st)))
  /\ (forall m, In m (machines st) ->
        exists g, In g d /\ loc_name g = Machine.location m).
Proof.
  split; [|split].
  - rewrite get_dashboard_data_eq, List.map_map. simpl.
    apply (grouping_spec _ [] (List.NoDup_nil _)).
  - intros g Hg. apply dashboard_group_iff in Hg as [E Hne].
    split; [assumption|]. rewrite E. apply values_of_rows_columns.
  - intros m Hm.
    exists (mkLocationView (Machine.location m)
              (values_of (Machine.location m)
                 (rows_from (metadata_map (metadata st)) [] (machines st)))).
    split; [|reflexivity]. apply dashboard_group_iff. simpl.
    split; [reflexivity|]. intros E.
    apply (f_equal (@length _)) in E.
    rewrite values_of_rows_length in E.
    assert (Hin : In m (List.filter (at_location (Machine.location m))
                          (machines st))).
    { apply List.filter_In. split; [assumption|]. apply String.eqb_refl. }
    destruct (List.filter _ _); [destruct Hin|discriminate].
Qed.

(** X14. The row of a machine is at the position of the machine among
    those of its location, and shows as next job the first machine of that
    location, in table order up to and including this machine, that is
    free or stopped and has a work order: machines listed before that one
    show no next job, the ones after it the same one. *)
Theorem dashboard_row_of_machine
    (st : Store) (pre post : list Machine.t) (m : Machine.t) :
  machines st = pre ++ m :: post ->
  exists g,
    In g (get_dashboard_data st)
    /\ loc_name g = Machine.location m
    /\ nth_error (loc_machines g)
         (length (List.filter (at_location (Machine.location m)) pre))
       = Some (mkMachineView (Machine.id m) (Machine.name m)
                 (Machine.status m)
                 (job_of (metadata_map (metadata st)) m)
                 (option_map next_job_of
                    (List.find
                       (fun x => at_location (Machine.location m) x
                                 && is_next_job x)
                       (pre ++ [m])))).
Proof.
  intros Hms.
  set (mm := metadata_map (metadata st)).
  set (k := Machine.location m).
  assert (Hrow : nth_error (values_of k (rows_from mm [] (machines st)))
                   (length (List.filter (at_location k) pre))
                 = Some (row_view mm pre m)).
  { rewrite Hms, rows_from_app, values_of_app. simpl.
    rewrite List.nth_error_app2
      by (rewrite values_of_rows_length; apply Nat.le_refl).
    rewrite values_of_rows_length, Nat.sub_diag.
    unfold values_of. simpl. unfold k. now rewrite String.eqb_refl. }
  exists (mkLocationView k (values_of k (rows_from mm [] (machines st)))).
  split; [|split; [reflexivity|exact Hrow]].
  apply dashboard_group_iff. simpl. split; [reflexivity|].
  intros E. rewrite E in Hrow.
  destruct (length _); discriminate.
Qed.

Lemma dashboard_row_of_machine_witness :
  exists g,
    In g (get_dashboard_data st_dashboard)
    /\ loc_name g = "Modan"
    /\ option_map (fun r => option_map nj_machine_id (mv_next_job r))
         (nth_error (loc_machines g) 2)
       = Some (Some 2).
Proof.
  destruct (dashboard_row_of_machine st_dashboard
              [Machine.mk 1 "Modan" "Machine 1" running true (Some "WO1")
                 (Some "WO1") (Some "20") 100 40 (Some 20) (Some 10);
               Machine.mk 100 "Baldeya" "Machine 1" free false None None
                 (Some "20") 100 0 (Some 20) None;
               Machine.mk 2 "Modan" "Machine 2" stopped true (Some "WO2")
                 (Some "WO2") (Some "20") 50 10 (Some 20) (Some 10)]
              []
              (Machine.mk 3 "Modan" "Machine 3" free false None None
                 (Some "20") 100 0 (Some 20) None) eq_refl)
    as (g & H1 & H2 & H3).
  exists g. split; [exact H1|]. split; [exact H2|].
  etransitivity; [apply f_equal; exact H3|reflexivity].
Defined.

Lemma rows_from_In mm seen l k v :
  In (k, v) (rows_from mm seen l) ->
  exists m, In m l /\ k = Machine.location m /\ mv_id v = Machine.id m
            /\ mv_job v = job_of mm m.
Proof.
  revert seen. induction l as [|m l IH]; intros seen; simpl; [intros []|].
  intros [[= <- <-] | H].
  - exists m. auto.
  - destruct (IH _ H) as (x & Hx & Hrest). exists x. auto.
Qed.

Lemma dashboard_row_In st g r :
  In g (get_dashboard_data st) -> In r (loc_machines g) ->
  exists m, In m (machines st) /\ loc_name g = Machine.location m
            /\ mv_id r = Machine.id m
            /\ mv_job r = job_of (metadata_map (metadata st)) m.
Proof.
  intros Hg Hr. apply dashboard_group_iff in Hg as [E _].
  rewrite E in Hr. unfold values_of in Hr.
  apply List.in_map_iff in Hr as ([k v] & <- & Hin).
  apply List.filter_In in Hin as [Hin Hk]. simpl in Hk.
  apply String.eqb_eq in Hk. subst k.
  now apply (rows_from_In _ _ _ _ _ Hin).
Qed.

Lemma percent_at_most_100 m :
  0 < Machine.target_qty m -> qty_bound m ->
  (percent m <= inject_Z 100)%Q.
Proof.
  unfold qty_bound, percent. intros Ht Hb.
  destruct (Machine.target_qty m) as [|t|t] eqn:E; try lia.
  unfold Qle, Qdiv, Qmult, Qinv, inject_Z. simpl. nia.
Qed.

(** X15. Every job the dashboard shows belongs to a machine of the group
    with a work order, and its figures are consistent: with a target other
    than 0 the completed and remaining quantities add up to the total,
    with target 0 the remaining quantity is 0; the remaining time is the
    remaining quantity times the rate, or absent when the machine has no
    rate; and when the machine's count does not exceed its target the
    remaining quantity is not negative and the progress is at most 100. *)
Theorem dashboard_job_figures
    (st : Store) (g : LocationView) (r : MachineView) (j : Job) :
  In g (get_dashboard_data st) ->
  In r (loc_machines g) ->
  mv_job r = Some j ->
  exists m,
    In m (machines st)
    /\ Machine.location m = loc_name g /\ Machine.id m = mv_id r
    /\ truthy (Machine.work_order m) = true
    /\ job_total_qty j = Machine.target_qty m
    /\ job_completed_qty j = Machine.produced_qty m
    /\ (job_total_qty j <> 0 ->
        job_completed_qty j + job_remaining_qty j = job_total_qty j)
    /\ (job_total_qty j = 0 -> job_remaining_qty j = 0)
    /\ job_remaining_time j
       = (if truthyZ (Machine.seconds_per_meter m)
          then option_map (Z.mul (job_remaining_qty j))
                 (Machine.seconds_per_meter m)
          else None)
    /\ (qty_bound m ->
        0 <= job_remaining_qty j
        /\ (0 < job_total_qty j ->
            (job_progress_percent j <= inject_Z 100)%Q)).
Proof.
  intros Hg Hr Hj.
  destruct (dashboard_row_In st g r Hg Hr) as (m & Hm & Hloc & Hid & Hjob).
  exists m. rewrite Hjob in Hj. unfold job_of in Hj.
  destruct (truthy (Machine.work_order m)) eqn:Hw; [|discriminate].
  injection Hj as <-. simpl.
  repeat split; auto.
  - unfold remaining_qty. destruct (Z.eqb_spec (Machine.target_qty m) 0); lia.
  - intros E. unfold remaining_qty. now rewrite E.
  - unfold remaining_time, truthyZ.
    destruct (Machine.seconds_per_meter m) as [s|]; [|reflexivity].
    destruct (s =? 0); reflexivity.
  - unfold qty_bound in H. unfold remaining_qty.
    destruct (Z.eqb_spec (Machine.target_qty m) 0); lia.
  - intros Ht. unfold progress_percent.
    destruct (Z.eqb_spec (Machine.target_qty m) 0); [lia|].
    now apply percent_at_most_100.
Qed.

Lemma dashboard_job_figures_witness :
  exists m,
    In m (machines st_dashboard) /\ Machine.id m = 2
    /\ 10 + 40 = Machine.target_qty m.
Proof.
  destruct (dashboard_job_figures st_dashboard
              (mkLocationView "Modan"
                 (values_of "Modan"
                    (rows_from (metadata_map (metadata st_dashboard)) []
                       (machines st_dashboard))))
              (mkMachineView 2 "Machine 2" stopped
                 (job_of (metadata_map (metadata st_dashboard)) m_stopped)
                 (Some (next_job_of m_stopped)))
              (mkJob (Some "WO2") (Some "20") 50 10 40 (Some 800)
                 (progress_percent m_stopped) (Some "Assigned") None))
    as (m & H1 & _ & H3 & _ & H5 & H6 & H7 & _).
  - left. reflexivity.
  - right. left. reflexivity.
  - reflexivity.
  - exists m. split; [exact H1|]. split; [exact H3|].
    simpl in H5, H6, H7. rewrite <- H5. reflexivity.
Defined.

Lemma metadata_map_fold metas (acc : gmap string ERPNextMetadata.t) w :
  List.fold_left (fun a r => <[ERPNextMetadata.work_order r := r]> a)
    metas acc !! w
  = match List.find (meta_for w) (List.rev metas) with
    | Some r => Some r
    | None => acc !! w
    end.
Proof.
  revert acc. induction metas as [|r metas IH]; intros acc; simpl;
    [reflexivity|].
  rewrite IH, find_app. destruct (List.find _ (List.rev metas)); [reflexivity|].
  simpl. unfold meta_for.
  destruct (String.eqb_spec (ERPNextMetadata.work_order r) w) as [<-|Hne].
  - apply lookup_insert_eq.
  - now apply lookup_insert_ne.
Qed.

Lemma find_rev_unique_key metas w :
  List.NoDup (List.map ERPNextMetadata.work_order metas) ->
  List.find (meta_for w) (List.rev metas) = List.find (meta_for w) metas.
Proof.
  induction metas as [|r metas IH]; intros Hnd; [reflexivity|].
  inversion Hnd as [|? ? Hr Hnd']; subst. simpl. rewrite find_app. simpl.
  destruct (meta_for w r) eqn:E.
  - assert (Hnone : List.find (meta_for w) (List.rev metas) = None).
    { apply find_none_iff. intros x Hx. apply List.in_rev in Hx.
      destruct (meta_for w x) eqn:Ex; [|reflexivity]. exfalso. apply Hr.
      unfold meta_for in *. apply String.eqb_eq in E, Ex.
      rewrite E, <- Ex. now apply List.in_map. }
    now rewrite Hnone.
  - rewrite (IH Hnd'). destruct (List.find _ metas); reflexivity.
Qed.

(** X16. The ERP status that the dashboard shows for a machine's job is
    the status of the last metadata record of the machine's work order.
    When no two records have the same work order, this is the record that
    the meter counter and the assignment pass read and update (the first
    one); with several records of one work order the dashboard shows the
    last while those update the first. *)
Theorem dashboard_status_source (st : Store) (m : Machine.t) :
  truthy (Machine.work_order m) = true ->
  exists j,
    job_of (metadata_map (metadata st)) m = Some j
    /\ job_erp_status j
       = option_map ERPNextMetadata.erp_status
           (List.find (meta_of (Machine.work_order m))
              (List.rev (metadata st)))
    /\ (List.NoDup (meta_keys st) ->
        job_erp_status j
        = option_map ERPNextMetadata.erp_status
            (List.find (meta_of (Machine.work_order m)) (metadata st))).
Proof.
  intros Hw. unfold job_of. rewrite Hw. eexists. split; [reflexivity|].
  simpl. unfold erp_meta.
  destruct (Machine.work_order m) as [w|]; [|discriminate].
  unfold metadata_map. rewrite metadata_map_fold, lookup_empty.
  change (meta_of (Some w)) with (meta_for w). split.
  - destruct (List.find _ _); reflexivity.
  - intros Hnd. rewrite <- (find_rev_unique_key _ w Hnd).
    destruct (List.find _ _); reflexivity.
Qed.

Lemma dashboard_status_source_witness :
  exists j,
    job_of (metadata_map
              [ERPNextMetadata.mk 1 "WO1" "Completed" None 30;
               ERPNextMetadata.mk 1 "WO1" "Assigned" None 5])
      (m_at 100) = Some j
    /\ job_erp_status j = Some "Assigned".
Proof.
  destruct (dashboard_status_source
              (mkStore [m_at 100]
                 [ERPNextMetadata.mk 1 "WO1" "Completed" None 30;
                  ERPNextMetadata.mk 1 "WO1" "Assigned" None 5] [])
              (m_at 100) eq_refl) as (j & H1 & H2 & _).
  exists j. split; [exact H1|]. rewrite H2. reflexivity.
Defined.

(** ** The connection manager *)

Lemma remove_first_app_notin ws l1 l2 :
  ~ In ws l1 -> remove_first ws (l1 ++ ws :: l2) = l1 ++ l2.
Proof.
  induction l1 as [|x l1 IH]; simpl; intros H.
  - now rewrite Z.eqb_refl.
  - destruct (Z.eqb_spec x ws) as [->|Hne]; [tauto|].
    rewrite IH; tauto.
Qed.

Lemma disconnect_app_notin ws l1 l2 :
  ~ In ws l1 -> disconnect (l1 ++ ws :: l2) ws = l1 ++ l2.
Proof.
  intros H. unfold disconnect.
  assert (E : List.existsb (Z.eqb ws) (l1 ++ ws :: l2) = true).
  { apply List.existsb_exists. exists ws. split; [|apply Z.eqb_refl].
    apply List.in_app_iff. right. now left. }
  rewrite E. now apply remove_first_app_notin.
Qed.

Lemma broadcast_fold {D : Type} fails (data : D) l done sent :
  let ok := fun ws => negb (fails ws) in
  List.fold_left
    (fun st ws =>
       if fails ws then (disconnect (fst st) ws, snd st)
       else (fst st, snd st ++ [(ws, data)]))
    l (List.filter ok done ++ l, sent)
  = (List.filter ok (done ++ l),
     sent ++ List.map (fun ws => (ws, data)) (List.filter ok l)).
Proof.
  intros ok. revert done sent.
  induction l as [|ws l IH]; intros done sent.
  - simpl. now rewrite !List.app_nil_r.
  - cbn [List.fold_left fst snd].
    assert (Ef : List.filter ok (done ++ [ws])
                 = List.filter ok done ++ (if fails ws then [] else [ws])).
    { rewrite List.filter_app. simpl. unfold ok at 2.
      destruct (fails ws); reflexivity. }
    destruct (fails ws) eqn:F.
    + rewrite disconnect_app_notin.
      * rewrite List.app_nil_r in Ef. rewrite <- Ef, IH, <- List.app_assoc.
        simpl. assert (Hok : ok ws = false) by (unfold ok; now rewrite F).
        now rewrite Hok.
      * intros Hin. apply List.filter_In in Hin as [_ Hok].
        unfold ok in Hok. rewrite F in Hok. discriminate.
    + replace (List.filter ok done ++ ws :: l)
        with (List.filter ok (done ++ [ws]) ++ l)
        by (rewrite Ef, <- List.app_assoc; reflexivity).
      rewrite IH, <- !List.app_assoc. simpl.
      assert (Hok : ok ws = true) by (unfold ok; now rewrite F).
      now rewrite Hok.
Qed.

(** X17. A broadcast delivers the message, in order, to exactly the
    connections whose send does not raise, and afterwards the list of
    active connections is the old one without those that raised, in the
    old order; no working connection is dropped. *)
Theorem broadcast_drops_failed_only
    {D : Type} (fails : Z -> bool) (conns : list Z) (data : D) :
  broadcast fails conns data
  = (List.filter (fun ws => negb (fails ws)) conns,
     List.map (fun ws => (ws, data))
       (List.filter (fun ws => negb (fails ws)) conns)).
Proof.
  unfold broadcast.
  exact (broadcast_fold fails data conns [] []).
Qed.

(** X18. Disconnecting a websocket that is not connected changes
    nothing, and connecting a new websocket and disconnecting it again
    gives back the list of connections as it was. *)
Theorem connect_disconnect_round_trip (conns : list Z) (ws : Z) :
  ~ In ws conns ->
  disconnect conns ws = conns
  /\ disconnect (connect conns ws) ws = conns.
Proof.
  intros H. split.
  - unfold disconnect. destruct (List.existsb _ _) eqn:E; [|reflexivity].
    apply List.existsb_exists in E as (x & Hx & Ex).
    apply Z.eqb_eq in Ex. subst x. contradiction.
  - unfold connect. rewrite (disconnect_app_notin ws conns [] H).
    apply List.app_nil_r.
Qed.

Lemma connect_disconnect_round_trip_witness :
  disconnect [4; 7] 9 = [4; 7] /\ disconnect (connect [4; 7] 9) 9 = [4; 7].
Proof.
  apply (connect_disconnect_round_trip [4; 7] 9).
  intros [H|[H|[]]]; discriminate.
Defined.

(** ** The alert loop: repeated and rising readings *)

Lemma watched_parts m :
  watched m = true ->
  (0 <? Machine.target_qty m) = true
  /\ truthy (Machine.work_order m) = true
  /\ Status_eqb (Machine.status m) running = true.
Proof.
  unfold watched. rewrite !Bool.andb_true_iff. tauto.
Qed.

(** The history entry and the alert of a machine the loop looks at. *)
Lemma alerts_body_watched m h :
  watched m = true ->
  alerts_body m (h, [])
  = if (0 <? level_of m)
       && negb (level_of m =? last_level h (Machine.id m))
    then (<[Machine.id m := level_of m]> h, [alert_of m])
    else if Qlt_bool (percent m) (inject_Z 75)
         then (<[Machine.id m := 0]> h, [])
         else (h, []).
Proof.
  intros Hw. apply watched_parts in Hw as (_ & Hwo & Hr).
  unfold alerts_body. rewrite Hwo, Hr. reflexivity.
Qed.

Lemma Qlt_bool_level m :
  Qlt_bool (percent m) (inject_Z 75) = true -> level_of m = 0.
Proof.
  unfold Qlt_bool. intros H. apply Bool.negb_true_iff in H.
  apply Qle_bool_false in H. now apply level_of_zero.
Qed.

(** After the pass, no machine would be alerted again by the same
    reading. *)
Lemma emits_after_body m h :
  watched m = true ->
  emits (fst (alerts_body m (h, []))) m = false.
Proof.
  intros Hw. rewrite (alerts_body_watched m h Hw).
  unfold emits, last_level. rewrite Hw. simpl.
  destruct (0 <? level_of m) eqn:Hpos; simpl; [|reflexivity].
  destruct (Z.eqb_spec (level_of m) (default 0 (h !! Machine.id m)))
    as [E|E]; simpl.
  - destruct (Qlt_bool _ _) eqn:Q; simpl.
    + apply Qlt_bool_level in Q. apply Z.ltb_lt in Hpos. lia.
    + rewrite <- E, Z.eqb_refl. reflexivity.
  - rewrite lookup_insert_eq. simpl. now rewrite Z.eqb_refl.
Qed.

(** X19. A second pass of the alert loop over the same machines (with
    distinct ids), unchanged, broadcasts nothing: each reading is alerted
    at most once. *)
Theorem alerts_not_repeated (ms : list Machine.t) (h : gmap Z Z) :
  List.NoDup (List.map Machine.id ms) ->
  snd (production_alerts ms (fst (production_alerts ms h))) = [].
Proof.
  intros Hnd. rewrite (production_alerts_sent ms _ Hnd).
  assert (E : List.filter (emits (fst (production_alerts ms h))) ms = []);
    [|now rewrite E].
  apply filter_nil_iff. intros m Hm.
  destruct (watched m) eqn:Hw; [|unfold emits; now rewrite Hw].
  unfold production_alerts.
  destruct (alerts_fold_spec ms h [] Hnd) as (_ & _ & H3).
  erewrite emits_history_agree; [|apply (H3 m Hm)].
  destruct (watched_parts m Hw) as (-> & _).
  now apply emits_after_body.
Qed.

Lemma alerts_not_repeated_witness :
  snd (production_alerts [m_at 95] (fst (production_alerts [m_at 95] ∅)))
  = [].
Proof.
  apply (alerts_not_repeated [m_at 95] ∅).
  repeat constructor. simpl. tauto.
Defined.

Lemma alert_level_mono p q :
  (p <= q)%Q -> alert_level p <= alert_level q.
Proof.
  intros H. unfold alert_level.
  destruct (Qle_bool (inject_Z 100) p) eqn:P3;
    [apply Qle_bool_iff in P3 | apply Qle_bool_false in P3];
  (destruct (Qle_bool (inject_Z 90) p) eqn:P2;
    [apply Qle_bool_iff in P2 | apply Qle_bool_false in P2]);
  (destruct (Qle_bool (inject_Z 75) p) eqn:P1;
    [apply Qle_bool_iff in P1 | apply Qle_bool_false in P1]);
  (destruct (Qle_bool (inject_Z 100) q) eqn:Q3;
    [apply Qle_bool_iff in Q3 | apply Qle_bool_false in Q3]);
  (destruct (Qle_bool (inject_Z 90) q) eqn:Q2;
    [apply Qle_bool_iff in Q2 | apply Qle_bool_false in Q2]);
  (destruct (Qle_bool (inject_Z 75) q) eqn:Q1;
    [apply Qle_bool_iff in Q1 | apply Qle_bool_false in Q1]);
  try lia; unfold inject_Z in *; exfalso; lra.
Qed.

Lemma production_alerts_single m h :
  watched m = true -> production_alerts [m] h = alerts_body m (h, []).
Proof.
  intros Hw. destruct (watched_parts m Hw) as (Ht & _).
  unfold production_alerts. simpl. now rewrite Ht.
Qed.

Lemma increasing_bounded_length (l : list Z) a b :
  StronglySorted Z.lt l ->
  List.Forall (fun x => a < x <= b) l ->
  Z.of_nat (length l) <= Z.max 0 (b - a).
Proof.
  revert a. induction l as [|x l IH]; intros a Hs Hf; simpl length; [lia|].
  inversion Hs as [|? ? Hs' Hx]; subst.
  inversion Hf as [|? ? Hax Hf']; subst.
  assert (Hl : List.Forall (fun y => x < y <= b) l).
  { rewrite List.Forall_forall in *. intros y Hy.
    specialize (Hx y Hy). specialize (Hf' y Hy). lia. }
  specialize (IH x Hs' Hl). lia.
Qed.

(** X20. When the successive readings of one machine that the loop looks
    at never go down in percent, and the recorded level is not above the
    level of any of them, the alerts broadcast over these passes have
    strictly rising levels, each above the level recorded at the start:
    at most three alerts, and none for a level already alerted. *)
Theorem rising_readings_rising_alerts
    (i : Z) (ms : list Machine.t) (h : gmap Z Z) :
  List.Forall (fun m => Machine.id m = i /\ watched m = true
                        /\ last_level h i <= level_of m) ms ->
  StronglySorted (fun a b => (percent a <= percent b)%Q) ms ->
  let sent := snd (alerts_loop (readings ms) h) in
  StronglySorted Z.lt (List.map alert_level_of sent)
  /\ List.Forall (fun a => alert_machine_id a = i
                           /\ Z.max 0 (last_level h i) < alert_level_of a <= 3) sent
  /\ (length sent <= 3)%nat.
Proof.
  intros Hall Hsorted sent.
  assert (H : StronglySorted Z.lt (List.map alert_level_of sent)
              /\ List.Forall (fun a => alert_machine_id a = i
                                /\ Z.max 0 (last_level h i) < alert_level_of a <= 3)
                   sent).
  { unfold sent. clear sent. revert h Hall.
    induction ms as [|m ms IH]; intros h Hall; simpl.
    - split; constructor.
    - inversion Hall as [|? ? (Hid & Hw & Hle) Hall']; subst.
      inversion Hsorted as [|? ? Hs' Hm]; subst.
      rewrite (production_alerts_single m h Hw), (alerts_body_watched m h Hw).
      pose proof (alert_level_range (percent m)) as Hrange.
      fold (level_of m) in Hrange.
      assert (Hlater : forall h1,
                last_level h1 (Machine.id m) <= level_of m ->
                List.Forall (fun x => Machine.id x = Machine.id m
                                      /\ watched x = true
                                      /\ last_level h1 (Machine.id m)
                                         <= level_of x) ms).
      { intros h1 Hh1. rewrite List.Forall_forall in *. intros x Hx.
        destruct (Hall' x Hx) as (Hx1 & Hx2 & _). repeat split; auto.
        specialize (Hm x Hx). apply alert_level_mono in Hm.
        unfold level_of in *. lia. }
      destruct ((0 <? level_of m)
                && negb (level_of m =? last_level h (Machine.id m)))%bool
        eqn:Em.
      + apply Bool.andb_true_iff in Em as [Hpos Hne].
        apply Z.ltb_lt in Hpos. apply Bool.negb_true_iff in Hne.
        apply Z.eqb_neq in Hne.
        assert (Hh1 : last_level (<[Machine.id m := level_of m]> h)
                        (Machine.id m) = level_of m).
        { unfold last_level. now rewrite lookup_insert_eq. }
        destruct (IH Hs' (<[Machine.id m := level_of m]> h))
          as [IH1 IH2]; [apply Hlater; lia|].
        destruct (alerts_loop (readings ms) _) as [h' sent'] eqn:El.
        simpl in *. rewrite Hh1 in IH2. split.
        * constructor; [assumption|].
          rewrite List.Forall_map. eapply List.Forall_impl; [|exact IH2].
          simpl. intros a Ha. lia.
        * constructor; [simpl; split; [reflexivity|lia]|].
          eapply List.Forall_impl; [|exact IH2]. simpl. intros a Ha. lia.
      + destruct (Qlt_bool (percent m) (inject_Z 75)) eqn:Q.
        * assert (Hh1 : last_level (<[Machine.id m := 0]> h) (Machine.id m)
                        = 0).
          { unfold last_level. now rewrite lookup_insert_eq. }
          apply Qlt_bool_level in Q.
          destruct (IH Hs' (<[Machine.id m := 0]> h))
            as [IH1 IH2]; [apply Hlater; lia|].
          destruct (alerts_loop (readings ms) _) as [h' sent'] eqn:El.
          simpl in *. rewrite Hh1 in IH2. split; [assumption|].
          eapply List.Forall_impl; [|exact IH2]. simpl. intros a Ha. lia.
        * destruct (IH Hs' h) as [IH1 IH2]; [apply Hlater; lia|].
          destruct (alerts_loop (readings ms) h) as [h' sent'] eqn:El.
          simpl in *. split; assumption. }
  destruct H as [H1 H2]. split; [assumption|]. split; [assumption|].
  assert (Hb : List.Forall (fun x => 0 < x <= 3)
                 (List.map alert_level_of sent)).
  { rewrite List.Forall_map. eapply List.Forall_impl; [|exact H2].
    simpl. intros a Ha. lia. }
  pose proof (increasing_bounded_length _ 0 3 H1 Hb) as Hlen.
  rewrite List.length_map in Hlen. lia.
Qed.

Lemma rising_readings_rising_alerts_witness :
  (length (snd (alerts_loop
                  (readings [m_at 70; m_at 80; m_at 95; m_at 99; m_at 100])
                  ∅)) <= 3)%nat.
Proof.
  destruct (rising_readings_rising_alerts 1
              [m_at 70; m_at 80; m_at 95; m_at 99; m_at 100] ∅)
    as (_ & _ & H).
  - repeat constructor; vm_compute; discriminate.
  - repeat constructor; unfold Qle; simpl; lia.
  - exact H.
Defined.

(** ** Locked machines keep their job *)

Lemma update_machine_row i f ms n x :
  nth_error ms n = Some x ->
  nth_error (update_machine i f ms) n = Some x
  \/ nth_error (update_machine i f ms) n = Some (f x).
Proof.
  intros Hn. rewrite update_machine_nth, Hn. simpl.
  destruct (_ =? _); auto.
Qed.

(** X21. In a store with distinct machine ids, no single operation
    (assignment pass with or without faults, start, pause, stop, rename,
    tick) takes the job away from a locked machine: its work order, pipe
    size and target are the same afterwards, and it is still locked unless
    the operation was the tick that completed it. *)
Theorem locked_machine_keeps_job
    (o : Op) (st : Store) (n : nat) (m : Machine.t) :
  unique_ids st ->
  nth_error (machines st) n = Some m ->
  Machine.is_locked m = true ->
  exists m',
    nth_error (machines (apply_op o st)) n = Some m'
    /\ same_identity m m' /\ same_job m m'
    /\ (Machine.is_locked m' = true \/ Machine.status m' = completed).
Proof.
  intros Hu Hn Hl.
  assert (Hsame : same_identity m m /\ same_job m m
                  /\ (Machine.is_locked m = true
                      \/ Machine.status m = completed)).
  { unfold same_identity, same_job. intuition. }
  destruct o; simpl.
  - destruct (pass_rows now faults st work_orders Hu) as (_ & _ & _ & Hrows).
    destruct (Hrows n m Hn) as (m' & Hn' & [-> | (wo & _ & He & _)]).
    + exists m. split; [assumption|exact Hsame].
    + unfold eligible in He. rewrite Hl in He. discriminate.
  - unfold start_machine. destruct (get_machine _ _ _) as [x|];
      [|exists m; auto].
    destruct (negb _); [exists m; auto|]. simpl.
    destruct (update_machine_row (Machine.id x)
                (update_machine_status now running) _ n m Hn) as [H|H];
      [exists m; auto|].
    eexists. split; [exact H|]. unfold same_identity, same_job. simpl.
    intuition.
  - unfold pause_machine. destruct (get_machine _ _ _) as [x|];
      [|exists m; auto]. simpl.
    destruct (update_machine_row (Machine.id x) (Machine.set_status paused)
                _ n m Hn) as [H|H]; [exists m; auto|].
    eexists. split; [exact H|]. unfold same_identity, same_job. simpl.
    intuition.
  - unfold stop_machine. destruct (get_machine _ _ _) as [x|];
      [|exists m; auto]. simpl.
    destruct (update_machine_row (Machine.id x)
                (update_machine_status now stopped) _ n m Hn) as [H|H];
      [exists m; auto|].
    eexists. split; [exact H|]. unfold same_identity, same_job. simpl.
    intuition.
  - unfold rename_machine. destruct (get_machine _ _ _) as [x|];
      [|exists m; auto]. simpl.
    destruct (update_machine_row (Machine.id x) (set_name new_name)
                _ n m Hn) as [H|H]; [exists m; auto|].
    eexists. split; [exact H|]. unfold same_identity, same_job. simpl.
    intuition.
  - destruct (tick_row now st n m Hn) as [H|H]; [exists m; auto|].
    exists (meter_step now m). split; [assumption|].
    destruct (meter_step_keeps now m) as (H1 & H2 & _).
    split; [assumption|]. split; [assumption|].
    unfold meter_step. destruct (Status_eqb _ _); [|now left].
    destruct (meter_machine_cases now m) as [-> | [-> | [_ [-> | ->]]]];
      simpl; auto.
Qed.

Lemma locked_machine_keeps_job_witness :
  exists m',
    nth_error
      (machines (apply_op (OpAssign 5 [] [wo_fresh; wo_second]) st_mixed)) 2
    = Some m'
    /\ Machine.work_order m' = Some "WO9".
Proof.
  assert (Hu : unique_ids st_mixed).
  { repeat constructor; simpl; intuition discriminate. }
  destruct (locked_machine_keeps_job (OpAssign 5 [] [wo_fresh; wo_second])
              st_mixed 2 m_running_locked Hu eq_refl eq_refl)
    as (m' & H1 & _ & (H2 & _) & _).
  exists m'. split; [exact H1|exact H2].
Defined.
